(** * Swing-probability notebook: a shallow embedding and its properties

    The program is [baseball_analysis.ipynb]: a linear sequence of pandas
    and scikit-learn calls.  Tables are modelled as labelled rows, numbers
    as IEEE binary64 values (the kernel's primitive floats), a missing value
    as the float NaN (which is what pandas stores), and every call that can
    raise in Python returns in an error monad.  Calls into scikit-learn,
    statsmodels and numpy's random generator are an interface, [Library],
    over which the notebook is parameterised: what an estimator computes and
    which inputs it refuses are the library's, the order in which the
    notebook calls it and what it does with the results are the
    notebook's. *)

From Stdlib Require Import String Ascii.
From Stdlib Require Import List ZArith Bool Arith Lia Floats Permutation.
From Stdlib Require OrderedTypeEx Sorted.
Import ListNotations.

(* ================================================================= *)
(** ** Exceptions *)

Inductive exn : Type :=
| KeyError (key : string)
| TypeError
| ValueError
| IndexError
| ZeroDivisionError
| NotImplementedError
| Unaligned
| Other (name : string).
(** [Unaligned] marks the label-joining path of Series arithmetic, which the
    notebook never takes: both operands of each of its expressions are
    columns of one frame.  [Other] is any other exception class a library
    may raise. *)

Inductive result (A : Type) : Type :=
| Ok (a : A)
| Raise (e : exn).
Arguments Ok {A} a.
Arguments Raise {A} e.

Definition bind {A B : Type} (m : result A) (k : A -> result B) : result B :=
  match m with
  | Ok a => k a
  | Raise e => Raise e
  end.

Declare Scope result_scope.
Delimit Scope result_scope with result.
Notation "x <- m ;; k" := (bind m (fun x => k))
  (at level 61, m at next level, right associativity) : result_scope.
Notation "' p <- m ;; k" := (bind m (fun x => match x with p => k end))
  (at level 61, p pattern, m at next level, right associativity) : result_scope.
Open Scope result_scope.

(* ================================================================= *)
(** ** Binary64 values *)

Module F64.

(** [numpy.isinf]. *)
Definition is_inf (x : float) : bool := PrimFloat.is_infinity x.

(** A unit-interval test the way Python writes it: [0 <= p <= 1]. *)
Definition in_unit (p : float) : bool :=
  (PrimFloat.leb 0 p && PrimFloat.leb p 1)%bool.

(** [float(n)] for a Python int. *)
Definition of_nat (n : nat) : float :=
  PrimFloat.of_uint63 (Uint63.of_Z (Z.of_nat n)).

(** [math.ceil]: the least integer not below [x]; Python raises on an
    infinity or NaN. *)
Definition ceil (x : float) : option Z :=
  match Prim2SF x with
  | S754_zero _ => Some 0%Z
  | S754_finite s m e =>
      let v := cond_Zopp s (Z.pos m) in
      Some (if (0 <=? e)%Z then (v * 2 ^ e)%Z else (- ((- v) / 2 ^ (- e)))%Z)
  | S754_infinity _ | S754_nan => None
  end.

(** The integer a value is, if it is one. *)
Definition to_int (x : float) : option Z :=
  match Prim2SF x with
  | S754_zero _ => Some 0%Z
  | S754_finite s m e =>
      if (0 <=? e)%Z then Some (cond_Zopp s (Z.pos m * 2 ^ e))%Z
      else if (Z.pos m mod 2 ^ (- e) =? 0)%Z
           then Some (cond_Zopp s (Z.pos m / 2 ^ (- e)))%Z
           else None
  | S754_infinity _ | S754_nan => None
  end.

(** The order of [<] and [<=] on values that are not NaN, read off the
    sign, exponent and mantissa: a key in [Z * Z * Z], compared
    lexicographically. *)
Definition order_key (x : spec_float) : Z * Z * Z :=
  match x with
  | S754_zero _ => (0, 0, 0)%Z
  | S754_infinity s => (if s then (-2)%Z else 2%Z, 0%Z, 0%Z)
  | S754_nan => (0, 0, 0)%Z
  | S754_finite s m e =>
      if s then ((-1)%Z, (- e)%Z, Z.neg m) else (1%Z, e, Z.pos m)
  end.

Definition lex3 (a b : Z * Z * Z) : comparison :=
  let '(a1, a2, a3) := a in
  let '(b1, b2, b3) := b in
  match (a1 ?= b1)%Z with
  | Eq => match (a2 ?= b2)%Z with
          | Eq => (a3 ?= b3)%Z
          | c => c
          end
  | c => c
  end.

End F64.

(* ================================================================= *)
(** ** Cells, rows, Series and DataFrames *)

(** A cell holds a number or a string: the value, not its Python type.
    pandas stores a missing value as the float NaN, in float and in object
    columns alike. *)
Inductive cell : Type :=
| Num (x : float)
| Str (s : string).

Definition NaN : cell := Num PrimFloat.nan.

(** [pandas.isna] on one value. *)
Definition isna (c : cell) : bool :=
  match c with
  | Num x => PrimFloat.is_nan x
  | Str _ => false
  end.

Definition is_num (c : cell) : bool :=
  match c with
  | Num _ => true
  | Str _ => false
  end.

(** Column dtypes, the four [pd.read_csv] gives by default.  The dtype
    decides what an operation on the column does; the cells carry the
    values.  An integer of an [Int64] column is carried as the binary64
    value equal to it and the booleans of a [Boolean] column as 1 and 0.
    The frames of this model hold integers of magnitude up to [2^52] (see
    [fits]), on which the differences and quotients taken in int64 and in
    binary64 are the same numbers; larger integers are outside the model. *)
Inductive dtype : Type := Float64 | Int64 | Boolean | Object.

Definition dtype_eqb (a b : dtype) : bool :=
  match a, b with
  | Float64, Float64 | Int64, Int64 | Boolean, Boolean | Object, Object => true
  | _, _ => false
  end.

(** A Python scalar with the dtype an array of it has: [0.5] is
    [(Float64, Num 0.5)], [0] is [(Int64, Num 0)]. *)
Definition scalar : Type := dtype * cell.

(** The dtype of a column once a missing value has to be stored in it. *)
Definition na_dtype (d : dtype) : dtype :=
  match d with
  | Int64 => Float64
  | Boolean => Object
  | d => d
  end.

Definition label := Z.

(** Association lists keyed by column name; the order of the keys is the
    column order. *)
Section Assoc.
Context {A : Type}.

Fixpoint assoc_get (k : string) (l : list (string * A)) : option A :=
  match l with
  | [] => None
  | (k', v) :: t => if String.eqb k k' then Some v else assoc_get k t
  end.

(** Assignment: overwrite the entry in place, or append a new one. *)
Fixpoint assoc_set (k : string) (v : A) (l : list (string * A))
  : list (string * A) :=
  match l with
  | [] => [(k, v)]
  | (k', v') :: t =>
      if String.eqb k k' then (k, v) :: t else (k', v') :: assoc_set k v t
  end.

Definition has_key (k : string) (l : list (string * A)) : bool :=
  existsb (fun kv => String.eqb k (fst kv)) l.

End Assoc.

Definition row := list (string * cell).

(** The value of a row in a column (NaN for a column the row lacks). *)
Definition cell_of (r : row) (c : string) : cell :=
  match assoc_get c r with
  | Some v => v
  | None => NaN
  end.

(** A Series: index labels with their values. *)
Definition Series := list (label * cell).

Record DataFrame : Type := mkDataFrame {
  columns : list (string * dtype);
  rows : list (label * row)
}.

Definition names (df : DataFrame) : list string := map fst (columns df).
Definition index (df : DataFrame) : list label := map fst (rows df).
Definition shape (df : DataFrame) : nat * nat :=
  (length (rows df), length (columns df)).
Definition has_column (df : DataFrame) (c : string) : bool :=
  has_key c (columns df).

(** [Index.equals]. *)
Fixpoint index_equals (a b : list label) : bool :=
  match a, b with
  | [], [] => true
  | x :: a', y :: b' => Z.eqb x y && index_equals a' b'
  | _, _ => false
  end.

Fixpoint find_label {A : Type} (i : label) (l : list (label * A)) : option A :=
  match l with
  | [] => None
  | (j, v) :: t => if Z.eqb i j then Some v else find_label i t
  end.

Fixpoint unique_labels (l : list label) : bool :=
  match l with
  | [] => true
  | i :: t => negb (existsb (Z.eqb i) t) && unique_labels t
  end.

(** *** Column access *)

(** The column of a frame computed row by row by [phi]; every Series the
    notebook builds has this form. *)
Definition column_by (phi : row -> cell) (rs : list (label * row)) : Series :=
  map (fun ir => (fst ir, phi (snd ir))) rs.

(** [df[c]]. *)
Definition getitem (df : DataFrame) (c : string) : result Series :=
  if has_column df c
  then Ok (column_by (fun r => cell_of r c) (rows df))
  else Raise (KeyError c).

Definition dtype_of (df : DataFrame) (c : string) : dtype :=
  match assoc_get c (columns df) with
  | Some d => d
  | None => Float64
  end.

(** [df[c]] with its dtype. *)
Definition getitem_typed (df : DataFrame) (c : string)
  : result (dtype * Series) :=
  s <- getitem df c ;;
  Ok (dtype_of df c, s).

Fixpoint first_missing (df : DataFrame) (cs : list string) : option string :=
  match cs with
  | [] => None
  | c :: t => if has_column df c then first_missing df t else Some c
  end.

(** [df[cs]] for a list of column names: a new frame with these columns in
    the order asked for, on the same index. *)
Definition getitems (df : DataFrame) (cs : list string) : result DataFrame :=
  match first_missing df cs with
  | Some c => Raise (KeyError c)
  | None =>
      Ok {| columns := map (fun c => (c, dtype_of df c)) cs;
            rows := map (fun ir =>
                           (fst ir, map (fun c => (c, cell_of (snd ir) c)) cs))
                        (rows df) |}
  end.

(** *** Column assignment *)

(** [df[c] = v] for a scalar [v]: broadcast to every row. *)
Definition setitem_scalar (df : DataFrame) (c : string) (v : scalar) : DataFrame :=
  {| columns := assoc_set c (fst v) (columns df);
     rows := map (fun ir => (fst ir, assoc_set c (snd v) (snd ir))) (rows df) |}.

Fixpoint set_positional (c : string) (rs : list (label * row)) (vals : list cell)
  : list (label * row) :=
  match rs, vals with
  | (i, r) :: rs', v :: vals' => (i, assoc_set c v r) :: set_positional c rs' vals'
  | _, _ => []
  end.

(** [df[c] = values] for an array of dtype [d]: positional, and the length
    must match. *)
Definition setitem_values (df : DataFrame) (c : string) (d : dtype)
  (vals : list cell) : result DataFrame :=
  if Nat.eqb (length vals) (length (rows df))
  then Ok {| columns := assoc_set c d (columns df);
             rows := set_positional c (rows df) vals |}
  else Raise ValueError.

(** [df[c] = s] for a Series of dtype [d]: the values are taken as they are
    when the two indexes are equal, and looked up by label (NaN where
    absent) otherwise; the lookup needs the Series' labels to be unique. *)
Definition setitem_series (df : DataFrame) (c : string) (ts : dtype * Series)
  : result DataFrame :=
  let (d, s) := ts in
  if index_equals (map fst s) (index df)
  then Ok {| columns := assoc_set c d (columns df);
             rows := set_positional c (rows df) (map snd s) |}
  else if unique_labels (map fst s)
  then
    let at_label i := match find_label i s with Some v => v | None => NaN end in
    let complete :=
      forallb (fun ir => match find_label (fst ir) s with
                         | Some _ => true
                         | None => false
                         end) (rows df) in
    Ok {| columns := assoc_set c (if complete then d else na_dtype d)
                               (columns df);
          rows := map (fun ir => (fst ir, assoc_set c (at_label (fst ir)) (snd ir)))
                      (rows df) |}
  else Raise ValueError.

(** *** Series arithmetic *)

Inductive binop : Type := Sub | Div.

Definition float_op (op : binop) : float -> float -> float :=
  match op with
  | Sub => PrimFloat.sub
  | Div => PrimFloat.div
  end.

(** numpy's arithmetic on two elements of numeric arrays: binary64, and a
    division by zero gives an infinity or NaN without raising.  (A numeric
    column holds numbers, see [fits]; the other case does not arise.) *)
Definition cell_arith (op : float -> float -> float) (a b : cell) : result cell :=
  match a, b with
  | Num x, Num y => Ok (Num (op x y))
  | _, _ => Raise TypeError
  end.

(** Python's arithmetic on two elements of object arrays: [-] and [/] are
    not defined on a string, and [/] raises on a zero divisor. *)
Definition py_arith (op : binop) (a b : cell) : result cell :=
  match a, b with
  | Num x, Num y =>
      match op with
      | Sub => Ok (Num (x - y))
      | Div => if PrimFloat.eqb y 0 then Raise ZeroDivisionError
               else Ok (Num (x / y))
      end
  | _, _ => Raise TypeError
  end.

Fixpoint series_zip (f : cell -> cell -> result cell) (a b : Series)
  : result Series :=
  match a, b with
  | (i, x) :: a', (_, y) :: b' =>
      v <- f x y ;;
      t <- series_zip f a' b' ;;
      Ok ((i, v) :: t)
  | _, _ => Ok []
  end.

(** The same on the pairs without a missing value only, NaN elsewhere. *)
Fixpoint series_zip_masked (f : cell -> cell -> result cell) (a b : Series)
  : result Series :=
  match a, b with
  | (i, x) :: a', (_, y) :: b' =>
      v <- (if negb (isna x) && negb (isna y) then f x y else Ok NaN) ;;
      t <- series_zip_masked f a' b' ;;
      Ok ((i, v) :: t)
  | _, _ => Ok []
  end.

(** pandas on object arrays: the operation element by element, in order;
    when that raises [TypeError] it is done again on the pairs without a
    missing value only.  Any other exception is raised as it is. *)
Definition object_arith (op : binop) (a b : Series) : result Series :=
  match series_zip (py_arith op) a b with
  | Raise TypeError => series_zip_masked (py_arith op) a b
  | r => r
  end.

(** The dtype of the result, decided before any element is touched: object
    with an object operand; no [-] and no [/] between two boolean arrays
    (numpy refuses the first, pandas the second); a float for [/] and
    whenever an operand is a float; an integer otherwise. *)
Definition arith_dtype (op : binop) (a b : dtype) : result dtype :=
  match a, b with
  | Object, _ | _, Object => Ok Object
  | Boolean, Boolean =>
      Raise (match op with Sub => TypeError | Div => NotImplementedError end)
  | _, _ =>
      Ok (match op with
          | Div => Float64
          | Sub => match a, b with
                   | Float64, _ | _, Float64 => Float64
                   | _, _ => Int64
                   end
          end)
  end.

(** A binary operator on two Series: elementwise when the indexes are
    equal. *)
Definition series_arith (op : binop) (a b : dtype * Series)
  : result (dtype * Series) :=
  if index_equals (map fst (snd a)) (map fst (snd b))
  then
    d <- arith_dtype op (fst a) (fst b) ;;
    s <- match d with
         | Object => object_arith op (snd a) (snd b)
         | _ => series_zip (cell_arith (float_op op)) (snd a) (snd b)
         end ;;
    Ok (d, s)
  else Raise Unaligned.

Definition series_sub : dtype * Series -> dtype * Series -> result (dtype * Series) :=
  series_arith Sub.
Definition series_div : dtype * Series -> dtype * Series -> result (dtype * Series) :=
  series_arith Div.

(** [s.apply(f)] for an [f] that returns Python ints: an int64 Series, and
    on an empty Series an empty one of the dtype it had. *)
Definition series_apply (f : cell -> cell) (ts : dtype * Series)
  : dtype * Series :=
  (match snd ts with [] => fst ts | _ => Int64 end,
   map (fun iv => (fst iv, f (snd iv))) (snd ts)).


(* ================================================================= *)
(** ** pandas operations the notebook calls *)

Definition row_has_na (r : row) : bool :=
  existsb (fun kv => isna (snd kv)) r.

(** [df.isna().any(axis=1)]. *)
Definition isna_any (df : DataFrame) : list (label * bool) :=
  map (fun ir => (fst ir, row_has_na (snd ir))) (rows df).

(** [df.dropna(axis=0)]: the rows without a missing value, under their old
    labels and in their old order. *)
Definition dropna (df : DataFrame) : DataFrame :=
  {| columns := columns df;
     rows := filter (fun ir => negb (row_has_na (snd ir))) (rows df) |}.

(** [df.copy()]: values are immutable here, a copy is the frame itself. *)
Definition copy (df : DataFrame) : DataFrame := df.

Definition range_index (n : nat) : list label := map Z.of_nat (seq 0 n).

(** The common dtype of the pieces of a column: integers join floats as
    floats, anything else that differs becomes object. *)
Definition join_dtype (a b : dtype) : dtype :=
  match a, b with
  | Float64, Float64 | Float64, Int64 | Int64, Float64 => Float64
  | Int64, Int64 => Int64
  | Boolean, Boolean => Boolean
  | _, _ => Object
  end.

Fixpoint add_column (c : string) (d : dtype) (acc : list (string * dtype))
  : list (string * dtype) :=
  match acc with
  | [] => [(c, d)]
  | (c', d') :: t =>
      if String.eqb c c' then (c', join_dtype d' d) :: t
      else (c', d') :: add_column c d t
  end.

Definition joined_columns (dfs : list DataFrame) : list (string * dtype) :=
  fold_left
    (fun acc df => fold_left (fun acc cd => add_column (fst cd) (snd cd) acc)
                             (columns df) acc)
    dfs [].

(** The columns of the concatenation: the union in order of first
    appearance, each with the common dtype of its pieces; a column that a
    frame lacks is filled with NaN there and has a dtype that can hold it. *)
Definition concat_columns (dfs : list DataFrame) : list (string * dtype) :=
  map (fun cd =>
         (fst cd,
          if forallb (fun df => has_column df (fst cd)) dfs then snd cd
          else na_dtype (snd cd)))
      (joined_columns dfs).

Definition project (cols : list string) (r : row) : row :=
  map (fun c => (c, cell_of r c)) cols.

(** [pd.concat(dfs, ignore_index=True)]: the union of the columns in order
    of first appearance, the rows of each frame in turn (NaN in the columns
    a frame lacks), relabelled 0, 1, 2, ... *)
Definition concat (dfs : list DataFrame) : DataFrame :=
  let cols := concat_columns dfs in
  let rs := flat_map (fun df => map (fun ir => project (map fst cols) (snd ir))
                                    (rows df)) dfs in
  {| columns := cols;
     rows := combine (range_index (length rs)) rs |}.

(** *** One-hot encoding *)

(** Insertion into a sorted list without duplicates (code-point order). *)
Fixpoint insert_level (s : string) (l : list string) : list string :=
  match l with
  | [] => [s]
  | h :: t =>
      if String.eqb s h then l
      else if String.ltb s h then s :: l
      else h :: insert_level s t
  end.

(** The categories of a column: its distinct strings, sorted; missing values
    are no category.  An object column holds strings and missing values
    (see [fits]), as the object columns [pd.read_csv] makes do; a number in
    an object column, of which pandas makes a category as well, is outside
    the model. *)
Definition levels_of (c : string) (rs : list (label * row)) : list string :=
  fold_right (fun ir acc => match cell_of (snd ir) c with
                            | Str s => insert_level s acc
                            | Num _ => acc
                            end) [] rs.

Definition dummy_name (prefix level : string) : string :=
  (prefix ++ "_" ++ level)%string.

Definition indicator (v : cell) (level : string) : cell :=
  match v with
  | Str s => if String.eqb s level then Num 1 else Num 0
  | Num _ => Num 0
  end.

Definition is_object (cd : string * dtype) : bool := dtype_eqb (snd cd) Object.

(** [pd.get_dummies(df, drop_first=True)]: the non-object columns first, in
    their order, then for each object column one indicator column per
    category but the first.  (The indicators are booleans from pandas 2.0
    on and 8-bit integers before; they are 1 and 0 here either way.) *)
Definition get_dummies (df : DataFrame) : DataFrame :=
  let keep := filter (fun cd => negb (is_object cd)) (columns df) in
  let enc := map (fun cd => (fst cd, tl (levels_of (fst cd) (rows df))))
                 (filter is_object (columns df)) in
  {| columns :=
       keep ++ flat_map (fun cl => map (fun l => (dummy_name (fst cl) l, Boolean))
                                       (snd cl)) enc;
     rows :=
       map (fun ir =>
              (fst ir,
               project (map fst keep) (snd ir)
               ++ flat_map (fun cl =>
                              map (fun l => (dummy_name (fst cl) l,
                                             indicator (cell_of (snd ir) (fst cl)) l))
                                  (snd cl)) enc))
           (rows df) |}.

Fixpoint names_equal (a b : list string) : bool :=
  match a, b with
  | [], [] => true
  | x :: a', y :: b' => String.eqb x y && names_equal a' b'
  | _, _ => false
  end.

Fixpoint unique_names (l : list string) : bool :=
  match l with
  | [] => true
  | c :: t => negb (existsb (String.eqb c) t) && unique_names t
  end.

(** [df.reindex(columns=target, fill_value=fill)]: the frame as it is when
    the target is its own list of columns; otherwise exactly the target
    columns, in the target's order, where a target column the frame lacks
    is filled and a column of the frame outside the target is dropped, and
    pandas refuses a frame whose column labels repeat. *)
Definition reindex_columns (df : DataFrame) (target : list string) (fill : scalar)
  : result DataFrame :=
  if names_equal target (names df) then Ok df
  else if unique_names (names df)
  then Ok {| columns :=
               map (fun c => (c, if has_column df c then dtype_of df c
                                 else fst fill)) target;
             rows :=
               map (fun ir =>
                      (fst ir,
                       map (fun c => (c, if has_column df c then cell_of (snd ir) c
                                         else snd fill)) target))
                   (rows df) |}
  else Raise ValueError.

(** *** Merging back by label *)

(** [self.update(other)], in place in Python: [other] is reindexed to
    [self]'s index (its labels must be unique), and in every column the two
    share each non-missing value of [other] overwrites [self]'s.  Columns and
    rows that only [other] has are ignored. *)
Definition update (self other : DataFrame) : result DataFrame :=
  if unique_labels (index other)
  then Ok {| columns := columns self;
             rows :=
               map (fun ir =>
                      match find_label (fst ir) (rows other) with
                      | None => ir
                      | Some r' =>
                          (fst ir,
                           map (fun kv =>
                                  (fst kv,
                                   if has_column other (fst kv)
                                   then (if isna (cell_of r' (fst kv)) then snd kv
                                         else cell_of r' (fst kv))
                                   else snd kv))
                               (snd ir))
                      end)
                   (rows self) |}
  else Raise ValueError.

(** *** Output *)

Record csv : Type := mkCsv {
  header : list string;
  records : list (list cell)
}.

(** [df.values]: the cells row by row, in column order. *)
Definition values (df : DataFrame) : list (list cell) :=
  map (fun ir => map (cell_of (snd ir)) (names df)) (rows df).

(** [df.to_csv(path, index=False)]: the header and the rows, without the
    index. *)
Definition to_csv (df : DataFrame) : csv :=
  {| header := names df; records := values df |}.

(** Reading a written file back by row number and column name. *)
Definition csv_field (f : csv) (k : nat) (c : string) : option cell :=
  match nth_error (records f) k with
  | Some r => assoc_get c (combine (header f) r)
  | None => None
  end.

(** A cell fits its column: a number or NaN in a float column, an integer
    of magnitude up to [2^52] in an integer column, 1 or 0 in a boolean
    column, a string or a missing value in an object column. *)
Definition fits (d : dtype) (c : cell) : bool :=
  match d, c with
  | Float64, Num _ => true
  | Int64, Num x =>
      match F64.to_int x with
      | Some z => (Z.abs z <=? 2 ^ 52)%Z
      | None => false
      end
  | Boolean, Num x => PrimFloat.eqb x 0 || PrimFloat.eqb x 1
  | Object, Num x => PrimFloat.is_nan x
  | Object, Str _ => true
  | _, Str _ => false
  end.

(** What [pd.read_csv] returns: a RangeIndex, distinct column names, every
    row keyed by the columns, every cell fitting its column. *)
Definition is_csv_frame (df : DataFrame) : bool :=
  index_equals (index df) (range_index (length (rows df)))
  && unique_names (names df)
  && forallb (fun ir => names_equal (map fst (snd ir)) (names df))
             (rows df)
  && forallb (fun ir => forallb (fun cd => fits (snd cd) (cell_of (snd ir) (fst cd)))
                                (columns df))
             (rows df).

(* ================================================================= *)
(** ** The libraries behind the notebook *)

Definition matrix := list (list cell).
Definition params := list (string * Z).

(** scikit-learn, statsmodels and numpy's generator, as far as the notebook
    calls them.  The generator state is explicit: an estimator built without
    [random_state] draws from numpy's global generator, whose state differs
    from run to run.  A call that validates its input has two parts: what
    it raises on an input it refuses ([..._raises], [None] when it accepts
    the input; the refusal depends on the data, not on the generator) and
    what it returns on an input it accepts. *)
Record Library : Type := mkLibrary {
  rng_state : Type;
  (** [numpy.random.RandomState(seed)] *)
  RandomState : Z -> rng_state;
  (** [rng.permutation(n)] *)
  permutation : rng_state -> nat -> list nat;
  estimator : Type;
  (** [RandomForestClassifier().set_params(...).fit(X, y)], drawing from
      the global generator *)
  fit_raises : params -> matrix -> list cell -> option exn;
  fit : params -> rng_state -> matrix -> list cell -> estimator * rng_state;
  (** scoring the candidates over [cv] stratified folds: what the search
      raises once all of them are scored (when every fit failed), and the
      mean [scoring] of one candidate (NaN for a fit or a score that
      failed) *)
  search_raises :
    nat -> string -> list params -> matrix -> list cell -> option exn;
  cross_val_mean :
    nat -> string -> params -> rng_state -> matrix -> list cell
    -> float * rng_state;
  (** what [predict(X)] and [predict_proba(X)] raise on the samples [X] *)
  predict_raises : matrix -> option exn;
  (** the probability of the second class for one sample, from an
      estimator fitted on two classes *)
  predict_proba1 : estimator -> list cell -> float;
  (** [predict(X)] for one sample *)
  predict1 : estimator -> list cell -> cell;
  roc_auc_raises : list cell -> option exn;
  roc_auc_score : list cell -> list float -> float;
  accuracy_score : list cell -> list cell -> float;
  confusion_matrix : list cell -> list cell -> list (list nat);
  classification_report : list cell -> list cell -> string;
  (** [statsmodels.tools.add_constant] *)
  add_constant : DataFrame -> DataFrame
}.

(** [statsmodels...variance_inflation_factor(exog, i)]. *)
Definition vif_function := matrix -> nat -> float.

Definition raise_if (e : option exn) : result unit :=
  match e with
  | Some e => Raise e
  | None => Ok tt
  end.

(** What the library promises and the proofs rely on. *)
Definition permutation_ok (L : Library) : Prop :=
  forall g n, Permutation (permutation L g n) (seq 0 n).

Definition proba_in_unit (L : Library) : Prop :=
  forall m x, F64.in_unit (predict_proba1 L m x) = true.

(** *** train_test_split *)

(** [check_random_state]: a seed makes a generator of its own, [None] is the
    global one. *)
Definition check_random_state (L : Library) (random_state : option Z)
  (global : rng_state L) : rng_state L :=
  match random_state with
  | Some seed => RandomState L seed
  | None => global
  end.

(** Positional selection.  An index out of range raises in Python; a
    permutation of [range(n)] has none. *)
Definition iloc {A : Type} (l : list A) (idx : list nat) : list A :=
  flat_map (fun k => match nth_error l k with
                     | Some x => [x]
                     | None => []
                     end) idx.

(** [_validate_shuffle_split] for a float [test_size] and no [train_size]:
    [n_test = ceil(test_size * n)], the rest trains, and an empty training
    set is refused. *)
Definition validate_shuffle_split (n : nat) (test_size : float)
  : result (nat * nat) :=
  if negb (PrimFloat.ltb 0 test_size && PrimFloat.ltb test_size 1)
  then Raise ValueError
  else
    match F64.ceil (test_size * F64.of_nat n) with
    | None => Raise ValueError
    | Some t =>
        let n_test := Z.to_nat t in
        let n_train := n - n_test in
        if Nat.eqb n_train 0 then Raise ValueError else Ok (n_train, n_test)
    end.

(** [train_test_split(X, y, test_size=..., random_state=...)]: one shuffle
    of the positions; the first [n_test] of them test, the next [n_train]
    train. *)
Definition train_test_split (L : Library) (X : DataFrame) (y : Series)
  (test_size : float) (random_state : option Z) (global : rng_state L)
  : result (DataFrame * DataFrame * Series * Series) :=
  let n_samples := length (rows X) in
  '(n_train, n_test) <- validate_shuffle_split n_samples test_size ;;
  let rng := check_random_state L random_state global in
  let perm := permutation L rng n_samples in
  let ind_test := firstn n_test perm in
  let ind_train := firstn n_train (skipn n_test perm) in
  Ok ({| columns := columns X; rows := iloc (rows X) ind_train |},
      {| columns := columns X; rows := iloc (rows X) ind_test |},
      iloc y ind_train,
      iloc y ind_test).

(** *** GridSearchCV *)

Fixpoint insert_item {A : Type} (kv : string * A) (l : list (string * A))
  : list (string * A) :=
  match l with
  | [] => [kv]
  | h :: t =>
      if String.leb (fst kv) (fst h) then kv :: l else h :: insert_item kv t
  end.

(** [sorted(param_grid.items())]. *)
Definition sorted_items {A : Type} (l : list (string * A)) : list (string * A) :=
  fold_right insert_item [] l.

(** [itertools.product] over the value lists: the first key varies
    slowest. *)
Fixpoint product (items : list (string * list Z)) : list params :=
  match items with
  | [] => [[]]
  | (k, vs) :: t =>
      flat_map (fun v => map (fun rest => (k, v) :: rest) (product t)) vs
  end.

(** [ParameterGrid(param_grid)], in its iteration order. *)
Definition ParameterGrid (param_grid : list (string * list Z)) : list params :=
  product (sorted_items param_grid).

(** [numpy.nanmin], [None] when every entry is NaN. *)
Definition nanmin (l : list float) : option float :=
  fold_left (fun acc x =>
               if PrimFloat.is_nan x then acc
               else match acc with
                    | None => Some x
                    | Some m => Some (if PrimFloat.ltb x m then x else m)
                    end) l None.

Definition no_nan (l : list float) : Prop :=
  forall x, In x l -> PrimFloat.is_nan x = false.

Fixpoint argmax_from (bi : nat) (b : float) (i : nat) (l : list float) : nat :=
  match l with
  | [] => bi
  | x :: t =>
      if PrimFloat.ltb b x then argmax_from i x (S i) t
      else argmax_from bi b (S i) t
  end.

(** [rank_test_score.argmin()]: failed (NaN) scores rank with the worst, the
    highest mean ranks first, and the first of the highest is taken. *)
Definition best_index (means : list float) : nat :=
  match nanmin means with
  | None => 0
  | Some lo =>
      match map (fun x => if PrimFloat.is_nan x then (lo - 1)%float else x) means with
      | [] => 0
      | x :: t => argmax_from 0 x 1 t
      end
  end.

(** Equality of two values of a target, and the classes of a target: its
    distinct values ([numpy.unique], here in order of appearance). *)
Definition cell_eqb (a b : cell) : bool :=
  match a, b with
  | Num x, Num y => PrimFloat.eqb x y
  | Str s, Str t => String.eqb s t
  | _, _ => false
  end.

Fixpoint classes (y : list cell) : list cell :=
  match y with
  | [] => []
  | c :: t => c :: filter (fun d => negb (cell_eqb c d)) (classes t)
  end.

Definition class_count (c : cell) (y : list cell) : nat :=
  length (filter (cell_eqb c) y).

(** [StratifiedKFold(n_splits).split(X, y)], the splitter an integer [cv]
    stands for with a classifier and a class target: it refuses a target
    in which no class has [n_splits] members, and so a target with fewer
    than [n_splits] samples. *)
Definition check_cv (n_splits : nat) (y : list cell) : result unit :=
  if forallb (fun c => class_count c y <? n_splits) y
  then Raise ValueError
  else Ok tt.

Record GridSearch (L : Library) : Type := mkGridSearch {
  cv_results_ : list (params * float);
  best_index_ : nat;
  best_params_ : params;
  best_score_ : float;
  best_estimator_ : estimator L;
  classes_ : list cell;
  rng_after : rng_state L
}.
Arguments classes_ {L} _.
Arguments cv_results_ {L} _.
Arguments best_index_ {L} _.
Arguments best_params_ {L} _.
Arguments best_score_ {L} _.
Arguments best_estimator_ {L} _.
Arguments rng_after {L} _.

Fixpoint evaluate_candidates (L : Library) (cv : nat) (scoring : string)
  (candidates : list params) (g : rng_state L) (X : matrix) (y : list cell)
  : list float * rng_state L :=
  match candidates with
  | [] => ([], g)
  | c :: t =>
      let (s, g1) := cross_val_mean L cv scoring c g X y in
      let (ss, g2) := evaluate_candidates L cv scoring t g1 X y in
      (s :: ss, g2)
  end.

(** [GridSearchCV(model, param_grid, cv=cv, scoring=scoring).fit(X, y)]:
    the folds are made, every candidate of the grid is scored, the best is
    refitted on all of [X]. *)
Definition GridSearchCV_fit (L : Library) (param_grid : list (string * list Z))
  (cv : nat) (scoring : string) (g : rng_state L) (X : matrix) (y : list cell)
  : result (GridSearch L) :=
  if existsb (fun kv => match snd kv with [] => true | _ => false end) param_grid
  then Raise ValueError
  else
    _ <- check_cv cv y ;;
    let candidates := ParameterGrid param_grid in
    _ <- raise_if (search_raises L cv scoring candidates X y) ;;
    let (means, g1) := evaluate_candidates L cv scoring candidates g X y in
    let i := best_index means in
    let best := nth i candidates [] in
    _ <- raise_if (fit_raises L best X y) ;;
    let (m, g2) := fit L best g1 X y in
    Ok {| cv_results_ := combine candidates means;
          best_index_ := i;
          best_params_ := best;
          best_score_ := nth i means PrimFloat.nan;
          best_estimator_ := m;
          classes_ := classes y;
          rng_after := g2 |}.

(* ================================================================= *)
(** ** The notebook *)

(** *** Constants of the notebook *)

Definition swing_events : list string :=
  ["foul"; "hit_into_play"; "swinging_strike"; "foul_tip";
   "foul_bunt"; "swinging_strike_blocked"; "missed_bunt"; "bunt_foul_tip";
   "foul_pitchout"]%string.

Definition features : list string :=
  ["release_speed"; "plate_x"; "stand"; "p_throws"; "pfx_x"; "pfx_z"; "balls";
   "strikes"; "pitch_type"; "relative_pitch_height"]%string.

(** [x in swing_events]: equality with one of the strings; a number (a
    missing description) equals none. *)
Definition py_in (x : cell) (l : list string) : bool :=
  match x with
  | Str s => existsb (String.eqb s) l
  | Num _ => false
  end.

(** [lambda x: 1 if x in swing_events else 0]. *)
Definition swing_label (x : cell) : cell :=
  if py_in x swing_events then Num 1 else Num 0.

(** [(df['plate_z'] - df['sz_bot']) / (df['sz_top'] - df['sz_bot'])]. *)
Definition relative_pitch_height (df : DataFrame) : result (dtype * Series) :=
  plate_z <- getitem_typed df "plate_z" ;;
  sz_bot <- getitem_typed df "sz_bot" ;;
  num <- series_sub plate_z sz_bot ;;
  sz_top <- getitem_typed df "sz_top" ;;
  sz_bot' <- getitem_typed df "sz_bot" ;;
  den <- series_sub sz_top sz_bot' ;;
  series_div num den.

(** The declared grid, and the grid that overwrites it on the next line. *)
Definition param_grid_declared : list (string * list Z) :=
  [("n_estimators"%string, [50; 100; 200; 300]%Z);
   ("max_depth"%string, [10; 15; 20; 25; 30]%Z)].

Definition param_grid_searched : list (string * list Z) :=
  [("n_estimators"%string, [300]%Z); ("max_depth"%string, [25]%Z)].

(** *** Cells *)

(** Load the data: seasons 1 and 2 make the training table. *)
Definition cell_load (data_season1 data_season2 : DataFrame) : DataFrame :=
  let data_train := concat [data_season1; data_season2] in
  let data_train := dropna data_train in
  data_train.

(** Season 3: the default probability goes in first, then the rows with a
    missing value are dropped from a working copy. *)
Definition cell_season3 (data_season3 : DataFrame)
  : list (label * bool) * DataFrame * DataFrame :=
  let nan_rows := isna_any data_season3 in
  let data_season3 :=
    setitem_scalar data_season3 "SwingProbability" (Float64, Num 0.5) in
  let data_season3_clean := copy (dropna data_season3) in
  (nan_rows, data_season3, data_season3_clean).

(** The label and the derived feature. *)
Definition cell_features (data_train data_season3_clean : DataFrame)
  : result (DataFrame * DataFrame) :=
  description <- getitem_typed data_train "description" ;;
  data_train <- setitem_series data_train "swing"
                  (series_apply swing_label description) ;;
  rph <- relative_pitch_height data_train ;;
  data_train <- setitem_series data_train "relative_pitch_height" rph ;;
  rph3 <- relative_pitch_height data_season3_clean ;;
  data_season3_clean <- setitem_series data_season3_clean
                          "relative_pitch_height" rph3 ;;
  Ok (data_train, data_season3_clean).

Record Encoded : Type := mkEncoded {
  enc_X_train : DataFrame;
  enc_X_val : DataFrame;
  enc_y_train : Series;
  enc_y_val : Series;
  enc_X_test : DataFrame
}.

(** One-hot encoding, column alignment, target, validation split.  The
    literal [0x1.999999999999ap-3] is the binary64 value of [0.2]. *)
Definition cell_encode (L : Library) (data_train data_season3_clean : DataFrame)
  (global : rng_state L) : result Encoded :=
  train_features <- getitems data_train features ;;
  let X_train := get_dummies train_features in
  test_features <- getitems data_season3_clean features ;;
  let X_test := get_dummies test_features in
  X_test <- reindex_columns X_test (names X_train) (Int64, Num 0) ;;
  y_train <- getitem data_train "swing" ;;
  '(X_train, X_val, y_train, y_val) <-
     train_test_split L X_train y_train 0x1.999999999999ap-3 (Some 21%Z) global ;;
  Ok {| enc_X_train := X_train; enc_X_val := X_val;
        enc_y_train := y_train; enc_y_val := y_val;
        enc_X_test := X_test |}.

(** [calculate_vifs(df)]: the argument is rebound to a frame with a constant
    column added, the caller's frame is untouched. *)
Definition calculate_vifs (L : Library) (variance_inflation_factor : vif_function)
  (df : DataFrame) : list (string * float) :=
  let df := add_constant L df in
  combine (names df)
          (map (fun i => variance_inflation_factor (values df) i)
               (seq 0 (snd (shape df)))).

(** Model training: the second assignment to [param_grid] is the one in
    force at the call. *)
Definition cell_train (L : Library) (X_train : DataFrame) (y_train : Series)
  (global : rng_state L) : result (GridSearch L) :=
  let param_grid := param_grid_declared in
  let param_grid := param_grid_searched in
  GridSearchCV_fit L param_grid 5 "roc_auc" global (values X_train)
                   (map snd y_train).

(** The validation of the samples before a prediction: scikit-learn
    refuses an array without rows, and whatever else the estimator
    refuses. *)
Definition check_samples (L : Library) (X : matrix) : result unit :=
  match X with
  | [] => Raise ValueError
  | _ => raise_if (predict_raises L X)
  end.

(** [model.predict_proba(X)[:, 1]] for a model fitted on the classes
    [fitted_classes]: the array has one column per class, and column 1 is
    out of bounds when there is one class. *)
Definition predict_proba (L : Library) (model : estimator L)
  (fitted_classes : list cell) (X : DataFrame) : result (list float) :=
  _ <- check_samples L (values X) ;;
  if length fitted_classes <? 2 then Raise IndexError
  else Ok (map (predict_proba1 L model) (values X)).

Definition predict (L : Library) (model : estimator L) (X : DataFrame)
  : result (list cell) :=
  _ <- check_samples L (values X) ;;
  Ok (map (predict1 L model) (values X)).

(** [roc_auc_score(y_true, y_score)]. *)
Definition roc_auc_of (L : Library) (y_true : list cell) (y_score : list float)
  : result float :=
  _ <- raise_if (roc_auc_raises L y_true) ;;
  Ok (roc_auc_score L y_true y_score).

(** Score season 3 with the model, merge into the full table, write it. *)
Definition cell_persist (L : Library) (best_model : estimator L)
  (fitted_classes : list cell)
  (X_test data_season3 data_season3_clean : DataFrame)
  : result (DataFrame * DataFrame * csv) :=
  proba <- predict_proba L best_model fitted_classes X_test ;;
  data_season3_clean <- setitem_values data_season3_clean "SwingProbability"
                          Float64 (map Num proba) ;;
  data_season3 <- update data_season3 data_season3_clean ;;
  Ok (data_season3_clean, data_season3, to_csv data_season3).

(** *** The run *)

Inductive output (L : Library) : Type :=
| Out_vif (v : list (string * float))
| Out_model (m : estimator L)
| Out_roc_auc (x : float)
| Out_accuracy (x : float)
| Out_report (s : string).
Arguments Out_vif {L} v.
Arguments Out_model {L} m.
Arguments Out_roc_auc {L} x.
Arguments Out_accuracy {L} x.
Arguments Out_report {L} s.

(** The variables of the notebook after the last cell, the two files it
    writes, and what it printed. *)
Record Namespace (L : Library) : Type := mkNamespace {
  nan_rows : list (label * bool);
  data_train : DataFrame;
  data_season3 : DataFrame;
  data_season3_clean : DataFrame;
  X_train : DataFrame;
  X_val : DataFrame;
  y_train : Series;
  y_val : Series;
  X_test : DataFrame;
  vif_data : option (list (string * float));
  grid_search : GridSearch L;
  best_model : estimator L;
  y_pred_proba : list float;
  y_pred : list cell;
  roc_auc : float;
  accuracy : float;
  conf_matrix : list (list nat);
  best_model_pkl : estimator L;
  validation_csv : csv;
  printed : list (output L)
}.
Arguments nan_rows {L} _.
Arguments data_train {L} _.
Arguments data_season3 {L} _.
Arguments data_season3_clean {L} _.
Arguments X_train {L} _.
Arguments X_val {L} _.
Arguments y_train {L} _.
Arguments y_val {L} _.
Arguments X_test {L} _.
Arguments vif_data {L} _.
Arguments grid_search {L} _.
Arguments best_model {L} _.
Arguments y_pred_proba {L} _.
Arguments y_pred {L} _.
Arguments roc_auc {L} _.
Arguments accuracy {L} _.
Arguments conf_matrix {L} _.
Arguments best_model_pkl {L} _.
Arguments validation_csv {L} _.
Arguments printed {L} _.

(** The cells in order.  [year1], [year2], [year3] are what [pd.read_csv]
    returns for the three files, [entropy] is the state of numpy's global
    generator when the run starts, and [vif] is the multicollinearity check:
    [None] when its cell is not run.  The plotting cells draw and bind names
    nothing reads afterwards; they are left out. *)
Definition notebook (L : Library) (year1 year2 year3 : DataFrame)
  (entropy : rng_state L) (vif : option vif_function) : result (Namespace L) :=
  let data_train := cell_load year1 year2 in
  let '(nan_rows, data_season3, data_season3_clean) := cell_season3 year3 in
  '(data_train, data_season3_clean) <-
     cell_features data_train data_season3_clean ;;
  enc <- cell_encode L data_train data_season3_clean entropy ;;
  let X_train := enc_X_train enc in
  let X_val := enc_X_val enc in
  let y_train := enc_y_train enc in
  let y_val := enc_y_val enc in
  let X_test := enc_X_test enc in
  let vif_data :=
    match vif with
    | Some variance_inflation_factor =>
        Some (calculate_vifs L variance_inflation_factor X_train)
    | None => None
    end in
  grid_search <- cell_train L X_train y_train entropy ;;
  let best_model := best_estimator_ grid_search in
  y_pred_proba <- predict_proba L best_model (classes_ grid_search) X_val ;;
  y_pred <- predict L best_model X_val ;;
  roc_auc <- roc_auc_of L (map snd y_val) y_pred_proba ;;
  let accuracy := accuracy_score L (map snd y_val) y_pred in
  let conf_matrix := confusion_matrix L (map snd y_val) y_pred in
  let report := classification_report L (map snd y_val) y_pred in
  '(data_season3_clean, data_season3, validation_csv) <-
     cell_persist L best_model (classes_ grid_search) X_test
                  data_season3 data_season3_clean ;;
  Ok {| nan_rows := nan_rows;
        data_train := data_train;
        data_season3 := data_season3;
        data_season3_clean := data_season3_clean;
        X_train := X_train;
        X_val := X_val;
        y_train := y_train;
        y_val := y_val;
        X_test := X_test;
        vif_data := vif_data;
        grid_search := grid_search;
        best_model := best_model;
        y_pred_proba := y_pred_proba;
        y_pred := y_pred;
        roc_auc := roc_auc;
        accuracy := accuracy;
        conf_matrix := conf_matrix;
        best_model_pkl := best_model;
        validation_csv := validation_csv;
        printed :=
          match vif_data with Some v => [Out_vif v] | None => [] end
          ++ [Out_model best_model; Out_roc_auc roc_auc;
              Out_accuracy accuracy; Out_report report] |}.

(** Everything a run leaves behind except the multicollinearity table and
    its print-out. *)
Definition is_vif_output {L : Library} (o : output L) : bool :=
  match o with
  | Out_vif _ => true
  | _ => false
  end.

Definition without_vif {L : Library} (ns : Namespace L) : Namespace L :=
  {| nan_rows := nan_rows ns;
     data_train := data_train ns;
     data_season3 := data_season3 ns;
     data_season3_clean := data_season3_clean ns;
     X_train := X_train ns;
     X_val := X_val ns;
     y_train := y_train ns;
     y_val := y_val ns;
     X_test := X_test ns;
     vif_data := None;
     grid_search := grid_search ns;
     best_model := best_model ns;
     y_pred_proba := y_pred_proba ns;
     y_pred := y_pred ns;
     roc_auc := roc_auc ns;
     accuracy := accuracy ns;
     conf_matrix := conf_matrix ns;
     best_model_pkl := best_model_pkl ns;
     validation_csv := validation_csv ns;
     printed := filter (fun o => negb (is_vif_output o)) (printed ns) |}.

Definition result_map {A B : Type} (f : A -> B) (r : result A) : result B :=
  match r with
  | Ok a => Ok (f a)
  | Raise e => Raise e
  end.

(* ================================================================= *)
(** ** Row-level readings used to state the properties *)

Definition num_of (c : cell) : float :=
  match c with
  | Num x => x
  | Str _ => PrimFloat.nan
  end.

(** The derived feature of one row. *)
Definition rph_of_row (r : row) : cell :=
  Num ((num_of (cell_of r "plate_z") - num_of (cell_of r "sz_bot"))
       / (num_of (cell_of r "sz_top") - num_of (cell_of r "sz_bot")))%float.

Definition label_row (r : row) : row :=
  assoc_set "swing" (swing_label (cell_of r "description")) r.

Definition feature_row (r : row) : row :=
  assoc_set "relative_pitch_height" (rph_of_row r) r.

Definition numeric_column (df : DataFrame) (c : string) : bool :=
  forallb (fun ir => is_num (cell_of (snd ir) c)) (rows df).

(** The three columns the derived feature reads exist, are float64 columns
    and hold numbers (NaN included). *)
Definition feature_inputs_ok (df : DataFrame) : bool :=
  forallb (fun c => has_column df c && dtype_eqb (dtype_of df c) Float64
                    && numeric_column df c)
          ["plate_z"; "sz_bot"; "sz_top"]%string.

(** A row carries the derived feature of its own three raw columns, and an
    infinity or NaN when the zone has no height. *)
Definition feature_exact (r : row) : Prop :=
  exists plate_z sz_bot sz_top : float,
    cell_of r "plate_z" = Num plate_z
    /\ cell_of r "sz_bot" = Num sz_bot
    /\ cell_of r "sz_top" = Num sz_top
    /\ cell_of r "relative_pitch_height"
       = Num ((plate_z - sz_bot) / (sz_top - sz_bot))%float
    /\ (PrimFloat.eqb sz_top sz_bot = true ->
        F64.is_inf ((plate_z - sz_bot) / (sz_top - sz_bot))%float = true
        \/ PrimFloat.is_nan ((plate_z - sz_bot) / (sz_top - sz_bot))%float = true).

(* ================================================================= *)
(** ** Sample data: three small seasons and a stand-in library *)

(** A frame as [pd.read_csv] builds it from a header and the parsed lines. *)
Definition frame_of_table (cols : list (string * dtype)) (lines : list (list cell))
  : DataFrame :=
  {| columns := cols;
     rows := combine (range_index (length lines))
                     (map (combine (map fst cols)) lines) |}.

Definition pitch_schema : list (string * dtype) :=
  [("release_speed", Float64); ("plate_x", Float64); ("stand", Object);
   ("p_throws", Object); ("pfx_x", Float64); ("pfx_z", Float64);
   ("balls", Int64); ("strikes", Int64); ("pitch_type", Object);
   ("plate_z", Float64); ("sz_top", Float64); ("sz_bot", Float64)]%string.

Definition pitch (speed plate_x : float) (stand p_throws : string)
  (balls strikes : float) (pitch_type : string) (plate_z sz_top sz_bot : float)
  : list cell :=
  [Num speed; Num plate_x; Str stand; Str p_throws; Num 0.5; Num 1.5;
   Num balls; Num strikes; Str pitch_type; Num plate_z; Num sz_top; Num sz_bot].

Definition training_schema : list (string * dtype) :=
  (pitch_schema ++ [("description"%string, Object)])%list.

Definition described (p : list cell) (description : string) : list cell :=
  (p ++ [Str description])%list.

Definition sample_year1 : DataFrame :=
  frame_of_table training_schema
    [described (pitch 95 0.25 "R" "R" 0 0 "FF" 2.5 3.5 1.5) "foul";
     described (pitch 85 (-0.5) "L" "R" 1 0 "SL" 1 3.5 1.5) "ball";
     described (pitch 90 0 "R" "L" 1 1 "CH" 2 3.5 1.5) "hit_into_play";
     described (pitch 91 PrimFloat.nan "R" "R" 0 0 "FF" 2.5 3.5 1.5) "ball";
     described (pitch 93 0.5 "R" "R" 0 1 "FF" 3 3.5 1.5) "swinging_strike";
     described (pitch 84 (-1) "L" "L" 2 1 "CU" 0.5 3.25 1.5) "ball";
     described (pitch 88 0.75 "L" "R" 1 2 "SL" 2.25 3.5 1.5) "foul_tip";
     described (pitch 97 1.25 "R" "R" 0 2 "FF" 4.5 3.5 1.5) "ball"]%string.

Definition sample_year2 : DataFrame :=
  frame_of_table training_schema
    [described (pitch 96 0.25 "L" "R" 0 2 "FF" 4 3.5 1.5) "swinging_strike";
     described (pitch 80 1.5 "R" "R" 3 2 "CU" 0.5 3.25 1.5) "called_strike";
     described (pitch 92 0 "R" "L" 1 1 "SI" 2 3.5 1.5) "Foul";
     described (pitch 89 (-0.25) "R" "R" 2 2 "CH" 2.5 3.5 1.5) "foul";
     described (pitch 94 0.5 "L" "R" 1 0 "FF" 3.25 3.5 1.5) "ball";
     described (pitch 86 0 "R" "L" 0 1 "SL" 1.75 3.25 1.5) "hit_into_play";
     described (pitch 91 (-0.75) "R" "R" 3 1 "SI" 1.5 3.5 1.5) "called_strike"]%string.

Definition sample_year3 : DataFrame :=
  frame_of_table pitch_schema
    [pitch 95 0.25 "R" "R" 0 0 "FF" 2.5 3.5 1.5;
     pitch 91 PrimFloat.nan "R" "R" 0 0 "FF" 2.5 3.5 1.5;
     pitch 85 0.25 "L" "R" 0 0 "KC" 5 3.5 1.5;
     pitch 88 0.25 "L" "L" 0 0 "SL" 1 3.5 1.5;
     pitch 90 0 "R" "R" 1 1 "CH" PrimFloat.nan 3.5 1.5;
     pitch 92 (-0.5) "R" "L" 2 2 "SI" 2 3.5 1.5]%string.

(** Pitches to a zone without height. *)
Definition sample_flat_zone : DataFrame :=
  frame_of_table pitch_schema
    [pitch 95 0.25 "R" "R" 0 0 "FF" 2.5 2 2;
     pitch 90 0.25 "R" "R" 0 0 "FF" 2 2 2;
     pitch 85 0.25 "L" "R" 0 0 "KC" 5 3.5 1.5]%string.

(** A stand-in for the libraries: it shuffles by reversing, remembers the
    parameters as the fitted model, scores a candidate by its depth alone,
    predicts from the release speed, refuses no training set and no
    samples, and has no ROC-AUC for a target with one class. *)
Definition sample_library : Library :=
  {| rng_state := nat;
     RandomState := Z.to_nat;
     permutation := fun g n => rev (seq 0 n);
     estimator := params;
     fit_raises := fun p X y => None;
     fit := fun p g X y => (p, S g);
     search_raises := fun cv scoring candidates X y => None;
     cross_val_mean := fun cv scoring p g X y =>
       (match assoc_get "max_depth" p with
        | Some 10%Z => 0.875%float
        | Some 25%Z => 0.75%float
        | _ => 0.5%float
        end, S g);
     predict_raises := fun X => None;
     predict_proba1 := fun m x =>
       match x with
       | Num s :: _ => if PrimFloat.ltb 90 s then 0.75%float else 0.25%float
       | _ => 0.5%float
       end;
     predict1 := fun m x =>
       match x with
       | Num s :: _ => if PrimFloat.ltb 90 s then Num 1 else Num 0
       | _ => Num 0
       end;
     roc_auc_raises := fun y =>
       if length (classes y) <? 2 then Some ValueError else None;
     roc_auc_score := fun y p => 0.5%float;
     accuracy_score := fun y p => 0.5%float;
     confusion_matrix := fun y p => [];
     classification_report := fun y p => EmptyString;
     add_constant := fun df =>
       {| columns := ("const"%string, Float64) :: columns df;
          rows := map (fun ir => (fst ir, ("const"%string, Num 1) :: snd ir))
                      (rows df) |} |}.

Definition sample_vif : vif_function := fun X i => 1%float.

(** A row [x] of the aligned scoring matrix against the row [e] of the
    encoded scoring data [E] it comes from: the same label, exactly the
    training columns in the training order, the encoded value where [E] has
    the column and 0 where it has not. *)
Definition aligned_row (training_columns : list string) (E : DataFrame)
  (e x : label * row) : Prop :=
  fst x = fst e
  /\ map fst (snd x) = training_columns
  /\ forall c, In c training_columns ->
       cell_of (snd x) c = if has_column E c then cell_of (snd e) c else Num 0.

(** The sample seasons after the feature cell and after the encoding cell. *)
Definition empty_frame : DataFrame := {| columns := []; rows := [] |}.

Definition sample_tables : DataFrame * DataFrame :=
  match cell_features (cell_load sample_year1 sample_year2)
                      (snd (cell_season3 sample_year3)) with
  | Ok p => p
  | Raise _ => (empty_frame, empty_frame)
  end.

Definition sample_encoded : Encoded :=
  match cell_encode sample_library (fst sample_tables) (snd sample_tables)
                    (0 : rng_state sample_library) with
  | Ok e => e
  | Raise _ => {| enc_X_train := empty_frame; enc_X_val := empty_frame;
                  enc_y_train := []; enc_y_val := [];
                  enc_X_test := empty_frame |}
  end.

(* ================================================================= *)
(** ** Statements about model selection *)

(** The candidate the search ends up with. *)
Definition searched_candidate : params :=
  [("max_depth"%string, 25%Z); ("n_estimators"%string, 300%Z)].

(** The mean cross-validated ROC-AUC of a candidate on the training data. *)
Definition mean_cv_auc (L : Library) (X : DataFrame) (y : Series)
  (g : rng_state L) (c : params) : float :=
  fst (cross_val_mean L 5 "roc_auc" c g (values X) (map snd y)).

(** Whether the training cell returns is decided by the data: by the folds,
    by the search and by the refit on the one candidate of the grid in
    force.  The state of the generator has no part in it. *)
Definition training_accepted (L : Library) (X : DataFrame) (y : Series) : Prop :=
  check_cv 5 (map snd y) = Ok tt
  /\ search_raises L 5 "roc_auc" [searched_candidate] (values X) (map snd y)
     = None
  /\ fit_raises L searched_candidate (values X) (map snd y) = None.

Fixpoint params_eqb (a b : params) : bool :=
  match a, b with
  | [], [] => true
  | (k, v) :: a', (k', v') :: b' =>
      String.eqb k k' && Z.eqb v v' && params_eqb a' b'
  | _, _ => false
  end.

(** Whether the search scored the candidate [c]. *)
Definition scored_by {L : Library} (gs : GridSearch L) (c : params) : bool :=
  existsb (params_eqb c) (map fst (cv_results_ gs)).

(** The four tables the validation split produces. *)
Definition split_of {L : Library} (ns : Namespace L)
  : DataFrame * DataFrame * Series * Series :=
  (X_train ns, X_val ns, y_train ns, y_val ns).

(** How [update] merges the row [r2] of the other frame, whose columns are
    [other_columns], into the row [r]. *)
Definition merge_row (other_columns : list (string * dtype)) (r2 r : row) : row :=
  map (fun kv =>
         (fst kv,
          if has_key (fst kv) other_columns
          then (if isna (cell_of r2 (fst kv)) then snd kv
                else cell_of r2 (fst kv))
          else snd kv))
      r.

Definition sample_run : result (Namespace sample_library) :=
  notebook sample_library sample_year1 sample_year2 sample_year3
           (0 : rng_state sample_library) (Some sample_vif).

(** A raw season-3 row after the default probability is put in. *)
Definition defaulted (r : row) : row :=
  assoc_set "SwingProbability" (Num 0.5) r.

(** The clean working row for a raw row, carrying the score [p]. *)
Definition scored (p : float) (r : row) : row :=
  assoc_set "SwingProbability" (Num p) (feature_row (defaulted r)).

(** The score the model gives to the scoring-matrix row [x]. *)
Definition score_of {L : Library} (ns : Namespace L) (x : row) : float :=
  predict_proba1 L (best_model ns) (map (cell_of x) (names (X_test ns))).

(* ================================================================= *)
(** ** Further readings of the cells *)

(** The columns the derived feature reads. *)
Definition zone_columns : list string := ["plate_z"; "sz_bot"; "sz_top"]%string.

(** Those of them the table has are float64 columns and hold numbers (NaN
    included). *)
Definition zone_columns_float (df : DataFrame) : bool :=
  forallb (fun c => negb (has_column df c)
                    || (dtype_eqb (dtype_of df c) Float64
                        && numeric_column df c))
          zone_columns.

(** Every other cell of a row is as it was. *)
Definition same_row_except (changed : list string) (a b : label * row) : Prop :=
  fst b = fst a
  /\ forall c, ~ In c changed -> cell_of (snd b) c = cell_of (snd a) c.

(** A training season with a single pitch, and an empty one. *)
Definition sample_short_year1 : DataFrame :=
  frame_of_table training_schema
    [described (pitch 95 0.25 "R" "R" 0 0 "FF" 2.5 3.5 1.5) "foul"]%string.

Definition sample_short_year2 : DataFrame :=
  frame_of_table training_schema [].

(** Columns of the tables that must not reach the model: the target, the
    text it is read from, the score column, and the raw zone columns that
    enter only through the derived feature. *)
Definition never_features : list string :=
  ["swing"; "description"; "SwingProbability"; "plate_z"; "sz_top";
   "sz_bot"]%string.

(** [p] followed by the separator, the start of every indicator name of the
    column [p]. *)
Definition dummy_prefix (p : string) : string := (p ++ "_")%string.

(** No indicator name of one column can be a column name or an indicator
    name of another column: no [p_] starts a name of the list, and no [p_]
    starts [q_] for another [q]. *)
Definition prefix_free (cols : list string) : bool :=
  forallb (fun p =>
             forallb (fun k =>
                        negb (String.prefix (dummy_prefix p) k)
                        && (String.eqb p k
                            || negb (String.prefix (dummy_prefix p)
                                                   (dummy_prefix k))))
                     cols)
          cols.

(** Code-point order on strings, the order of the categories. *)
Definition slt (a b : string) : Prop := String.ltb a b = true.



(* ================================================================= *)
(** * Properties *)

Lemma bind_Ok {A B : Type} (m : result A) (k : A -> result B) (b : B) :
  bind m k = Ok b -> exists a, m = Ok a /\ k a = Ok b.
Proof.
  destruct m as [a|e]; simpl; intros H; [eauto | discriminate].
Qed.

(* ================================================================= *)
(** ** Facts about binary64 values *)

Module F64Facts.
Import F64.

Lemma is_nan_spec (x : float) :
  PrimFloat.is_nan x = true <-> Prim2SF x = S754_nan.
Proof.
  unfold PrimFloat.is_nan. rewrite eqb_spec. unfold SFeqb.
  destruct (Prim2SF x) as [s|s| |s m e]; simpl.
  - split; discriminate.
  - destruct s; split; discriminate.
  - split; reflexivity.
  - assert (Hm : PosDef.Pos.compare_cont Eq m m = Eq).
    { change (Pos.compare m m = Eq). apply Pos.compare_refl. }
    rewrite Z.compare_refl, Hm. destruct s; split; discriminate.
Qed.

Lemma leb_not_nan_l (x y : float) :
  PrimFloat.leb x y = true -> PrimFloat.is_nan x = false.
Proof.
  intros H. destruct (PrimFloat.is_nan x) eqn:E; [|reflexivity].
  apply is_nan_spec in E. rewrite leb_spec, E in H. discriminate.
Qed.

Lemma leb_not_nan_r (x y : float) :
  PrimFloat.leb x y = true -> PrimFloat.is_nan y = false.
Proof.
  intros H. destruct (PrimFloat.is_nan y) eqn:E; [|reflexivity].
  apply is_nan_spec in E. rewrite leb_spec, E in H.
  unfold SFleb in H. destruct (Prim2SF x); discriminate.
Qed.

Lemma in_unit_not_nan (p : float) :
  in_unit p = true -> PrimFloat.is_nan p = false.
Proof.
  unfold in_unit. intros H. apply andb_prop in H as [H _].
  exact (leb_not_nan_r _ _ H).
Qed.

(** Equal operands (in the sense of [==]) subtract to a zero, or to NaN
    when they are the same infinity. *)
Lemma SFsub_eq (a b : spec_float) :
  SFeqb a b = true ->
  (exists s, SF64sub a b = S754_zero s) \/ SF64sub a b = S754_nan.
Proof.
  unfold SFeqb, SF64sub.
  destruct a as [sa|sa| |sa ma ea], b as [sb|sb| |sb mb eb]; simpl;
    try discriminate;
    try (destruct sa; discriminate); try (destruct sb; discriminate).
  - intros _. left. destruct sa, sb; eauto.
  - destruct sa, sb; try discriminate; intros _; right; reflexivity.
  - intros H.
    assert (Hs : sa = sb /\ ea = eb /\ ma = mb).
    { destruct sa, sb; try discriminate;
        destruct (Z.compare_spec ea eb) as [He|He|He]; try discriminate;
        change (PosDef.Pos.compare_cont Eq ma mb) with (Pos.compare ma mb) in H;
        destruct (Pos.compare_spec ma mb) as [Hm|Hm|Hm]; try discriminate;
        auto. }
    destruct Hs as (-> & -> & ->).
    left. exists false.
    change (IntDef.Z.min eb eb) with (Z.min eb eb).
    set (v := cond_Zopp sb (Z.pos (fst (shl_align mb eb (Z.min eb eb))))).
    replace (v - v)%Z with 0%Z by lia. reflexivity.
Qed.

Lemma SFdiv_zero (a : spec_float) (s : bool) :
  (exists s', SF64div a (S754_zero s) = S754_infinity s')
  \/ SF64div a (S754_zero s) = S754_nan.
Proof.
  unfold SF64div. destruct a as [sa|sa| |sa ma ea]; simpl; eauto.
Qed.

Lemma SFdiv_nan (a : spec_float) : SF64div a S754_nan = S754_nan.
Proof. unfold SF64div. destruct a; reflexivity. Qed.

Lemma is_inf_spec (x : float) (s : bool) :
  Prim2SF x = S754_infinity s -> is_inf x = true.
Proof.
  intros H. unfold is_inf, PrimFloat.is_infinity.
  rewrite eqb_spec, abs_spec, H. reflexivity.
Qed.

(** Dividing by the difference of two equal numbers gives an infinity or
    NaN, whatever the numerator. *)
Lemma div_by_zero_difference (n a b : float) :
  PrimFloat.eqb a b = true ->
  let q := (n / (a - b))%float in
  is_inf q = true \/ PrimFloat.is_nan q = true.
Proof.
  intros Hab q. rewrite eqb_spec in Hab.
  destruct (SFsub_eq _ _ Hab) as [[s Hs]|Hs].
  - destruct (SFdiv_zero (Prim2SF n) s) as [[s' Hd]|Hd].
    + left. apply (is_inf_spec _ s').
      unfold q. rewrite div_spec, sub_spec, Hs. exact Hd.
    + right. apply is_nan_spec.
      unfold q. rewrite div_spec, sub_spec, Hs. exact Hd.
  - right. apply is_nan_spec.
    unfold q. rewrite div_spec, sub_spec, Hs. apply SFdiv_nan.
Qed.

Lemma lex3_refl a : lex3 a a = Eq.
Proof.
  destruct a as [[a1 a2] a3]. unfold lex3. now rewrite !Z.compare_refl.
Qed.

Ltac lex3_cases :=
  unfold lex3;
  repeat match goal with
         | |- context [(?x ?= ?y)%Z] => destruct (Z.compare_spec x y)
         end;
  intros; try congruence; try lia.

Lemma lex3_total a b : lex3 a b <> Lt -> lex3 b a <> Gt.
Proof.
  destruct a as [[a1 a2] a3], b as [[b1 b2] b3]. lex3_cases.
Qed.

Lemma lex3_le_lt_trans a b c :
  lex3 a b <> Gt -> lex3 b c = Lt -> lex3 a c <> Gt.
Proof.
  destruct a as [[a1 a2] a3], b as [[b1 b2] b3], c as [[c1 c2] c3].
  lex3_cases.
Qed.

Lemma SFcompare_order_key a b :
  a <> S754_nan -> b <> S754_nan ->
  SFcompare a b = Some (lex3 (order_key a) (order_key b)).
Proof.
  intros Ha Hb.
  destruct a as [sa|sa| |sa ma ea], b as [sb|sb| |sb mb eb];
    try congruence; simpl;
    try (destruct sa; reflexivity); try (destruct sb; reflexivity);
    try (destruct sa, sb; reflexivity).
  change (PosDef.Pos.compare_cont Eq ma mb) with (Pos.compare ma mb).
  destruct sa, sb; simpl; try reflexivity.
  rewrite Z.compare_opp.
  destruct (Z.compare_spec ea eb) as [He|He|He].
  - subst. rewrite Z.compare_refl. reflexivity.
  - apply Z.compare_gt_iff in He. now rewrite He.
  - apply Z.compare_lt_iff in He. now rewrite He.
Qed.

Lemma not_nan_spec x : PrimFloat.is_nan x = false -> Prim2SF x <> S754_nan.
Proof.
  intros H E. apply is_nan_spec in E. congruence.
Qed.

Lemma leb_key x y :
  PrimFloat.is_nan x = false -> PrimFloat.is_nan y = false ->
  PrimFloat.leb x y = true
  <-> lex3 (order_key (Prim2SF x)) (order_key (Prim2SF y)) <> Gt.
Proof.
  intros Hx Hy. rewrite leb_spec. unfold SFleb.
  rewrite SFcompare_order_key by now apply not_nan_spec.
  destruct (lex3 _ _); split; congruence.
Qed.

Lemma ltb_key x y :
  PrimFloat.is_nan x = false -> PrimFloat.is_nan y = false ->
  PrimFloat.ltb x y = true
  <-> lex3 (order_key (Prim2SF x)) (order_key (Prim2SF y)) = Lt.
Proof.
  intros Hx Hy. rewrite ltb_spec. unfold SFltb.
  rewrite SFcompare_order_key by now apply not_nan_spec.
  destruct (lex3 _ _); split; congruence.
Qed.

Lemma ltb_not_nan (x y : float) :
  PrimFloat.ltb x y = true ->
  PrimFloat.is_nan x = false /\ PrimFloat.is_nan y = false.
Proof.
  intros H. rewrite ltb_spec in H. unfold SFltb in H. split.
  - destruct (PrimFloat.is_nan x) eqn:E; [|reflexivity].
    apply is_nan_spec in E. rewrite E in H. discriminate.
  - destruct (PrimFloat.is_nan y) eqn:E; [|reflexivity].
    apply is_nan_spec in E. rewrite E in H.
    destruct (Prim2SF x); discriminate.
Qed.

Lemma leb_refl x : PrimFloat.is_nan x = false -> PrimFloat.leb x x = true.
Proof.
  intros H. apply leb_key; [assumption..|]. rewrite lex3_refl. discriminate.
Qed.

Lemma leb_of_not_ltb b x :
  PrimFloat.is_nan b = false -> PrimFloat.is_nan x = false ->
  PrimFloat.ltb b x = false -> PrimFloat.leb x b = true.
Proof.
  intros Hb Hx H. apply leb_key; [assumption..|].
  apply lex3_total. intros E. apply ltb_key in E; [congruence|assumption..].
Qed.

Lemma leb_ltb_trans y b x :
  PrimFloat.leb y b = true -> PrimFloat.ltb b x = true ->
  PrimFloat.leb y x = true.
Proof.
  intros H1 H2.
  pose proof (leb_not_nan_l _ _ H1) as Hy.
  destruct (ltb_not_nan _ _ H2) as [Hb Hx].
  apply leb_key; [assumption..|].
  apply (lex3_le_lt_trans _ (order_key (Prim2SF b))).
  - now apply leb_key.
  - now apply ltb_key.
Qed.

End F64Facts.

(* ================================================================= *)
(** ** Facts about rows, columns and Series *)

Section AssocFacts.
Context {A : Type}.
Implicit Types (k : string) (v : A) (l : list (string * A)).

Lemma assoc_get_set_eq k v l : assoc_get k (assoc_set k v l) = Some v.
Proof.
  induction l as [|[k' v'] t IH]; simpl.
  - now rewrite String.eqb_refl.
  - destruct (String.eqb k k') eqn:E; simpl.
    + now rewrite String.eqb_refl.
    + now rewrite E.
Qed.

Lemma assoc_get_set_ne k k' v l :
  k' <> k -> assoc_get k' (assoc_set k v l) = assoc_get k' l.
Proof.
  intros Hne. induction l as [|[k0 v0] t IH]; simpl.
  - destruct (String.eqb k' k) eqn:E; [|reflexivity].
    apply String.eqb_eq in E. contradiction.
  - destruct (String.eqb k k0) eqn:E; simpl.
    + apply String.eqb_eq in E. subst k0.
      destruct (String.eqb k' k) eqn:E'; [|reflexivity].
      apply String.eqb_eq in E'. contradiction.
    + now rewrite IH.
Qed.

Lemma has_key_In k l : has_key k l = true <-> In k (map fst l).
Proof.
  unfold has_key. rewrite existsb_exists. split.
  - intros [[k' v] [Hin E]]. simpl in E. apply String.eqb_eq in E. subst.
    apply in_map_iff. now exists (k', v).
  - intros Hin. apply in_map_iff in Hin as [[k' v] [E Hin]]. simpl in E.
    subst. exists (k, v). split; [assumption|apply String.eqb_refl].
Qed.

Lemma assoc_get_has_key k l :
  has_key k l = true <-> exists v, assoc_get k l = Some v.
Proof.
  induction l as [|[k' v'] t IH]; simpl.
  - split; [discriminate|intros [v H]; discriminate].
  - destruct (String.eqb k k'); simpl; [|exact IH].
    split; eauto.
Qed.

(** Assignment keeps the key order; a new key goes last. *)
Lemma assoc_set_keys k v l :
  map fst (assoc_set k v l)
  = if has_key k l then map fst l else map fst l ++ [k].
Proof.
  induction l as [|[k' v'] t IH]; simpl; [reflexivity|].
  destruct (String.eqb k k') eqn:E; simpl.
  - apply String.eqb_eq in E. now subst.
  - rewrite IH. now destruct (has_key k t).
Qed.

End AssocFacts.

Lemma assoc_set_new {A : Type} k (v : A) l :
  has_key k l = false -> assoc_set k v l = l ++ [(k, v)].
Proof.
  induction l as [|[k' v'] t IH]; simpl; [reflexivity|].
  destruct (String.eqb k k'); simpl; [discriminate|].
  intros H. now rewrite IH.
Qed.

Lemma has_key_set {A : Type} k (v : A) l : has_key k (assoc_set k v l) = true.
Proof.
  apply assoc_get_has_key. exists v. apply assoc_get_set_eq.
Qed.

Lemma has_key_set_other {A : Type} k k' (v : A) l :
  has_key k' l = true -> has_key k' (assoc_set k v l) = true.
Proof.
  intros H. apply has_key_In. rewrite assoc_set_keys.
  apply has_key_In in H. destruct (has_key k l); [assumption|].
  apply in_or_app. now left.
Qed.

Lemma cell_of_set_eq c v r : cell_of (assoc_set c v r) c = v.
Proof. unfold cell_of. now rewrite assoc_get_set_eq. Qed.

Lemma cell_of_set_ne c c' v r :
  c' <> c -> cell_of (assoc_set c v r) c' = cell_of r c'.
Proof. intros H. unfold cell_of. now rewrite assoc_get_set_ne. Qed.

Lemma index_equals_refl a : index_equals a a = true.
Proof. induction a; simpl; [reflexivity|]. now rewrite Z.eqb_refl. Qed.

Lemma unique_labels_NoDup l : unique_labels l = true <-> NoDup l.
Proof.
  induction l as [|i t IH]; simpl.
  - split; [constructor|reflexivity].
  - rewrite andb_true_iff, negb_true_iff, IH. split.
    + intros [Hn Hd]. constructor; [|assumption].
      intros Hin. assert (existsb (Z.eqb i) t = true); [|congruence].
      apply existsb_exists. exists i. split; [assumption|apply Z.eqb_refl].
    + intros H. inversion H as [|? ? Hn Hd]; subst. split; [|assumption].
      destruct (existsb (Z.eqb i) t) eqn:E; [|reflexivity].
      apply existsb_exists in E as [j [Hin E]]. apply Z.eqb_eq in E.
      subst. contradiction.
Qed.

Lemma column_by_index phi rs : map fst (column_by phi rs) = map fst rs.
Proof. unfold column_by. rewrite map_map. reflexivity. Qed.

Lemma column_by_values phi rs :
  map snd (column_by phi rs) = map (fun ir => phi (snd ir)) rs.
Proof. unfold column_by. rewrite map_map. reflexivity. Qed.

Lemma series_apply_column_by f d phi rs :
  snd (series_apply f (d, column_by phi rs))
  = column_by (fun r => f (phi r)) rs.
Proof. unfold series_apply, column_by. simpl. rewrite map_map. reflexivity. Qed.

Lemma series_apply_typed f ts :
  series_apply f ts = (fst (series_apply f ts), snd (series_apply f ts)).
Proof. reflexivity. Qed.

Lemma series_zip_column_by f g h k rs :
  (forall i r, In (i, r) rs -> f (g r) (h r) = Ok (k r)) ->
  series_zip f (column_by g rs) (column_by h rs) = Ok (column_by k rs).
Proof.
  induction rs as [|[i r] t IH]; intros H; simpl; [reflexivity|].
  rewrite (H i r) by (left; reflexivity). simpl.
  rewrite IH by (intros j r' Hin; apply (H j r'); right; exact Hin).
  reflexivity.
Qed.

Lemma set_positional_column_by c phi rs :
  set_positional c rs (map (fun ir => phi (snd ir)) rs)
  = map (fun ir => (fst ir, assoc_set c (phi (snd ir)) (snd ir))) rs.
Proof.
  induction rs as [|[i r] t IH]; simpl; [reflexivity|]. now rewrite IH.
Qed.

Lemma setitem_series_column_by df c d phi :
  setitem_series df c (d, column_by phi (rows df))
  = Ok {| columns := assoc_set c d (columns df);
          rows := map (fun ir => (fst ir, assoc_set c (phi (snd ir)) (snd ir)))
                      (rows df) |}.
Proof.
  unfold setitem_series, index.
  rewrite column_by_index, index_equals_refl, column_by_values.
  now rewrite set_positional_column_by.
Qed.


Lemma getitem_Ok df c s :
  getitem df c = Ok s ->
  has_column df c = true /\ s = column_by (fun r => cell_of r c) (rows df).
Proof.
  unfold getitem. destruct (has_column df c); intros H; inversion H; auto.
Qed.

Lemma getitem_has df c :
  has_column df c = true ->
  getitem df c = Ok (column_by (fun r => cell_of r c) (rows df)).
Proof. unfold getitem. now intros ->. Qed.

Lemma getitem_raises df c e : getitem df c = Raise e -> e = KeyError c.
Proof.
  unfold getitem. destruct (has_column df c); intros H; inversion H; auto.
Qed.

Lemma getitem_typed_Ok df c ts :
  getitem_typed df c = Ok ts ->
  has_column df c = true
  /\ ts = (dtype_of df c, column_by (fun r => cell_of r c) (rows df)).
Proof.
  unfold getitem_typed. intros H. apply bind_Ok in H as (s & Hs & H).
  apply getitem_Ok in Hs as [Hc ->]. inversion H. auto.
Qed.

Lemma getitem_typed_has df c :
  has_column df c = true ->
  getitem_typed df c
  = Ok (dtype_of df c, column_by (fun r => cell_of r c) (rows df)).
Proof. intros H. unfold getitem_typed. now rewrite (getitem_has _ _ H). Qed.

Lemma getitem_typed_missing df c :
  has_column df c = false -> getitem_typed df c = Raise (KeyError c).
Proof. intros H. unfold getitem_typed, getitem. now rewrite H. Qed.

Lemma cell_arith_Ok op a b v :
  cell_arith op a b = Ok v ->
  is_num a = true /\ is_num b = true /\ v = Num (op (num_of a) (num_of b)).
Proof.
  destruct a, b; simpl; intros H; inversion H; auto.
Qed.

Lemma cell_arith_num op a b :
  is_num a = true -> is_num b = true ->
  cell_arith op a b = Ok (Num (op (num_of a) (num_of b))).
Proof. destruct a, b; simpl; intros; congruence. Qed.

(** An operation with a NaN operand gives NaN. *)
Lemma float_op_nan op (x y : float) :
  PrimFloat.is_nan x = true \/ PrimFloat.is_nan y = true ->
  float_op op x y = PrimFloat.nan.
Proof.
  intros H. apply Prim2SF_inj.
  change (Prim2SF PrimFloat.nan) with S754_nan.
  destruct op; simpl; rewrite ?sub_spec, ?div_spec;
    destruct H as [H|H]; apply F64Facts.is_nan_spec in H; rewrite H;
    try reflexivity; destruct (Prim2SF x); reflexivity.
Qed.

Lemma isna_num_of c : isna c = true -> PrimFloat.is_nan (num_of c) = true.
Proof. destruct c; simpl; [auto|discriminate]. Qed.

Lemma py_arith_Ok op a b v :
  py_arith op a b = Ok v -> v = Num (float_op op (num_of a) (num_of b)).
Proof.
  destruct a as [x|s], b as [y|t], op; simpl; intros H; try discriminate.
  - now inversion H.
  - destruct (PrimFloat.eqb y 0); [discriminate|]. now inversion H.
Qed.

(** Whatever way an elementwise operation on two columns of one frame
    takes, when it returns it has computed the binary64 result row by
    row. *)
Lemma series_zip_value op f g h rs s :
  (forall a b v, f a b = Ok v -> v = Num (float_op op (num_of a) (num_of b))) ->
  series_zip f (column_by g rs) (column_by h rs) = Ok s ->
  s = column_by (fun r => Num (float_op op (num_of (g r)) (num_of (h r)))) rs.
Proof.
  intros Hf. revert s. induction rs as [|[i r] t IH]; intros s H; simpl in *.
  - now inversion H.
  - apply bind_Ok in H as (v & Hv & H).
    apply bind_Ok in H as (t' & Ht & H). inversion H; subst s.
    rewrite (Hf _ _ _ Hv), (IH _ Ht). reflexivity.
Qed.

Lemma series_zip_masked_value op g h rs s :
  series_zip_masked (py_arith op) (column_by g rs) (column_by h rs) = Ok s ->
  s = column_by (fun r => Num (float_op op (num_of (g r)) (num_of (h r)))) rs.
Proof.
  revert s. induction rs as [|[i r] t IH]; intros s H; simpl in *.
  - now inversion H.
  - apply bind_Ok in H as (v & Hv & H).
    apply bind_Ok in H as (t' & Ht & H). inversion H; subst s.
    rewrite (IH _ Ht). f_equal. f_equal.
    destruct (isna (g r)) eqn:Eg; simpl in Hv.
    { inversion Hv. unfold NaN. f_equal. symmetry. apply float_op_nan.
      left. now apply isna_num_of. }
    destruct (isna (h r)) eqn:Eh; simpl in Hv.
    { inversion Hv. unfold NaN. f_equal. symmetry. apply float_op_nan.
      right. now apply isna_num_of. }
    now apply py_arith_Ok.
Qed.

Lemma object_arith_value op g h rs s :
  object_arith op (column_by g rs) (column_by h rs) = Ok s ->
  s = column_by (fun r => Num (float_op op (num_of (g r)) (num_of (h r)))) rs.
Proof.
  unfold object_arith.
  destruct (series_zip (py_arith op) (column_by g rs) (column_by h rs))
    as [s'|e] eqn:E.
  - intros H. inversion H; subst s'.
    eapply series_zip_value; [|exact E]. apply py_arith_Ok.
  - destruct e; try discriminate. apply series_zip_masked_value.
Qed.

Lemma series_arith_Ok op da db g h rs ts :
  series_arith op (da, column_by g rs) (db, column_by h rs) = Ok ts ->
  snd ts
  = column_by (fun r => Num (float_op op (num_of (g r)) (num_of (h r)))) rs.
Proof.
  unfold series_arith. cbn [fst snd].
  rewrite !column_by_index, index_equals_refl. intros H.
  apply bind_Ok in H as (d & Hd & H).
  apply bind_Ok in H as (s & Hs & H). inversion H; subst ts. cbn [snd].
  assert (Hnum : series_zip (cell_arith (float_op op))
                            (column_by g rs) (column_by h rs) = Ok s ->
                 s = column_by (fun r => Num (float_op op (num_of (g r))
                                                      (num_of (h r)))) rs).
  { apply series_zip_value. intros a b v Hv.
    now apply cell_arith_Ok in Hv as (_ & _ & ->). }
  destruct d; auto. now apply object_arith_value.
Qed.

(** On two float64 columns that hold numbers it returns, with a float64
    result. *)
Lemma series_arith_float op g h rs :
  (forall i r, In (i, r) rs -> is_num (g r) = true /\ is_num (h r) = true) ->
  series_arith op (Float64, column_by g rs) (Float64, column_by h rs)
  = Ok (Float64,
        column_by (fun r => Num (float_op op (num_of (g r)) (num_of (h r)))) rs).
Proof.
  intros H. unfold series_arith. cbn [fst snd].
  rewrite !column_by_index, index_equals_refl.
  assert (E : arith_dtype op Float64 Float64 = Ok Float64)
    by (destruct op; reflexivity).
  rewrite E. cbn [bind].
  rewrite (series_zip_column_by _ _ _
             (fun r => Num (float_op op (num_of (g r)) (num_of (h r))))).
  - reflexivity.
  - intros i r Hin. destruct (H i r Hin). now apply cell_arith_num.
Qed.

Lemma relative_pitch_height_Ok df ts :
  relative_pitch_height df = Ok ts ->
  snd ts = column_by rph_of_row (rows df).
Proof.
  unfold relative_pitch_height, series_sub, series_div. intros H.
  apply bind_Ok in H as (pz & Hpz & H).
  apply getitem_typed_Ok in Hpz as [_ ->].
  apply bind_Ok in H as (bot & Hbot & H).
  apply getitem_typed_Ok in Hbot as [_ ->].
  apply bind_Ok in H as ([dn num] & Hnum & H).
  apply series_arith_Ok in Hnum. cbn [snd] in Hnum. subst num.
  apply bind_Ok in H as (top & Htop & H).
  apply getitem_typed_Ok in Htop as [_ ->].
  apply bind_Ok in H as (bot' & Hbot' & H).
  apply getitem_typed_Ok in Hbot' as [_ ->].
  apply bind_Ok in H as ([dd den] & Hden & H).
  apply series_arith_Ok in Hden. cbn [snd] in Hden. subst den.
  apply series_arith_Ok in H. exact H.
Qed.

Lemma relative_pitch_height_typed df ts :
  relative_pitch_height df = Ok ts ->
  ts = (fst ts, column_by rph_of_row (rows df)).
Proof.
  intros H. apply relative_pitch_height_Ok in H. destruct ts as [d s].
  simpl in *. now subst.
Qed.

Lemma numeric_column_In df c i r :
  numeric_column df c = true -> In (i, r) (rows df) ->
  is_num (cell_of r c) = true.
Proof.
  unfold numeric_column. rewrite forallb_forall. intros H Hin.
  exact (H (i, r) Hin).
Qed.

Lemma dtype_eqb_eq a b : dtype_eqb a b = true <-> a = b.
Proof. destruct a, b; simpl; split; congruence. Qed.

Lemma feature_inputs_ok_spec df :
  feature_inputs_ok df = true ->
  (has_column df "plate_z" = true /\ dtype_of df "plate_z" = Float64
   /\ numeric_column df "plate_z" = true)
  /\ (has_column df "sz_bot" = true /\ dtype_of df "sz_bot" = Float64
      /\ numeric_column df "sz_bot" = true)
  /\ (has_column df "sz_top" = true /\ dtype_of df "sz_top" = Float64
      /\ numeric_column df "sz_top" = true).
Proof.
  unfold feature_inputs_ok. simpl. rewrite !andb_true_iff.
  rewrite !dtype_eqb_eq. tauto.
Qed.

Lemma dtype_of_set_ne df c c' d rs :
  c' <> c ->
  dtype_of {| columns := assoc_set c d (columns df); rows := rs |} c'
  = dtype_of df c'.
Proof.
  intros H. unfold dtype_of. cbn [columns]. now rewrite assoc_get_set_ne.
Qed.

(** With float64 zone columns the feature is computed, whatever the
    numbers: nothing is raised for a zone without height. *)
Lemma relative_pitch_height_total df :
  feature_inputs_ok df = true ->
  relative_pitch_height df = Ok (Float64, column_by rph_of_row (rows df)).
Proof.
  intros H. apply feature_inputs_ok_spec in H
    as ((Hz & Dz & Nz) & (Hb & Db & Nb) & (Ht & Dt & Nt)).
  unfold relative_pitch_height, series_sub, series_div.
  rewrite (getitem_typed_has _ _ Hz), (getitem_typed_has _ _ Hb).
  cbn [bind]. rewrite Dz, Db.
  rewrite series_arith_float
    by (intros i r Hin; split; eapply numeric_column_In; eauto).
  cbn [bind].
  rewrite (getitem_typed_has _ _ Ht). cbn [bind]. rewrite Dt.
  rewrite series_arith_float
    by (intros i r Hin; split; eapply numeric_column_In; eauto).
  cbn [bind].
  rewrite series_arith_float by (intros i r Hin; split; reflexivity).
  reflexivity.
Qed.

Lemma is_num_num_of c : is_num c = true -> c = Num (num_of c).
Proof. destruct c; simpl; [reflexivity|discriminate]. Qed.

Lemma swing_label_is_num x : is_num (swing_label x) = true.
Proof. unfold swing_label. now destruct (py_in x swing_events). Qed.

Ltac neq_string := apply String.eqb_neq; reflexivity.

Lemma feature_row_exact r :
  is_num (cell_of r "plate_z") = true ->
  is_num (cell_of r "sz_bot") = true ->
  is_num (cell_of r "sz_top") = true ->
  feature_exact (feature_row r).
Proof.
  intros Hz Hb Ht. unfold feature_exact, feature_row.
  exists (num_of (cell_of r "plate_z")), (num_of (cell_of r "sz_bot")),
         (num_of (cell_of r "sz_top")).
  rewrite !cell_of_set_ne by neq_string. rewrite cell_of_set_eq.
  repeat split; try (now apply is_num_num_of).
  intros E. now apply F64Facts.div_by_zero_difference.
Qed.

(** The feature cell, step by step. *)
Lemma cell_features_steps dt cl :
  cell_features dt cl
  = if has_column dt "description"
    then
      let dt1 :=
        {| columns :=
             assoc_set "swing"
               (match rows dt with
                | [] => dtype_of dt "description"
                | _ => Int64
                end) (columns dt);
           rows := map (fun ir => (fst ir, label_row (snd ir))) (rows dt) |} in
      rph <- relative_pitch_height dt1 ;;
      data_train <- setitem_series dt1 "relative_pitch_height" rph ;;
      rph3 <- relative_pitch_height cl ;;
      data_season3_clean <- setitem_series cl "relative_pitch_height" rph3 ;;
      Ok (data_train, data_season3_clean)
    else Raise (KeyError "description").
Proof.
  unfold cell_features.
  destruct (has_column dt "description") eqn:Hd.
  - rewrite (getitem_typed_has _ _ Hd). cbn [bind].
    rewrite series_apply_typed, series_apply_column_by.
    rewrite setitem_series_column_by. cbn [bind].
    unfold series_apply, column_by. cbn [fst snd].
    destruct (rows dt); reflexivity.
  - rewrite (getitem_typed_missing _ _ Hd). reflexivity.
Qed.

(** What the feature cell leaves in its two tables, whenever it runs
    through. *)
Lemma cell_features_Ok dt cl dt' cl' :
  cell_features dt cl = Ok (dt', cl') ->
  rows dt' = map (fun ir => (fst ir, feature_row (label_row (snd ir)))) (rows dt)
  /\ rows cl' = map (fun ir => (fst ir, feature_row (snd ir))) (rows cl)
  /\ (exists d0 d1,
        columns dt'
        = assoc_set "relative_pitch_height" d1
            (assoc_set "swing" d0 (columns dt)))
  /\ (exists d3, columns cl' = assoc_set "relative_pitch_height" d3 (columns cl))
  /\ has_column dt "description" = true.
Proof.
  rewrite cell_features_steps.
  destruct (has_column dt "description"); [|discriminate].
  cbv zeta. intros H.
  apply bind_Ok in H as (rph & Hrph & H).
  apply relative_pitch_height_typed in Hrph. rewrite Hrph in H.
  cbn [rows] in H.
  match type of H with
  | bind (setitem_series ?d1 _ (_, column_by _ ?rs)) _ = _ =>
      change rs with (rows d1) in H
  end.
  rewrite setitem_series_column_by in H. cbn [bind] in H.
  apply bind_Ok in H as (rph3 & Hrph3 & H).
  apply relative_pitch_height_typed in Hrph3. rewrite Hrph3 in H.
  rewrite setitem_series_column_by in H. cbn [bind] in H.
  inversion H; subst dt' cl'; clear H. cbn [rows columns].
  rewrite !map_map. cbn [fst snd].
  repeat split; eauto.
Qed.

Lemma Num_1_neq_0 : Num 1 <> Num 0.
Proof.
  intros H.
  apply (f_equal (fun c => PrimFloat.eqb (num_of c) 1)) in H.
  vm_compute in H. discriminate.
Qed.

Lemma py_in_spec x l :
  py_in x l = true <-> exists s, x = Str s /\ In s l.
Proof.
  destruct x as [f|s]; simpl.
  - split; [discriminate|]. intros (s & E & _). discriminate.
  - rewrite existsb_exists. split.
    + intros (s' & Hin & E). apply String.eqb_eq in E. subst. eauto.
    + intros (s' & E & Hin). inversion E; subst. exists s'. split; auto.
      apply String.eqb_refl.
Qed.

Lemma feature_row_other r c :
  c <> "relative_pitch_height"%string ->
  cell_of (feature_row r) c = cell_of r c.
Proof. intros H. unfold feature_row. now rewrite cell_of_set_ne. Qed.

Lemma label_row_other r c :
  c <> "swing"%string -> cell_of (label_row r) c = cell_of r c.
Proof. intros H. unfold label_row. now rewrite cell_of_set_ne. Qed.

Lemma label_row_swing r :
  cell_of (label_row r) "swing" = swing_label (cell_of r "description").
Proof. unfold label_row. now rewrite cell_of_set_eq. Qed.

Lemma feature_inputs_ok_set df c d (phi : row -> cell) :
  ~ In c ["plate_z"; "sz_bot"; "sz_top"]%string ->
  feature_inputs_ok df = true ->
  feature_inputs_ok
    {| columns := assoc_set c d (columns df);
       rows := map (fun ir => (fst ir, assoc_set c (phi (snd ir)) (snd ir)))
                   (rows df) |} = true.
Proof.
  intros Hc. unfold feature_inputs_ok. rewrite !forallb_forall.
  intros H x Hx. specialize (H x Hx).
  apply andb_true_iff in H as [Hh Hn]. apply andb_true_iff in Hh as [Hh Hd].
  rewrite !andb_true_iff. split; [split|].
  - unfold has_column in *. cbn [columns]. now apply has_key_set_other.
  - rewrite dtype_of_set_ne by (intros ->; contradiction). assumption.
  - unfold numeric_column in *. cbn [rows]. rewrite forallb_forall in *.
    intros ir Hir. apply in_map_iff in Hir as (ir0 & <- & Hin). cbn [snd].
    rewrite cell_of_set_ne by (intros ->; contradiction).
    now apply Hn.
Qed.

(** The feature cell runs through whenever the training table has a
    description and both tables have the three float64 zone columns. *)
Lemma cell_features_total dt cl :
  has_column dt "description" = true ->
  feature_inputs_ok dt = true ->
  feature_inputs_ok cl = true ->
  exists p, cell_features dt cl = Ok p.
Proof.
  intros Hd Hdt Hcl. rewrite cell_features_steps, Hd. cbv zeta.
  rewrite relative_pitch_height_total.
  2:{ apply (feature_inputs_ok_set dt "swing" _
                 (fun r => swing_label (cell_of r "description")));
        [|assumption].
      simpl. intuition discriminate. }
  cbn [bind rows].
  match goal with
  | |- context [setitem_series ?d1 _ (_, column_by _ ?rs)] =>
      change rs with (rows d1)
  end.
  rewrite setitem_series_column_by. cbn [bind].
  rewrite (relative_pitch_height_total _ Hcl). cbn [bind].
  rewrite setitem_series_column_by. cbn [bind].
  eexists. reflexivity.
Qed.

(* ================================================================= *)
(** * Main results *)

(** C2.  In the training table the feature cell leaves behind, every row's
    [swing] is 1 exactly when its [description] is one of the nine strings of
    [swing_events] (compared as strings, case and all), and 0 otherwise; the
    description "ball" is labelled 0, "foul" is labelled 1. *)
Theorem swing_label_membership (dt cl dt' cl' : DataFrame) :
  cell_features dt cl = Ok (dt', cl') ->
  index dt' = index dt
  /\ (forall i r, In (i, r) (rows dt') ->
        (cell_of r "swing" = Num 1
         <-> exists s, cell_of r "description" = Str s /\ In s swing_events)
        /\ ((~ exists s, cell_of r "description" = Str s /\ In s swing_events)
            -> cell_of r "swing" = Num 0))
  /\ length swing_events = 9
  /\ swing_label (Str "ball") = Num 0
  /\ swing_label (Str "foul") = Num 1
  /\ swing_label (Str "Foul") = Num 0.
Proof.
  intros H. apply cell_features_Ok in H as (Hrows & _).
  split.
  { unfold index. rewrite Hrows, map_map. reflexivity. }
  split; [|repeat split; reflexivity].
  intros i r Hin. rewrite Hrows in Hin.
  apply in_map_iff in Hin as ([j r0] & E & _). simpl in E.
  inversion E; subst i r; clear E.
  rewrite (feature_row_other _ "swing") by neq_string.
  rewrite (feature_row_other _ "description") by neq_string.
  rewrite (label_row_other _ "description") by neq_string.
  rewrite label_row_swing. unfold swing_label.
  destruct (py_in (cell_of r0 "description") swing_events) eqn:Ein.
  - apply py_in_spec in Ein. split.
    + split; [intros _; exact Ein|reflexivity].
    + intros Hn. contradiction.
  - assert (Hn : ~ exists s, cell_of r0 "description" = Str s
                             /\ In s swing_events).
    { intros Hex. apply py_in_spec in Hex. congruence. }
    split; [|reflexivity]. split.
    + intros E. symmetry in E. now apply Num_1_neq_0 in E.
    + intros Hex. contradiction.
Qed.

Lemma swing_label_membership_witness :
  exists dt' cl',
    cell_features (cell_load sample_year1 sample_year2)
                  (snd (cell_season3 sample_year3)) = Ok (dt', cl')
    /\ index dt' = index (cell_load sample_year1 sample_year2)
    /\ map (fun ir => cell_of (snd ir) "swing") (rows dt')
       = [Num 1; Num 0; Num 1; Num 1; Num 0; Num 1; Num 0;
          Num 1; Num 0; Num 0; Num 1; Num 0; Num 1; Num 0].
Proof.
  eexists. eexists. split; [vm_compute; reflexivity|].
  split; [|vm_compute; reflexivity].
  refine (proj1 (swing_label_membership
                   (cell_load sample_year1 sample_year2)
                   (snd (cell_season3 sample_year3)) _ _ _)).
  vm_compute. reflexivity.
Defined.

(** C3.  Whenever the training table has a description column and, in the
    training and the clean season-3 table, the column names do not repeat
    and [plate_z], [sz_bot] and [sz_top] are float64 columns, the feature
    cell returns (it does not raise, whatever the numbers), both tables
    keep their index, and every row of both holds in
    [relative_pitch_height] exactly
    [(plate_z - sz_bot) / (sz_top - sz_bot)] of that row, in binary64
    arithmetic and without clamping; where [sz_top == sz_bot] that value is
    an infinity or NaN. *)
Theorem relative_pitch_height_exact (data_train data_season3_clean : DataFrame) :
  unique_names (names data_train) = true ->
  unique_names (names data_season3_clean) = true ->
  has_column data_train "description" = true ->
  feature_inputs_ok data_train = true ->
  feature_inputs_ok data_season3_clean = true ->
  exists data_train' data_season3_clean',
    cell_features data_train data_season3_clean
    = Ok (data_train', data_season3_clean')
    /\ index data_train' = index data_train
    /\ index data_season3_clean' = index data_season3_clean
    /\ (forall i r, In (i, r) (rows data_train') -> feature_exact r)
    /\ (forall i r, In (i, r) (rows data_season3_clean') -> feature_exact r).
Proof.
  intros _ _ Hd Hdt Hcl.
  destruct (cell_features_total _ _ Hd Hdt Hcl) as [[dt' cl'] H].
  exists dt', cl'. split; [assumption|].
  apply cell_features_Ok in H as (Hr & Hr3 & _).
  apply feature_inputs_ok_spec in Hdt
    as ((_ & _ & Nz) & (_ & _ & Nb) & (_ & _ & Nt)).
  apply feature_inputs_ok_spec in Hcl
    as ((_ & _ & Nz3) & (_ & _ & Nb3) & (_ & _ & Nt3)).
  split; [unfold index; rewrite Hr, map_map; reflexivity|].
  split; [unfold index; rewrite Hr3, map_map; reflexivity|].
  split.
  - intros i r Hin. rewrite Hr in Hin.
    apply in_map_iff in Hin as ([j r0] & E & Hin).
    cbn [fst snd] in E. inversion E; subst i r; clear E.
    apply feature_row_exact;
      rewrite label_row_other by (apply String.eqb_neq; reflexivity);
      [exact (numeric_column_In _ _ j _ Nz Hin)
      |exact (numeric_column_In _ _ j _ Nb Hin)
      |exact (numeric_column_In _ _ j _ Nt Hin)].
  - intros i r Hin. rewrite Hr3 in Hin.
    apply in_map_iff in Hin as ([j r0] & E & Hin).
    cbn [fst snd] in E. inversion E; subst i r; clear E.
    apply feature_row_exact;
      [exact (numeric_column_In _ _ j _ Nz3 Hin)
      |exact (numeric_column_In _ _ j _ Nb3 Hin)
      |exact (numeric_column_In _ _ j _ Nt3 Hin)].
Qed.

Lemma relative_pitch_height_exact_witness :
  exists data_train' data_season3_clean',
    cell_features (cell_load sample_year1 sample_year2) sample_flat_zone
    = Ok (data_train', data_season3_clean')
    /\ map (fun ir => cell_of (snd ir) "relative_pitch_height")
           (rows data_season3_clean')
       = [Num PrimFloat.infinity; Num PrimFloat.nan; Num 1.75]
    /\ forall i r, In (i, r) (rows data_season3_clean') -> feature_exact r.
Proof.
  destruct (relative_pitch_height_exact
              (cell_load sample_year1 sample_year2) sample_flat_zone)
    as (dt' & cl' & H & _ & _ & _ & He);
    [vm_compute; reflexivity..|].
  exists dt', cl'. split; [assumption|]. split; [|assumption].
  apply cell_features_Ok in H as (_ & -> & _).
  vm_compute. reflexivity.
Defined.

(** The values in a zone without height, and a pitch far above the zone. *)
Example relative_pitch_height_sample :
  result_map (fun ts => (fst ts, map snd (snd ts)))
             (relative_pitch_height sample_flat_zone)
  = Ok (Float64, [Num PrimFloat.infinity; Num PrimFloat.nan; Num 1.75]).
Proof. vm_compute. reflexivity. Qed.

Lemma row_has_na_false r :
  row_has_na r = false <-> forall c v, In (c, v) r -> isna v = false.
Proof.
  unfold row_has_na. split.
  - intros H c v Hin. destruct (isna v) eqn:E; [|reflexivity].
    assert (existsb (fun kv => isna (snd kv)) r = true); [|congruence].
    apply existsb_exists. now exists (c, v).
  - intros H. destruct (existsb _ r) eqn:E; [|reflexivity].
    apply existsb_exists in E as ([c v] & Hin & Hna). simpl in Hna.
    rewrite (H c v Hin) in Hna. discriminate.
Qed.

Lemma dropna_In df i r :
  In (i, r) (rows (dropna df)) <-> In (i, r) (rows df) /\ row_has_na r = false.
Proof.
  unfold dropna. simpl. rewrite filter_In. simpl.
  now rewrite negb_true_iff.
Qed.

Lemma range_index_length n : length (range_index n) = n.
Proof. unfold range_index. now rewrite length_map, length_seq. Qed.

Lemma combine_index {A B : Type} (ls : list A) (rs : list B) :
  length ls = length rs -> map fst (combine ls rs) = ls.
Proof.
  revert rs. induction ls as [|l ls IH]; intros [|r rs] H; simpl in *;
    try discriminate; [reflexivity|]. f_equal. apply IH. lia.
Qed.

Lemma concat_index dfs :
  index (concat dfs) = range_index (length (rows (concat dfs))).
Proof.
  unfold index, concat. simpl.
  rewrite length_combine, range_index_length, Nat.min_id.
  apply combine_index. apply range_index_length.
Qed.

Lemma range_index_NoDup n : NoDup (range_index n).
Proof.
  unfold range_index. apply Finite.Injective_map_NoDup.
  - intros a b. apply Nat2Z.inj.
  - apply seq_NoDup.
Qed.

(** C6.  The training table the loading cell leaves behind consists of
    exactly the rows of the concatenated seasons 1 and 2 in which no field
    is missing: a row is kept, under its label and with every cell as it
    was, if and only if none of its cells is NaN.  The concatenated table is
    labelled 0, 1, 2, ... without repeats, so a label names one row. *)
Theorem cleaner_keeps_complete_rows (data_season1 data_season2 : DataFrame) :
  let full := concat [data_season1; data_season2] in
  let kept := cell_load data_season1 data_season2 in
  index full = range_index (length (rows full))
  /\ NoDup (index full)
  /\ columns kept = columns full
  /\ (forall i r,
        In (i, r) (rows kept)
        <-> In (i, r) (rows full) /\ forall c v, In (c, v) r -> isna v = false)
  /\ forall i r c v, In (i, r) (rows kept) -> In (c, v) r -> isna v = false.
Proof.
  intros full kept. unfold kept, cell_load. fold full.
  split; [apply concat_index|].
  split; [unfold full; rewrite concat_index; apply range_index_NoDup|].
  split; [reflexivity|].
  split.
  - intros i r. rewrite dropna_In, row_has_na_false. reflexivity.
  - intros i r c v Hin Hc. apply dropna_In in Hin as [_ Hna].
    rewrite row_has_na_false in Hna. eauto.
Qed.

Example cleaner_sample :
  index (cell_load sample_year1 sample_year2)
  = [0; 1; 2; 4; 5; 6; 7; 8; 9; 10; 11; 12; 13; 14]%Z.
Proof. vm_compute. reflexivity. Qed.

Lemma assoc_get_tabulate {A : Type} (f : string -> A) (l : list string) c :
  In c l -> assoc_get c (map (fun k => (k, f k)) l) = Some (f c).
Proof.
  induction l as [|k t IH]; simpl; [intros []|].
  intros H. destruct (String.eqb c k) eqn:E.
  - apply String.eqb_eq in E. now subst.
  - apply IH. destruct H as [->|H]; [|assumption].
    rewrite String.eqb_refl in E. discriminate.
Qed.

Lemma tabulate_keys {A : Type} (f : string -> A) (l : list string) :
  map fst (map (fun k => (k, f k)) l) = l.
Proof. rewrite map_map. simpl. apply map_id. Qed.

Lemma names_equal_eq a b : names_equal a b = true -> a = b.
Proof.
  revert b. induction a as [|x a IH]; intros [|y b] H; simpl in H;
    try discriminate; [reflexivity|].
  apply andb_true_iff in H as [Hx Hab]. apply String.eqb_eq in Hx.
  f_equal; auto.
Qed.

Lemma names_equal_refl a : names_equal a a = true.
Proof. induction a; simpl; [reflexivity|]. now rewrite String.eqb_refl. Qed.

(** The rows of an encoded frame are keyed by its columns. *)
Lemma get_dummies_rows_keyed df i r :
  In (i, r) (rows (get_dummies df)) -> map fst r = names (get_dummies df).
Proof.
  unfold get_dummies, names. cbn [rows columns]. intros H.
  apply in_map_iff in H as (ir & E & _). inversion E; subst i r; clear E.
  rewrite !map_app. f_equal.
  - unfold project. apply tabulate_keys.
  - induction (map (fun cd => (fst cd, tl (levels_of (fst cd) (rows df))))
                   (filter is_object (columns df))) as [|cl t IH];
      simpl; [reflexivity|].
    rewrite !map_app, IH, !map_map. reflexivity.
Qed.

(** What [reindex] returns: the target's names on the frame's index. *)
Lemma reindex_columns_Ok df target fill X :
  reindex_columns df target fill = Ok X ->
  names X = target
  /\ index X = index df
  /\ length (rows X) = length (rows df).
Proof.
  unfold reindex_columns.
  destruct (names_equal target (names df)) eqn:E.
  { apply names_equal_eq in E. intros H. inversion H; subst X. auto. }
  destruct (unique_names (names df)); [|discriminate].
  intros H. inversion H; subst X; clear H. unfold names, index. simpl.
  split; [apply tabulate_keys|]. rewrite map_map, length_map. auto.
Qed.

(** On a frame whose rows are keyed by its columns, the row of the result
    at each position is the frame's row aligned to the target. *)
Lemma reindex_columns_aligned df target X :
  reindex_columns df target (Int64, Num 0) = Ok X ->
  (forall i r, In (i, r) (rows df) -> map fst r = names df) ->
  Forall2 (aligned_row target df) (rows df) (rows X).
Proof.
  unfold reindex_columns.
  destruct (names_equal target (names df)) eqn:E.
  { apply names_equal_eq in E. intros H Hk. inversion H; subst X target.
    clear H. induction (rows df) as [|[i r] t IH]; constructor.
    - unfold aligned_row. cbn [fst snd]. split; [reflexivity|].
      split; [apply (Hk i); now left|].
      intros c Hc. unfold has_column.
      apply has_key_In in Hc. now rewrite Hc.
    - apply IH. intros j r' Hin. apply (Hk j). now right. }
  destruct (unique_names (names df)); [|discriminate].
  intros H _. inversion H; subst X; clear H. cbn [rows].
  induction (rows df) as [|[i r] t IH]; simpl; constructor; [|exact IH].
  unfold aligned_row. simpl. split; [reflexivity|].
  split; [apply tabulate_keys|].
  intros c Hin. unfold cell_of at 1.
  now rewrite (assoc_get_tabulate
                 (fun c => if has_column df c then cell_of r c else Num 0)).
Qed.

Lemma train_test_split_Ok L X y test_size random_state g Xtr Xva ytr yva :
  train_test_split L X y test_size random_state g = Ok (Xtr, Xva, ytr, yva) ->
  exists n_train n_test,
    validate_shuffle_split (length (rows X)) test_size = Ok (n_train, n_test)
    /\ let perm := permutation L (check_random_state L random_state g)
                               (length (rows X)) in
       Xtr = {| columns := columns X;
                rows := iloc (rows X) (firstn n_train (skipn n_test perm)) |}
       /\ Xva = {| columns := columns X;
                   rows := iloc (rows X) (firstn n_test perm) |}
       /\ ytr = iloc y (firstn n_train (skipn n_test perm))
       /\ yva = iloc y (firstn n_test perm).
Proof.
  unfold train_test_split. intros H.
  apply bind_Ok in H as ([n_train n_test] & Hv & H).
  exists n_train, n_test. split; [assumption|].
  inversion H; subst; clear H. simpl. auto.
Qed.

(** What the encoding cell computes, whenever it runs through. *)
Lemma cell_encode_Ok L dt cl g enc :
  cell_encode L dt cl g = Ok enc ->
  exists tf sf ytr n_train n_test,
    getitems dt features = Ok tf
    /\ getitems cl features = Ok sf
    /\ reindex_columns (get_dummies sf) (names (get_dummies tf))
                       (Int64, Num 0)
       = Ok (enc_X_test enc)
    /\ getitem dt "swing" = Ok ytr
    /\ train_test_split L (get_dummies tf) ytr 0x1.999999999999ap-3
                        (Some 21%Z) g
       = Ok (enc_X_train enc, enc_X_val enc, enc_y_train enc, enc_y_val enc)
    /\ validate_shuffle_split (length (rows (get_dummies tf)))
                              0x1.999999999999ap-3
       = Ok (n_train, n_test)
    /\ columns (enc_X_train enc) = columns (get_dummies tf)
    /\ columns (enc_X_val enc) = columns (get_dummies tf).
Proof.
  unfold cell_encode. intros H.
  apply bind_Ok in H as (tf & Htf & H).
  apply bind_Ok in H as (sf & Hsf & H).
  apply bind_Ok in H as (Xt & HXt & H).
  apply bind_Ok in H as (ytr & Hy & H).
  apply bind_Ok in H as ([[[Xtr Xva] ytr'] yva] & Hs & H).
  inversion H; subst enc; clear H. simpl.
  destruct (train_test_split_Ok _ _ _ _ _ _ _ _ _ _ Hs)
    as (n_train & n_test & Hv & HXtr & HXva & _).
  exists tf, sf, ytr, n_train, n_test.
  repeat split; try assumption; subst; reflexivity.
Qed.

(** C4.  Whenever the encoding cell runs through, the scoring matrix has the
    training matrix's columns, the same names in the same order and hence
    the same number, one row per row of the encoded scoring data and under
    its label; in each row a training column the encoded scoring data has
    carries the encoded value, a training column it lacks carries 0, and no
    other column is present. *)
Theorem scoring_columns_match_training (L : Library)
  (data_train data_season3_clean : DataFrame) (g : rng_state L)
  (enc : Encoded) :
  cell_encode L data_train data_season3_clean g = Ok enc ->
  names (enc_X_test enc) = names (enc_X_train enc)
  /\ snd (shape (enc_X_test enc)) = snd (shape (enc_X_train enc))
  /\ exists scoring_features,
       getitems data_season3_clean features = Ok scoring_features
       /\ index scoring_features = index data_season3_clean
       /\ Forall2 (aligned_row (names (enc_X_train enc))
                               (get_dummies scoring_features))
                  (rows (get_dummies scoring_features))
                  (rows (enc_X_test enc)).
Proof.
  intros H.
  apply cell_encode_Ok in H
    as (tf & sf & ytr & n_train & n_test & Htf & Hsf & HXt & _ & _ & _ & Hc & _).
  assert (Hn : names (enc_X_train enc) = names (get_dummies tf)).
  { unfold names. now rewrite Hc. }
  pose proof (reindex_columns_Ok _ _ _ _ HXt) as (Hnames & _).
  split; [now rewrite Hn|].
  split.
  { unfold shape. simpl. rewrite <- (length_map fst (columns (enc_X_test enc))).
    rewrite <- (length_map fst (columns (enc_X_train enc))).
    fold (names (enc_X_test enc)). fold (names (enc_X_train enc)).
    now rewrite Hnames, Hn. }
  exists sf. split; [assumption|]. split.
  { unfold getitems in Hsf. destruct (first_missing data_season3_clean features);
      [discriminate|]. inversion Hsf. unfold index. simpl.
    now rewrite map_map. }
  rewrite Hn. apply reindex_columns_aligned; [assumption|].
  apply get_dummies_rows_keyed.
Qed.

Lemma scoring_columns_match_training_witness :
  exists enc,
    cell_encode sample_library (fst sample_tables) (snd sample_tables)
                (0 : rng_state sample_library) = Ok enc
    /\ names (enc_X_test enc) = names (enc_X_train enc)
    /\ snd (shape (enc_X_test enc)) = 13.
Proof.
  eexists. split; [vm_compute; reflexivity|].
  split; [|vm_compute; reflexivity].
  refine (proj1 (scoring_columns_match_training sample_library
                   (fst sample_tables) (snd sample_tables)
                   (0 : rng_state sample_library) _ _)).
  vm_compute. reflexivity.
Defined.

(* ----------------------------------------------------------------- *)
(** *** Model selection *)

Lemma evaluate_candidates_length L cv scoring cands g X y :
  length (fst (evaluate_candidates L cv scoring cands g X y)) = length cands.
Proof.
  revert g. induction cands as [|c t IH]; intros g; simpl; [reflexivity|].
  destruct (cross_val_mean L cv scoring c g X y) as [s g1].
  specialize (IH g1).
  destruct (evaluate_candidates L cv scoring t g1 X y) as [ss g2].
  simpl in *. now rewrite IH.
Qed.

Lemma nanmin_from_some l m :
  exists lo,
    fold_left (fun acc x =>
                 if PrimFloat.is_nan x then acc
                 else match acc with
                      | None => Some x
                      | Some m => Some (if PrimFloat.ltb x m then x else m)
                      end) l (Some m) = Some lo.
Proof.
  revert m. induction l as [|x t IH]; intros m; simpl; [eauto|].
  destruct (PrimFloat.is_nan x); apply IH.
Qed.

Lemma nanmin_some x t :
  PrimFloat.is_nan x = false -> exists lo, nanmin (x :: t) = Some lo.
Proof.
  intros H. unfold nanmin. simpl. rewrite H. apply nanmin_from_some.
Qed.

Lemma replace_nan_id lo l :
  no_nan l ->
  map (fun x => if PrimFloat.is_nan x then (lo - 1)%float else x) l = l.
Proof.
  intros H. induction l as [|x t IH]; simpl; [reflexivity|].
  rewrite (H x) by (left; reflexivity). f_equal.
  apply IH. intros z Hz. apply H. now right.
Qed.

(** The scan keeps a position whose value bounds everything seen so far. *)
Lemma argmax_from_max l : forall pre bi b,
  bi < length pre ->
  nth bi pre PrimFloat.nan = b ->
  (forall x, In x pre -> PrimFloat.leb x b = true) ->
  no_nan (pre ++ l) ->
  let k := argmax_from bi b (length pre) l in
  k < length (pre ++ l)
  /\ forall x, In x (pre ++ l) ->
       PrimFloat.leb x (nth k (pre ++ l) PrimFloat.nan) = true.
Proof.
  induction l as [|x t IH]; intros pre bi b Hbi Hb Hle Hnn; simpl.
  - rewrite app_nil_r. split; [assumption|]. now rewrite Hb.
  - assert (Hx : PrimFloat.is_nan x = false).
    { apply Hnn. apply in_or_app. right. now left. }
    assert (Hbn : PrimFloat.is_nan b = false).
    { apply Hnn. apply in_or_app. left. subst b. now apply nth_In. }
    assert (Hlen : length (pre ++ [x]) = S (length pre)).
    { rewrite length_app. simpl. lia. }
    assert (Happ : (pre ++ [x]) ++ t = pre ++ x :: t).
    { now rewrite <- app_assoc. }
    destruct (PrimFloat.ltb b x) eqn:E.
    + specialize (IH (pre ++ [x]) (length pre) x).
      rewrite Hlen, Happ in IH. apply IH.
      * lia.
      * rewrite app_nth2 by lia. now rewrite Nat.sub_diag.
      * intros z Hz. apply in_app_or in Hz as [Hz|[<-|[]]].
        -- apply (F64Facts.leb_ltb_trans _ b); auto.
        -- now apply F64Facts.leb_refl.
      * assumption.
    + specialize (IH (pre ++ [x]) bi b).
      rewrite Hlen, Happ in IH. apply IH.
      * lia.
      * rewrite app_nth1 by assumption. assumption.
      * intros z Hz. apply in_app_or in Hz as [Hz|[<-|[]]].
        -- auto.
        -- now apply F64Facts.leb_of_not_ltb.
      * assumption.
Qed.

(** Without failed scores, [best_index] is a position of the highest
    mean. *)
Lemma best_index_max means :
  means <> [] -> no_nan means ->
  best_index means < length means
  /\ forall x, In x means ->
       PrimFloat.leb x (nth (best_index means) means PrimFloat.nan) = true.
Proof.
  intros Hne Hnn. destruct means as [|x t]; [contradiction|].
  assert (Hx : PrimFloat.is_nan x = false) by (apply Hnn; now left).
  unfold best_index. destruct (nanmin_some x t Hx) as [lo ->].
  rewrite replace_nan_id by assumption.
  apply (argmax_from_max t [x] 0 x); simpl; auto.
  intros z [<-|[]]. now apply F64Facts.leb_refl.
Qed.

Lemma best_index_singleton s : best_index [s] = 0.
Proof.
  unfold best_index, nanmin. simpl. now destruct (PrimFloat.is_nan s).
Qed.

Lemma raise_if_Ok e u : raise_if e = Ok u -> e = None.
Proof. destruct e; simpl; [discriminate|reflexivity]. Qed.

Lemma GridSearchCV_fit_Ok L grid cv scoring g X y gs :
  GridSearchCV_fit L grid cv scoring g X y = Ok gs ->
  let cands := ParameterGrid grid in
  let means := fst (evaluate_candidates L cv scoring cands g X y) in
  cv_results_ gs = combine cands means
  /\ length means = length cands
  /\ best_index_ gs = best_index means
  /\ best_params_ gs = nth (best_index means) cands []
  /\ best_score_ gs = nth (best_index means) means PrimFloat.nan
  /\ classes_ gs = classes y
  /\ check_cv cv y = Ok tt
  /\ search_raises L cv scoring cands X y = None
  /\ fit_raises L (best_params_ gs) X y = None.
Proof.
  unfold GridSearchCV_fit.
  destruct (existsb _ grid); [discriminate|].
  destruct (check_cv cv y) as [[]|e]; [|discriminate]. cbn [bind].
  destruct (search_raises L cv scoring (ParameterGrid grid) X y) as [e|];
    [discriminate|]. cbn [raise_if bind].
  pose proof (evaluate_candidates_length L cv scoring (ParameterGrid grid) g X y)
    as Hlen.
  destruct (evaluate_candidates L cv scoring (ParameterGrid grid) g X y)
    as [means g1]. simpl in Hlen.
  destruct (fit_raises L (nth (best_index means) (ParameterGrid grid) []) X y)
    as [e|] eqn:Ef; [discriminate|]. cbn [raise_if bind].
  destruct (fit L _ g1 X y) as [m g2].
  intros H. inversion H; subst gs; clear H. simpl.
  repeat split; auto.
Qed.

Lemma In_combine_nth {A B : Type} (la : list A) (lb : list B) i da db :
  i < length la -> length lb = length la ->
  In (nth i la da, nth i lb db) (combine la lb).
Proof.
  revert lb i. induction la as [|a ta IH]; intros [|b tb] i Hi Hl;
    simpl in *; try lia.
  destruct i as [|i]; [now left|]. right. apply IH; lia.
Qed.

(** The search returns a candidate of the grid it is given, and when no
    score failed, one whose mean score is highest among that grid's. *)
Lemma GridSearchCV_fit_selects_max L grid cv scoring g X y gs :
  GridSearchCV_fit L grid cv scoring g X y = Ok gs ->
  ParameterGrid grid <> [] ->
  (forall c s, In (c, s) (cv_results_ gs) -> PrimFloat.is_nan s = false) ->
  map fst (cv_results_ gs) = ParameterGrid grid
  /\ In (best_params_ gs, best_score_ gs) (cv_results_ gs)
  /\ forall c s, In (c, s) (cv_results_ gs) ->
       PrimFloat.leb s (best_score_ gs) = true.
Proof.
  intros H Hne Hnn.
  apply GridSearchCV_fit_Ok in H as (Hcv & Hlen & _ & Hbp & Hbs & _).
  set (cands := ParameterGrid grid) in *.
  set (means := fst (evaluate_candidates L cv scoring cands g X y)) in *.
  assert (Hmeans : means <> []).
  { intros E. rewrite E in Hlen. destruct cands; [contradiction|discriminate]. }
  assert (Hnn' : no_nan means).
  { intros x Hx. destruct (In_nth _ _ PrimFloat.nan Hx) as (i & Hi & <-).
    apply (Hnn (nth i cands [])). rewrite Hcv.
    apply In_combine_nth; lia. }
  destruct (best_index_max means Hmeans Hnn') as [Hi Hmax].
  rewrite Hcv, Hbp, Hbs. split.
  { apply combine_index. lia. }
  split.
  { apply In_combine_nth; lia. }
  intros c s Hin. apply Hmax. eapply in_combine_r; eauto.
Qed.

Lemma cell_train_unfold L X y g :
  cell_train L X y g
  = (_ <- check_cv 5 (map snd y) ;;
     _ <- raise_if (search_raises L 5 "roc_auc" [searched_candidate]
                                  (values X) (map snd y)) ;;
     let s := mean_cv_auc L X y g searched_candidate in
     let g1 := snd (cross_val_mean L 5 "roc_auc" searched_candidate g
                                   (values X) (map snd y)) in
     _ <- raise_if (fit_raises L searched_candidate (values X) (map snd y)) ;;
     Ok {| cv_results_ := [(searched_candidate, s)];
           best_index_ := 0;
           best_params_ := searched_candidate;
           best_score_ := s;
           best_estimator_ :=
             fst (fit L searched_candidate g1 (values X) (map snd y));
           classes_ := classes (map snd y);
           rng_after :=
             snd (fit L searched_candidate g1 (values X) (map snd y)) |}).
Proof.
  unfold cell_train, GridSearchCV_fit, mean_cv_auc.
  change (ParameterGrid param_grid_searched) with [searched_candidate].
  cbn [existsb param_grid_searched snd orb].
  destruct (check_cv 5 (map snd y)) as [[]|e]; [|reflexivity]. cbn [bind].
  destruct (search_raises L 5 "roc_auc" [searched_candidate] (values X)
                          (map snd y)); [reflexivity|].
  cbn [raise_if bind evaluate_candidates].
  destruct (cross_val_mean L 5 "roc_auc" searched_candidate g (values X)
                           (map snd y)) as [s g1].
  cbn [fst snd]. rewrite best_index_singleton. cbn [nth].
  destruct (fit_raises L searched_candidate (values X) (map snd y));
    [reflexivity|]. cbn [raise_if bind].
  destruct (fit L searched_candidate g1 (values X) (map snd y)) as [m g2].
  reflexivity.
Qed.

Lemma cell_train_Ok L X y g gs :
  cell_train L X y g = Ok gs ->
  training_accepted L X y
  /\ cv_results_ gs
     = [(searched_candidate, mean_cv_auc L X y g searched_candidate)]
  /\ best_params_ gs = searched_candidate
  /\ best_score_ gs = mean_cv_auc L X y g searched_candidate
  /\ classes_ gs = classes (map snd y).
Proof.
  rewrite cell_train_unfold. unfold training_accepted.
  destruct (check_cv 5 (map snd y)) as [[]|e]; [|discriminate]. cbn [bind].
  destruct (search_raises L 5 "roc_auc" [searched_candidate] (values X)
                          (map snd y)); [discriminate|].
  cbn [raise_if bind]. cbv zeta.
  destruct (fit_raises L searched_candidate (values X) (map snd y));
    [discriminate|]. cbn [raise_if bind].
  intros H. inversion H; subst gs; clear H. simpl. auto.
Qed.

Lemma cell_train_returns L X y g :
  training_accepted L X y -> exists gs, cell_train L X y g = Ok gs.
Proof.
  intros (Hcv & Hs & Hf). rewrite cell_train_unfold, Hcv, Hs, Hf.
  cbn [raise_if bind]. eauto.
Qed.

Lemma params_eqb_eq a b : params_eqb a b = true -> a = b.
Proof.
  revert b. induction a as [|[k v] a IH]; intros [|[k' v'] b] H;
    simpl in H; try discriminate; [reflexivity|].
  apply andb_true_iff in H as [H Hab]. apply andb_true_iff in H as [Hk Hv].
  apply String.eqb_eq in Hk. apply Z.eqb_eq in Hv. subst.
  f_equal. auto.
Qed.

(** C1, as the code has it.  The training cell returns exactly when the
    data is accepted by the folds, by the search and by the refit, and
    whenever it returns it has searched the grid in force at the call,
    [{n_estimators: [300], max_depth: [25]}]: that grid has the single
    candidate (max_depth 25, n_estimators 300), which is the only one
    scored and is the one selected, with its own 5-fold mean ROC-AUC as the
    best score; among the candidates scored, none has a higher mean.  The
    declared grid, with its 20 candidates, is overwritten before the call:
    none of its other 19 candidates is scored. *)
Theorem trainer_searches_overwritten_grid (L : Library) (X : DataFrame)
  (y : Series) (g : rng_state L) :
  (training_accepted L X y <-> exists gs, cell_train L X y g = Ok gs)
  /\ forall gs : GridSearch L,
       cell_train L X y g = Ok gs ->
       ParameterGrid param_grid_searched = [searched_candidate]
       /\ map fst (cv_results_ gs) = ParameterGrid param_grid_searched
       /\ best_params_ gs = searched_candidate
       /\ best_score_ gs = mean_cv_auc L X y g searched_candidate
       /\ (PrimFloat.is_nan (best_score_ gs) = false ->
           forall c s, In (c, s) (cv_results_ gs) ->
             PrimFloat.leb s (best_score_ gs) = true)
       /\ length (ParameterGrid param_grid_declared) = 20
       /\ In searched_candidate (ParameterGrid param_grid_declared)
       /\ forall c, In c (ParameterGrid param_grid_declared) ->
            c <> searched_candidate -> scored_by gs c = false.
Proof.
  split.
  { split; [apply cell_train_returns|].
    intros [gs H]. now apply cell_train_Ok in H. }
  intros gs H. apply cell_train_Ok in H as (_ & Hcv & Hbp & Hbs & _).
  split; [reflexivity|].
  split; [rewrite Hcv; reflexivity|].
  split; [assumption|]. split; [assumption|].
  split.
  { intros Hs c s Hin. rewrite Hcv in Hin. destruct Hin as [E|[]].
    inversion E; subst c s. rewrite Hbs in *. now apply F64Facts.leb_refl. }
  split; [reflexivity|].
  split; [vm_compute; tauto|].
  intros c _ Hne. unfold scored_by. rewrite Hcv. cbn [map fst existsb].
  rewrite orb_false_r. destruct (params_eqb c searched_candidate) eqn:E;
    [|reflexivity].
  apply params_eqb_eq in E. contradiction.
Qed.

Lemma trainer_searches_overwritten_grid_witness :
  exists gs,
    cell_train sample_library (enc_X_train sample_encoded)
               (enc_y_train sample_encoded) (0 : rng_state sample_library)
    = Ok gs
    /\ best_params_ gs = searched_candidate
    /\ length (enc_y_train sample_encoded) = 11.
Proof.
  eexists. split; [vm_compute; reflexivity|].
  split; [|vm_compute; reflexivity].
  refine (proj1 (proj2 (proj2 (proj2 (trainer_searches_overwritten_grid
                   sample_library (enc_X_train sample_encoded)
                   (enc_y_train sample_encoded)
                   (0 : rng_state sample_library)) _ _)))).
  vm_compute. reflexivity.
Defined.

(** C1 as stated fails: on eleven training rows with both classes, the
    search scores one candidate, and the candidate (max_depth 10,
    n_estimators 50) of the declared grid of 20 is not among those
    scored; nothing compares the selected candidate with it. *)
Lemma declared_grid_not_searched :
  exists gs c,
    cell_train sample_library (enc_X_train sample_encoded)
               (enc_y_train sample_encoded) (0 : rng_state sample_library)
    = Ok gs
    /\ In c (ParameterGrid param_grid_declared)
    /\ scored_by gs c = false
    /\ length (cv_results_ gs) = 1
    /\ length (ParameterGrid param_grid_declared) = 20.
Proof.
  eexists. exists [("max_depth"%string, 10%Z); ("n_estimators"%string, 50%Z)].
  split; [vm_compute; reflexivity|].
  split; [vm_compute; left; reflexivity|].
  repeat split; vm_compute; reflexivity.
Qed.

(* ----------------------------------------------------------------- *)
(** *** The run, cell by cell *)

Lemma notebook_Ok L year1 year2 year3 g vif ns :
  notebook L year1 year2 year3 g vif = Ok ns ->
  let season3 :=
    setitem_scalar year3 "SwingProbability" (Float64, Num 0.5) in
  exists dt cl enc gs cl2 ds3 out,
    cell_features (cell_load year1 year2) (dropna season3) = Ok (dt, cl)
    /\ cell_encode L dt cl g = Ok enc
    /\ cell_train L (enc_X_train enc) (enc_y_train enc) g = Ok gs
    /\ cell_persist L (best_estimator_ gs) (classes_ gs) (enc_X_test enc)
                    season3 cl
       = Ok (cl2, ds3, out)
    /\ data_train ns = dt
    /\ data_season3 ns = ds3
    /\ data_season3_clean ns = cl2
    /\ X_train ns = enc_X_train enc
    /\ X_val ns = enc_X_val enc
    /\ y_train ns = enc_y_train enc
    /\ y_val ns = enc_y_val enc
    /\ X_test ns = enc_X_test enc
    /\ grid_search ns = gs
    /\ best_model ns = best_estimator_ gs
    /\ best_model_pkl ns = best_estimator_ gs
    /\ validation_csv ns = out
    /\ predict_proba L (best_estimator_ gs) (classes_ gs) (enc_X_val enc)
       = Ok (y_pred_proba ns)
    /\ predict L (best_estimator_ gs) (enc_X_val enc) = Ok (y_pred ns)
    /\ roc_auc_of L (map snd (enc_y_val enc)) (y_pred_proba ns)
       = Ok (roc_auc ns).
Proof.
  intros H season3. unfold notebook, cell_season3, copy in H.
  fold season3 in H.
  apply bind_Ok in H as ([dt cl] & Hf & H).
  apply bind_Ok in H as (enc & He & H).
  apply bind_Ok in H as (gs & Hg & H).
  apply bind_Ok in H as (pp & Hpp & H).
  apply bind_Ok in H as (yp & Hyp & H).
  apply bind_Ok in H as (auc & Hauc & H).
  apply bind_Ok in H as ([[cl2 ds3] out] & Hp & H).
  inversion H; subst ns; clear H. simpl.
  exists dt, cl, enc, gs, cl2, ds3, out. repeat split; assumption.
Qed.

(** The split is seeded: the state of the global generator does not reach
    it. *)
Lemma cell_encode_seeded L dt cl g g' :
  cell_encode L dt cl g = cell_encode L dt cl g'.
Proof. reflexivity. Qed.

Lemma set_positional_length c rs vals :
  length vals = length rs -> length (set_positional c rs vals) = length rs.
Proof.
  revert vals. induction rs as [|[i r] t IH]; intros [|v vs] H; simpl in *;
    try discriminate; [reflexivity|]. f_equal. apply IH. lia.
Qed.

Lemma set_positional_index c rs vals :
  length vals = length rs -> map fst (set_positional c rs vals) = map fst rs.
Proof.
  revert vals. induction rs as [|[i r] t IH]; intros [|v vs] H; simpl in *;
    try discriminate; [reflexivity|]. f_equal. apply IH. lia.
Qed.

Lemma predict_proba_Ok L m cls X pr :
  predict_proba L m cls X = Ok pr ->
  check_samples L (values X) = Ok tt
  /\ 2 <= length cls
  /\ pr = map (predict_proba1 L m) (values X).
Proof.
  unfold predict_proba.
  destruct (check_samples L (values X)) as [[]|e]; [|discriminate].
  cbn [bind]. destruct (Nat.ltb_spec (length cls) 2) as [Hlt|Hge];
    [discriminate|].
  intros H. inversion H. auto.
Qed.

Lemma predict_proba_returns L m cls X :
  check_samples L (values X) = Ok tt -> 2 <= length cls ->
  predict_proba L m cls X = Ok (map (predict_proba1 L m) (values X)).
Proof.
  intros Hc Hn. unfold predict_proba. rewrite Hc. cbn [bind].
  destruct (Nat.ltb_spec (length cls) 2); [lia|reflexivity].
Qed.

Lemma predict_Ok L m X yp :
  predict L m X = Ok yp ->
  check_samples L (values X) = Ok tt /\ yp = map (predict1 L m) (values X).
Proof.
  unfold predict.
  destruct (check_samples L (values X)) as [[]|e]; [|discriminate].
  cbn [bind]. intros H. inversion H. auto.
Qed.

Lemma values_length df : length (values df) = length (rows df).
Proof. unfold values. apply length_map. Qed.

(** Whether the last cell runs through depends on the tables and on the
    classes the model was fitted on, not on the model: the samples must be
    accepted and the classes be two; the assignment of the scores and the
    merge then go through when the scoring matrix has the clean table's
    number of rows and the clean table's labels do not repeat. *)
Lemma cell_persist_Ok_iff L m cls Xt ds cl :
  (exists r, cell_persist L m cls Xt ds cl = Ok r)
  <-> check_samples L (values Xt) = Ok tt
      /\ 2 <= length cls
      /\ length (rows Xt) = length (rows cl)
      /\ unique_labels (index cl) = true.
Proof.
  unfold cell_persist. split.
  - intros [r H]. apply bind_Ok in H as (pr & Hpr & H).
    apply predict_proba_Ok in Hpr as (Hc & Hn & ->).
    split; [assumption|]. split; [assumption|].
    unfold setitem_values in H. rewrite !length_map, values_length in H.
    destruct (Nat.eqb_spec (length (rows Xt)) (length (rows cl))) as [E|E];
      [|discriminate].
    split; [assumption|]. cbn [bind] in H.
    unfold update, index in H. cbn [rows] in H.
    rewrite set_positional_index in H
      by (now rewrite !length_map, values_length).
    unfold index. destruct (unique_labels (map fst (rows cl)));
      [reflexivity|discriminate].
  - intros (Hc & Hn & E & Hu).
    rewrite (predict_proba_returns _ _ _ _ Hc Hn). cbn [bind].
    unfold setitem_values. rewrite !length_map, values_length.
    rewrite (proj2 (Nat.eqb_eq _ _) E). cbn [bind].
    unfold update, index. cbn [rows].
    rewrite set_positional_index by (now rewrite !length_map, values_length).
    unfold index in Hu. rewrite Hu. cbn [bind]. eauto.
Qed.

Lemma roc_auc_of_Ok L y s a :
  roc_auc_of L y s = Ok a ->
  roc_auc_raises L y = None /\ a = roc_auc_score L y s.
Proof.
  unfold roc_auc_of. destruct (roc_auc_raises L y); [discriminate|].
  cbn [raise_if bind]. intros H. inversion H. auto.
Qed.

Lemma roc_auc_of_returns L y s :
  roc_auc_raises L y = None -> roc_auc_of L y s = Ok (roc_auc_score L y s).
Proof. intros H. unfold roc_auc_of. now rewrite H. Qed.

Lemma predict_returns L m X :
  check_samples L (values X) = Ok tt ->
  predict L m X = Ok (map (predict1 L m) (values X)).
Proof. intros H. unfold predict. now rewrite H. Qed.

(** A run returns when its cells do, and leaves the split of the encoding
    cell. *)
Lemma notebook_returns L year1 year2 year3 g vif dt cl enc gs pp yp auc r :
  let season3 :=
    setitem_scalar year3 "SwingProbability" (Float64, Num 0.5) in
  cell_features (cell_load year1 year2) (dropna season3) = Ok (dt, cl) ->
  cell_encode L dt cl g = Ok enc ->
  cell_train L (enc_X_train enc) (enc_y_train enc) g = Ok gs ->
  predict_proba L (best_estimator_ gs) (classes_ gs) (enc_X_val enc) = Ok pp ->
  predict L (best_estimator_ gs) (enc_X_val enc) = Ok yp ->
  roc_auc_of L (map snd (enc_y_val enc)) pp = Ok auc ->
  cell_persist L (best_estimator_ gs) (classes_ gs) (enc_X_test enc) season3 cl
  = Ok r ->
  exists ns,
    notebook L year1 year2 year3 g vif = Ok ns
    /\ X_train ns = enc_X_train enc
    /\ X_val ns = enc_X_val enc
    /\ y_train ns = enc_y_train enc
    /\ y_val ns = enc_y_val enc.
Proof.
  intros season3 Hf He Hg Hpp Hyp Hauc Hp.
  unfold notebook, cell_season3, copy. fold season3.
  rewrite Hf. cbn [bind]. rewrite He. cbn [bind]. rewrite Hg. cbn [bind].
  rewrite Hpp. cbn [bind]. rewrite Hyp. cbn [bind]. rewrite Hauc. cbn [bind].
  rewrite Hp. cbn [bind]. destruct r as [[cl2 ds3] out].
  eexists. split; [reflexivity|]. cbn. auto.
Qed.

(** Whether a run returns does not depend on the state of the generator,
    nor on the multicollinearity check; neither does the split it leaves. *)
Lemma notebook_rerun L year1 year2 year3 g vif ns g' vif' :
  notebook L year1 year2 year3 g vif = Ok ns ->
  exists ns',
    notebook L year1 year2 year3 g' vif' = Ok ns'
    /\ X_train ns' = X_train ns
    /\ X_val ns' = X_val ns
    /\ y_train ns' = y_train ns
    /\ y_val ns' = y_val ns.
Proof.
  intros Hrun.
  pose proof (notebook_Ok _ _ _ _ _ _ _ Hrun) as H. cbv zeta in H.
  destruct H as (dt & cl & enc & gs & cl2 & ds3 & out & Hf & He & Hg & Hp
                 & _ & _ & _ & HXtr & HXva & Hytr & Hyva & _ & _ & _ & _ & _
                 & Hpp & Hyp & Hauc).
  pose proof (cell_train_Ok _ _ _ _ _ Hg) as (Hacc & _ & _ & _ & Hcls).
  destruct (cell_train_returns L _ _ g' Hacc) as [gs' Hg'].
  pose proof (cell_train_Ok _ _ _ _ _ Hg') as (_ & _ & _ & _ & Hcls').
  apply predict_proba_Ok in Hpp as (Hc & Hn & _).
  apply predict_Ok in Hyp as (_ & _).
  assert (Hp' : exists r, cell_persist L (best_estimator_ gs') (classes_ gs')
                            (enc_X_test enc)
                            (setitem_scalar year3 "SwingProbability"
                                            (Float64, Num 0.5)) cl = Ok r).
  { apply cell_persist_Ok_iff. rewrite Hcls', <- Hcls.
    apply (proj1 (cell_persist_Ok_iff L (best_estimator_ gs) (classes_ gs)
                    (enc_X_test enc)
                    (setitem_scalar year3 "SwingProbability"
                                    (Float64, Num 0.5)) cl)).
    eauto. }
  destruct Hp' as [r Hp'].
  apply roc_auc_of_Ok in Hauc as [Hauc _].
  rewrite HXtr, HXva, Hytr, Hyva.
  eapply notebook_returns with (gs := gs') (r := r).
  - exact Hf.
  - now rewrite <- (cell_encode_seeded L dt cl g g').
  - exact Hg'.
  - apply predict_proba_returns; [assumption|]. now rewrite Hcls', <- Hcls.
  - now apply predict_returns.
  - now apply roc_auc_of_returns.
  - exact Hp'.
Qed.

(* ----------------------------------------------------------------- *)
(** *** The validation split *)

Lemma validate_shuffle_split_Ok n test_size n_train n_test :
  validate_shuffle_split n test_size = Ok (n_train, n_test) ->
  exists t,
    F64.ceil (test_size * F64.of_nat n) = Some t
    /\ n_test = Z.to_nat t
    /\ n_train = n - n_test
    /\ n_train <> 0.
Proof.
  unfold validate_shuffle_split.
  destruct (negb _); [discriminate|].
  destruct (F64.ceil _) as [t|]; [|discriminate].
  destruct (Nat.eqb_spec (n - Z.to_nat t) 0) as [E|E]; [discriminate|].
  intros H. inversion H; subst. exists t. auto.
Qed.

Lemma iloc_app {A : Type} (l : list A) a b :
  iloc l (a ++ b) = iloc l a ++ iloc l b.
Proof. unfold iloc. apply flat_map_app. Qed.

Lemma iloc_length {A : Type} (l : list A) idx :
  (forall k, In k idx -> k < length l) -> length (iloc l idx) = length idx.
Proof.
  induction idx as [|k t IH]; intros H; simpl; [reflexivity|].
  destruct (nth_error l k) as [x|] eqn:E.
  - simpl. f_equal. apply IH. intros j Hj. apply H. now right.
  - apply nth_error_None in E. specialize (H k (or_introl eq_refl)). lia.
Qed.

Lemma iloc_seq_app {A : Type} (l : list A) : forall pre,
  iloc (pre ++ l) (seq (length pre) (length l)) = l.
Proof.
  induction l as [|x t IH]; intros pre; simpl; [reflexivity|].
  rewrite nth_error_app2 by lia. rewrite Nat.sub_diag. simpl. f_equal.
  specialize (IH (pre ++ [x])).
  rewrite length_app in IH. simpl in IH.
  rewrite Nat.add_1_r, <- app_assoc in IH. exact IH.
Qed.

Lemma iloc_seq {A : Type} (l : list A) : iloc l (seq 0 (length l)) = l.
Proof. exact (iloc_seq_app l []). Qed.

Lemma iloc_permutation {A : Type} (l : list A) idx :
  Permutation idx (seq 0 (length l)) -> Permutation (iloc l idx) l.
Proof.
  intros H. rewrite <- (iloc_seq l) at 2.
  unfold iloc. now apply Permutation_flat_map.
Qed.

Lemma In_firstn {A : Type} (x : A) n l : In x (firstn n l) -> In x l.
Proof.
  intros H. rewrite <- (firstn_skipn n l). apply in_or_app. now left.
Qed.

Lemma In_skipn {A : Type} (x : A) n l : In x (skipn n l) -> In x l.
Proof.
  intros H. rewrite <- (firstn_skipn n l). apply in_or_app. now right.
Qed.

(** The two index sets of a split cover the shuffle. *)
Lemma split_positions (perm : list nat) n n_train n_test :
  length perm = n -> n_train = n - n_test ->
  firstn n_test perm ++ firstn n_train (skipn n_test perm) = perm.
Proof.
  intros Hlen ->. rewrite (firstn_all2 (n := n - n_test)).
  - apply firstn_skipn.
  - rewrite length_skipn. lia.
Qed.

Lemma getitems_rows_length df cs X :
  getitems df cs = Ok X -> length (rows X) = length (rows df).
Proof.
  unfold getitems. destruct (first_missing df cs); [discriminate|].
  intros H. inversion H. simpl. apply length_map.
Qed.

Lemma get_dummies_rows_length df :
  length (rows (get_dummies df)) = length (rows df).
Proof. unfold get_dummies. simpl. apply length_map. Qed.

(** C8.  In a run that goes through, and with a generator whose
    [permutation] is one, the validation split holds out
    [ceil(0.2 * n)] of the [n] encoded training rows and trains on the
    rest, the two parts together being the encoded training rows; and the
    split does not depend on the state of the global random generator (nor
    on the multicollinearity check): any other run on the same three files
    ends with the same four tables. *)
Theorem validation_split_deterministic (L : Library)
  (year1 year2 year3 : DataFrame) (g : rng_state L)
  (vif : option vif_function) (ns : Namespace L) :
  permutation_ok L ->
  notebook L year1 year2 year3 g vif = Ok ns ->
  (forall g' vif',
      result_map split_of (notebook L year1 year2 year3 g' vif')
      = Ok (split_of ns))
  /\ exists encoded t,
       result_map get_dummies (getitems (data_train ns) features) = Ok encoded
       /\ length (rows encoded) = length (rows (data_train ns))
       /\ F64.ceil (0x1.999999999999ap-3 * F64.of_nat (length (rows encoded)))
          = Some t
       /\ length (rows (X_val ns)) = Z.to_nat t
       /\ length (rows (X_train ns)) = length (rows encoded) - Z.to_nat t
       /\ length (rows (X_train ns)) <> 0
       /\ Permutation (rows (X_val ns) ++ rows (X_train ns)) (rows encoded)
       /\ columns (X_val ns) = columns encoded
       /\ columns (X_train ns) = columns encoded.
Proof.
  intros Hperm Hrun.
  pose proof (notebook_Ok _ _ _ _ _ _ _ Hrun) as H. simpl in H.
  destruct H as (dt & cl & enc & gs & cl2 & ds3 & out & Hf & He & Hg & Hp
                 & Hdt & _ & _ & HXtr & HXva & Hytr & Hyva & _).
  split.
  - intros g' vif'.
    destruct (notebook_rerun L year1 year2 year3 g vif ns g' vif' Hrun)
      as (ns' & -> & E1 & E2 & E3 & E4).
    unfold result_map, split_of. now rewrite E1, E2, E3, E4.
  - apply cell_encode_Ok in He
      as (tf & sf & ytr & n_train & n_test & Htf & _ & _ & _ & Hs & Hv & _).
    apply validate_shuffle_split_Ok in Hv as (t & Hc & -> & -> & Hne).
    apply train_test_split_Ok in Hs
      as (n_train' & n_test' & Hv' & HXt & HXv & _).
    apply validate_shuffle_split_Ok in Hv' as (t' & Hc' & -> & -> & _).
    rewrite Hc in Hc'. inversion Hc'; subst t'; clear Hc'.
    cbv zeta in HXt, HXv. unfold check_random_state in HXt, HXv.
    set (n := length (rows (get_dummies tf))) in *.
    set (perm := permutation L (RandomState L 21) n) in *.
    assert (Hpl : length perm = n).
    { unfold perm. rewrite (Permutation_length (Hperm _ n)). apply length_seq. }
    assert (Hin : forall k, In k perm -> k < n).
    { intros k Hk. unfold perm in Hk.
      apply (Permutation_in _ (Hperm _ n)) in Hk. apply in_seq in Hk. lia. }
    assert (Hn : n = length (rows dt)).
    { unfold n. rewrite get_dummies_rows_length.
      now apply (getitems_rows_length dt features). }
    exists (get_dummies tf), t.
    rewrite Hdt, HXtr, HXva, HXt, HXv. cbn [rows columns]. fold n.
    split; [now rewrite Htf|].
    split; [assumption|].
    split; [assumption|].
    split.
    { rewrite iloc_length.
      - rewrite length_firstn. lia.
      - intros k Hk. apply Hin. eapply In_firstn; eauto. }
    split.
    { rewrite iloc_length.
      - rewrite length_firstn, length_skipn. lia.
      - intros k Hk. apply Hin. apply In_firstn in Hk.
        eapply In_skipn; eauto. }
    split.
    { rewrite iloc_length.
      - rewrite length_firstn, length_skipn. lia.
      - intros k Hk. apply Hin. apply In_firstn in Hk.
        eapply In_skipn; eauto. }
    split; [|split; reflexivity].
    rewrite <- iloc_app.
    rewrite (split_positions perm n (n - Z.to_nat t) (Z.to_nat t)) by auto.
    apply iloc_permutation. apply Hperm.
Qed.

Lemma sample_permutation_ok : permutation_ok sample_library.
Proof.
  intros g n. simpl. apply Permutation_sym, Permutation_rev.
Qed.

Lemma validation_split_deterministic_witness :
  exists ns,
    sample_run = Ok ns
    /\ length (rows (X_val ns)) = 3
    /\ length (rows (X_train ns)) = 11
    /\ result_map split_of
         (notebook sample_library sample_year1 sample_year2 sample_year3
                   (7 : rng_state sample_library) None)
       = Ok (split_of ns).
Proof.
  eexists. split; [vm_compute; reflexivity|].
  split; [vm_compute; reflexivity|].
  split; [vm_compute; reflexivity|].
  refine (proj1 (validation_split_deterministic sample_library
                   sample_year1 sample_year2 sample_year3
                   (0 : rng_state sample_library) (Some sample_vif) _
                   sample_permutation_ok _) 7 None).
  vm_compute. reflexivity.
Defined.

(* ----------------------------------------------------------------- *)
(** *** Rows by label *)

Lemma find_label_map {A B : Type} (f : A -> B) i (l : list (label * A)) :
  find_label i (map (fun ir => (fst ir, f (snd ir))) l)
  = option_map f (find_label i l).
Proof.
  induction l as [|[j r] t IH]; simpl; [reflexivity|].
  destruct (Z.eqb i j); [reflexivity|exact IH].
Qed.

Lemma find_label_None {A : Type} i (l : list (label * A)) :
  ~ In i (map fst l) -> find_label i l = None.
Proof.
  induction l as [|[j r] t IH]; simpl; [reflexivity|]. intros H.
  destruct (Z.eqb_spec i j) as [->|Hne].
  - exfalso. apply H. now left.
  - apply IH. intros Hin. apply H. now right.
Qed.

Lemma filter_labels_incl {A : Type} (P : label * A -> bool) l i :
  In i (map fst (filter P l)) -> In i (map fst l).
Proof.
  intros H. apply in_map_iff in H as (ir & E & Hin).
  apply filter_In in Hin as [Hin _]. apply in_map_iff. eauto.
Qed.

Lemma filter_labels_NoDup {A : Type} (P : label * A -> bool) l :
  NoDup (map fst l) -> NoDup (map fst (filter P l)).
Proof.
  induction l as [|[j r] t IH]; simpl; [auto|]. intros H.
  inversion H as [|? ? Hn Hd]; subst.
  destruct (P (j, r)); simpl; [|auto].
  constructor; [|auto]. intros Hin. apply Hn.
  eapply filter_labels_incl; eauto.
Qed.

Lemma find_label_filter {A : Type} (P : label * A -> bool) i l :
  NoDup (map fst l) ->
  find_label i (filter P l)
  = match find_label i l with
    | Some r => if P (i, r) then Some r else None
    | None => None
    end.
Proof.
  induction l as [|[j r] t IH]; simpl; [reflexivity|]. intros H.
  inversion H as [|? ? Hn Hd]; subst.
  destruct (Z.eqb_spec i j) as [->|Hne].
  - destruct (P (j, r)) eqn:E; simpl.
    + now rewrite Z.eqb_refl.
    + apply find_label_None. intros Hin. apply Hn.
      eapply filter_labels_incl; eauto.
  - destruct (P (j, r)); simpl.
    + destruct (Z.eqb_spec i j); [contradiction|]. now apply IH.
    + now apply IH.
Qed.

Lemma find_label_nth {A : Type} (l : list (label * A)) k i r :
  NoDup (map fst l) -> nth_error l k = Some (i, r) -> find_label i l = Some r.
Proof.
  revert k. induction l as [|[j r0] t IH]; intros k Hnd Hk.
  - destruct k; discriminate.
  - inversion Hnd as [|? ? Hn Hd]; subst. destruct k as [|k]; simpl in *.
    + inversion Hk; subst. now rewrite Z.eqb_refl.
    + destruct (Z.eqb_spec i j) as [->|Hne].
      * exfalso. apply Hn. apply nth_error_In in Hk.
        apply in_map_iff. now exists (j, r).
      * eapply IH; eauto.
Qed.

(** Positional assignment seen by label: the row under a label gets the
    value computed from the row under the same label of a frame on the same
    index. *)
Lemma find_label_set_positional {A : Type} c (phi : A -> cell) i :
  forall (rs : list (label * row)) (xs : list (label * A)),
    map fst xs = map fst rs ->
    find_label i (set_positional c rs (map (fun ix => phi (snd ix)) xs))
    = match find_label i rs, find_label i xs with
      | Some r, Some x => Some (assoc_set c (phi x) r)
      | _, _ => None
      end.
Proof.
  induction rs as [|[j r] t IH]; intros [|[j' x] xs] H; simpl in *;
    try discriminate; [reflexivity|].
  inversion H; subst j'. destruct (Z.eqb i j); [reflexivity|]. now apply IH.
Qed.

Lemma cell_of_merge_row cols r2 r c :
  cell_of (merge_row cols r2 r) c
  = match assoc_get c r with
    | Some v => if has_key c cols
                then (if isna (cell_of r2 c) then v else cell_of r2 c)
                else v
    | None => NaN
    end.
Proof.
  unfold cell_of at 1, merge_row.
  induction r as [|[k v] t IH]; simpl; [reflexivity|].
  destruct (String.eqb_spec c k) as [->|Hne]; [reflexivity|exact IH].
Qed.

Lemma merge_row_keys cols r2 r : map fst (merge_row cols r2 r) = map fst r.
Proof. unfold merge_row. rewrite map_map. reflexivity. Qed.

(* ----------------------------------------------------------------- *)
(** *** Scoring season 3 and merging back *)

Lemma update_Ok self other ds :
  update self other = Ok ds ->
  unique_labels (index other) = true
  /\ columns ds = columns self
  /\ rows ds
     = map (fun ir =>
              match find_label (fst ir) (rows other) with
              | None => ir
              | Some r' => (fst ir, merge_row (columns other) r' (snd ir))
              end) (rows self).
Proof.
  unfold update. destruct (unique_labels (index other)); [|discriminate].
  intros H. inversion H; subst ds; clear H. simpl. auto.
Qed.

Lemma cell_encode_X_test_index L dt cl g enc :
  cell_encode L dt cl g = Ok enc -> index (enc_X_test enc) = index cl.
Proof.
  intros H.
  apply cell_encode_Ok in H as (tf & sf & ytr & n1 & n2 & _ & Hsf & HXt & _).
  apply reindex_columns_Ok in HXt as (_ & Hidx & _).
  unfold getitems in Hsf. destruct (first_missing cl features); [discriminate|].
  inversion Hsf; subst sf; clear Hsf.
  rewrite Hidx. unfold index, get_dummies. cbn [rows].
  rewrite !map_map. reflexivity.
Qed.

Lemma find_label_In {A : Type} i (l : list (label * A)) :
  In i (map fst l) -> exists x, find_label i l = Some x.
Proof.
  induction l as [|[j r] t IH]; simpl; [intros []|].
  intros H. destruct (Z.eqb_spec i j) as [->|Hne]; [eauto|].
  apply IH. destruct H as [H|H]; [congruence|assumption].
Qed.

Lemma find_label_Some_In {A : Type} i (l : list (label * A)) x :
  find_label i l = Some x -> In (i, x) l.
Proof.
  induction l as [|[j r] t IH]; simpl; [discriminate|].
  destruct (Z.eqb_spec i j) as [->|Hne].
  - intros H. inversion H. now left.
  - intros H. right. now apply IH.
Qed.

(** The score of the scoring-matrix row [x] under the model [m]. *)
Lemma predict_proba_rows L m Xt :
  map Num (map (predict_proba1 L m) (values Xt))
  = map (fun ix => Num (predict_proba1 L m (map (cell_of (snd ix)) (names Xt))))
        (rows Xt).
Proof.
  unfold values. rewrite !map_map. reflexivity.
Qed.

(** The last cell, row by row: a row of the full table whose label is in
    the clean copy is merged with the clean row of that label, carrying the
    score of the scoring-matrix row of that label; any other row is left as
    it is. *)
Lemma cell_persist_Ok L m cls Xt season3 cl cl2 ds3 out :
  cell_persist L m cls Xt season3 cl = Ok (cl2, ds3, out) ->
  index Xt = index cl ->
  out = to_csv ds3
  /\ columns ds3 = columns season3
  /\ columns cl2 = assoc_set "SwingProbability" Float64 (columns cl)
  /\ index cl2 = index cl
  /\ (forall i,
        find_label i (rows cl2)
        = match find_label i (rows cl), find_label i (rows Xt) with
          | Some rc, Some x =>
              Some (assoc_set "SwingProbability"
                      (Num (predict_proba1 L m (map (cell_of x) (names Xt))))
                      rc)
          | _, _ => None
          end)
  /\ rows ds3
     = map (fun ir =>
              match find_label (fst ir) (rows cl2) with
              | None => ir
              | Some r2 => (fst ir, merge_row (columns cl2) r2 (snd ir))
              end) (rows season3).
Proof.
  unfold cell_persist. intros H Hidx.
  apply bind_Ok in H as (pr & Hpr & H).
  apply predict_proba_Ok in Hpr as (_ & _ & ->).
  unfold setitem_values in H.
  destruct (Nat.eqb_spec
              (length (map Num (map (predict_proba1 L m) (values Xt))))
              (length (rows cl))) as [Hlen|]; [|discriminate].
  cbn [bind] in H. apply bind_Ok in H as (ds & Hu & H).
  inversion H; subst cl2 ds3 out; clear H.
  apply update_Ok in Hu as (_ & Hc & Hr).
  split; [reflexivity|]. split; [assumption|]. cbn [columns rows] in *.
  split; [reflexivity|].
  split.
  { unfold index. cbn [rows]. now apply set_positional_index. }
  split; [|assumption].
  intros i. rewrite predict_proba_rows.
  apply (find_label_set_positional "SwingProbability"
           (fun x => Num (predict_proba1 L m (map (cell_of x) (names Xt))))).
  exact Hidx.
Qed.

Lemma is_csv_frame_spec df :
  is_csv_frame df = true ->
  index df = range_index (length (rows df))
  /\ NoDup (index df)
  /\ forall i r, In (i, r) (rows df) ->
       names_equal (map fst r) (names df) = true.
Proof.
  unfold is_csv_frame. rewrite !andb_true_iff. intros [[[Hi _] Hk] _].
  assert (E : forall a b, index_equals a b = true -> a = b).
  { induction a as [|x a IH]; intros [|y b] H; simpl in H;
      try discriminate; [reflexivity|].
    apply andb_true_iff in H as [Hx Hab]. apply Z.eqb_eq in Hx.
    f_equal; auto. }
  apply E in Hi. split; [assumption|]. split.
  - rewrite Hi. apply range_index_NoDup.
  - intros i r Hin. rewrite forallb_forall in Hk. exact (Hk (i, r) Hin).
Qed.

Lemma range_index_nth n k i :
  nth_error (range_index n) k = Some i -> i = Z.of_nat k.
Proof.
  unfold range_index. rewrite nth_error_map. intros H.
  destruct (nth_error (seq 0 n) k) as [j|] eqn:E; [|discriminate].
  simpl in H. inversion H; subst i; clear H.
  assert (Hk : k < length (seq 0 n)).
  { apply nth_error_Some. congruence. }
  rewrite length_seq in Hk.
  apply nth_error_nth with (d := 0) in E.
  rewrite seq_nth in E by assumption. simpl in E. now subst.
Qed.

Lemma filter_map_comm {A B : Type} (P : B -> bool) (f : A -> B) l :
  filter P (map f l) = map f (filter (fun x => P (f x)) l).
Proof.
  induction l as [|x t IH]; simpl; [reflexivity|].
  destruct (P (f x)); simpl; now rewrite IH.
Qed.

(** The merged season-3 table, row by row.  A raw row with a missing value
    (after the default is put in) stays out of the clean copy and is written
    as it is; a complete raw row is in the clean copy under its own label,
    the scoring matrix has a row under that label, and the row written is
    the raw row merged with the clean row carrying that score. *)
Lemma notebook_output L year1 year2 year3 g vif ns :
  notebook L year1 year2 year3 g vif = Ok ns ->
  is_csv_frame year3 = true ->
  validation_csv ns = to_csv (data_season3 ns)
  /\ columns (data_season3 ns)
     = assoc_set "SwingProbability" Float64 (columns year3)
  /\ (exists d,
        columns (data_season3_clean ns)
        = assoc_set "SwingProbability" Float64
            (assoc_set "relative_pitch_height" d
               (assoc_set "SwingProbability" Float64 (columns year3))))
  /\ index (X_test ns) = index (data_season3_clean ns)
  /\ index (data_season3_clean ns)
     = map fst (filter (fun ir => negb (row_has_na (defaulted (snd ir))))
                       (rows year3))
  /\ index (data_season3 ns) = index year3
  /\ forall k i r, nth_error (rows year3) k = Some (i, r) ->
       i = Z.of_nat k
       /\ if row_has_na (defaulted r)
          then nth_error (rows (data_season3 ns)) k = Some (i, defaulted r)
               /\ find_label i (rows (data_season3_clean ns)) = None
          else exists x,
                 find_label i (rows (X_test ns)) = Some x
                 /\ find_label i (rows (data_season3_clean ns))
                    = Some (scored (score_of ns x) r)
                 /\ nth_error (rows (data_season3 ns)) k
                    = Some (i, merge_row (columns (data_season3_clean ns))
                                         (scored (score_of ns x) r)
                                         (defaulted r)).
Proof.
  intros Hrun Hcsv.
  pose proof (notebook_Ok _ _ _ _ _ _ _ Hrun) as H. cbv zeta in H.
  destruct H as (dt & cl & enc & gs & cl2 & ds3 & out & Hf & He & Hg & Hp
                 & _ & Hds3 & Hcl2 & _ & _ & _ & _ & HXt & _ & Hbm & _ & Hout & _).
  unfold score_of. rewrite Hds3, Hcl2, HXt, Hout, Hbm.
  clear Hrun Hds3 Hcl2 HXt Hout Hbm Hg.
  apply cell_features_Ok in Hf as (_ & Hclr & _ & [d3 Hclc] & _).
  pose proof (cell_encode_X_test_index _ _ _ _ _ He) as Hidx.
  apply cell_persist_Ok in Hp as (-> & Hc3 & Hc2 & Hi2 & Hfind & Hr3);
    [|assumption].
  apply is_csv_frame_spec in Hcsv as (Hrange & Hnd & _).
  set (season3 := setitem_scalar year3 "SwingProbability" (Float64, Num 0.5))
    in *.
  assert (Hs3 : rows season3
                = map (fun ir => (fst ir, defaulted (snd ir))) (rows year3))
    by reflexivity.
  assert (Hnd3 : NoDup (map fst (rows season3))).
  { rewrite Hs3, map_map. exact Hnd. }
  split; [reflexivity|].
  split; [rewrite Hc3; reflexivity|].
  split; [exists d3; rewrite Hc2, Hclc; reflexivity|].
  split; [congruence|].
  split.
  { rewrite Hi2. unfold index. rewrite Hclr. unfold dropna. cbn [rows].
    rewrite Hs3, filter_map_comm, !map_map. reflexivity. }
  split.
  { unfold index. rewrite Hr3, Hs3, !map_map. apply map_ext.
    intros [j r0]. cbn [fst snd].
    now destruct (find_label j (rows cl2)). }
  intros k i r Hk.
  split.
  { apply (range_index_nth (length (rows year3)) k). rewrite <- Hrange.
    unfold index. rewrite nth_error_map, Hk. reflexivity. }
  assert (Hk3 : nth_error (rows season3) k = Some (i, defaulted r)).
  { rewrite Hs3, nth_error_map, Hk. reflexivity. }
  assert (Hf3 : find_label i (rows season3) = Some (defaulted r)).
  { eapply find_label_nth; eauto. }
  assert (Hfc : find_label i (rows cl)
                = if row_has_na (defaulted r) then None
                  else Some (feature_row (defaulted r))).
  { rewrite Hclr, find_label_map. unfold dropna. cbn [rows].
    rewrite find_label_filter by assumption. rewrite Hf3. cbn [snd].
    destruct (row_has_na (defaulted r)); reflexivity. }
  rewrite Hr3, nth_error_map, Hk3. cbn [option_map fst snd].
  rewrite (Hfind i), Hfc.
  destruct (row_has_na (defaulted r)); [split; reflexivity|].
  assert (Hin : In i (map fst (rows (enc_X_test enc)))).
  { fold (index (enc_X_test enc)). rewrite Hidx. unfold index.
    apply in_map_iff. exists (i, feature_row (defaulted r)). split; [reflexivity|].
    now apply find_label_Some_In. }
  destruct (find_label_In _ _ Hin) as [x Hx].
  exists x. rewrite Hx. repeat split; reflexivity.
Qed.

Lemma assoc_get_combine_tabulate {A : Type} (f : string -> A) l c :
  In c l -> assoc_get c (combine l (map f l)) = Some (f c).
Proof.
  induction l as [|k t IH]; simpl; [intros []|]. intros H.
  destruct (String.eqb_spec c k) as [->|Hne]; [reflexivity|].
  apply IH. destruct H as [H|H]; [congruence|assumption].
Qed.

Lemma csv_field_to_csv df k i r c :
  nth_error (rows df) k = Some (i, r) -> In c (names df) ->
  csv_field (to_csv df) k c = Some (cell_of r c).
Proof.
  intros Hk Hc. unfold csv_field, to_csv, values. cbn [records header].
  rewrite nth_error_map, Hk. cbn [option_map snd].
  now apply assoc_get_combine_tabulate.
Qed.

Lemma row_has_na_defaulted year3 i r :
  is_csv_frame year3 = true ->
  has_column year3 "SwingProbability" = false ->
  In (i, r) (rows year3) ->
  row_has_na (defaulted r) = row_has_na r.
Proof.
  intros Hcsv Hsp Hin.
  apply is_csv_frame_spec in Hcsv as (_ & _ & Hkeys).
  apply Hkeys, names_equal_eq in Hin.
  assert (Hk : has_key "SwingProbability" r = false).
  { destruct (has_key "SwingProbability" r) eqn:E; [|reflexivity].
    apply has_key_In in E. rewrite Hin in E.
    apply has_key_In in E. unfold has_column in Hsp. congruence. }
  unfold defaulted. rewrite (assoc_set_new _ _ _ Hk).
  unfold row_has_na. rewrite existsb_app. simpl.
  now rewrite !orb_false_r.
Qed.

Lemma swing_probability_in_output year3 :
  In "SwingProbability"%string
     (map fst (assoc_set "SwingProbability" Float64 (columns year3))).
Proof. apply has_key_In, has_key_set. Qed.

Lemma cell_of_defaulted_sp r :
  cell_of (defaulted r) "SwingProbability" = Num 0.5.
Proof. unfold defaulted. apply cell_of_set_eq. Qed.

Lemma cell_of_scored_sp p r : cell_of (scored p r) "SwingProbability" = Num p.
Proof. unfold scored. apply cell_of_set_eq. Qed.

(** The merged row carries the score, which is a number. *)
Lemma merged_swing_probability cols p r :
  has_key "SwingProbability" cols = true ->
  PrimFloat.is_nan p = false ->
  cell_of (merge_row cols (scored p r) (defaulted r)) "SwingProbability"
  = Num p.
Proof.
  intros Hc Hp. rewrite cell_of_merge_row.
  unfold defaulted at 1. rewrite assoc_get_set_eq, Hc, cell_of_scored_sp.
  simpl. now rewrite Hp.
Qed.

(** Outside the probability and the derived feature, merging gives back the
    raw cell. *)
Lemma merged_other_cell cols p r c :
  c <> "SwingProbability"%string ->
  c <> "relative_pitch_height"%string ->
  cell_of (merge_row cols (scored p r) (defaulted r)) c = cell_of r c.
Proof.
  intros Hsp Hrph. rewrite cell_of_merge_row.
  assert (E : cell_of (scored p r) c = cell_of r c).
  { unfold scored, defaulted. rewrite cell_of_set_ne by assumption.
    rewrite feature_row_other by assumption.
    now rewrite cell_of_set_ne. }
  rewrite E. unfold defaulted. rewrite assoc_get_set_ne by assumption.
  unfold cell_of. destruct (assoc_get c r) as [v|]; [|reflexivity].
  destruct (has_key c cols); [|reflexivity].
  now destruct (isna v).
Qed.

(** C5.  For a season-3 file without a [SwingProbability] column of its
    own, and a model whose probabilities lie in [0, 1]: the file written has
    as many rows as the file read; the rows scored and the rows with a
    missing value add up to all rows; row [k] of the output carries exactly
    0.5 when raw row [k] has a missing value, and otherwise the model's
    probability for the scoring-matrix row under the same label, a number in
    [0, 1]. *)
Theorem scoring_output_rows (L : Library) (year1 year2 year3 : DataFrame)
  (g : rng_state L) (vif : option vif_function) (ns : Namespace L) :
  proba_in_unit L ->
  is_csv_frame year3 = true ->
  has_column year3 "SwingProbability" = false ->
  notebook L year1 year2 year3 g vif = Ok ns ->
  length (records (validation_csv ns)) = length (rows year3)
  /\ length (rows (X_test ns))
     + length (filter (fun ir => row_has_na (snd ir)) (rows year3))
     = length (rows year3)
  /\ forall k i r, nth_error (rows year3) k = Some (i, r) ->
       (row_has_na r = true ->
        csv_field (validation_csv ns) k "SwingProbability" = Some (Num 0.5))
       /\ (row_has_na r = false ->
           exists x,
             find_label i (rows (X_test ns)) = Some x
             /\ csv_field (validation_csv ns) k "SwingProbability"
                = Some (Num (score_of ns x))
             /\ F64.in_unit (score_of ns x) = true).
Proof.
  intros Hunit Hcsv Hsp Hrun.
  destruct (notebook_output _ _ _ _ _ _ _ Hrun Hcsv)
    as (Hout & Hc3 & [d3 Hc2] & Hidx & Hicl & Hi3 & Hrows).
  assert (Hnames : In "SwingProbability"%string (names (data_season3 ns))).
  { unfold names. rewrite Hc3. apply swing_probability_in_output. }
  split.
  { rewrite Hout. unfold to_csv, values. cbn [records]. rewrite length_map.
    rewrite <- (length_map fst (rows (data_season3 ns))).
    fold (index (data_season3 ns)). rewrite Hi3. unfold index.
    apply length_map. }
  split.
  { rewrite <- (length_map fst (rows (X_test ns))).
    fold (index (X_test ns)). rewrite Hidx, Hicl, length_map.
    rewrite <- (filter_length (fun ir => row_has_na (snd ir)) (rows year3)).
    rewrite Nat.add_comm. f_equal. f_equal.
    apply filter_ext_in. intros [j r0] Hin. cbn [snd].
    now rewrite (row_has_na_defaulted year3 j r0). }
  intros k i r Hk.
  destruct (Hrows k i r Hk) as [_ Hrow].
  rewrite (row_has_na_defaulted year3 i r) in Hrow
    by (try assumption; eapply nth_error_In; eauto).
  split; intros Hna; rewrite Hna in Hrow.
  - destruct Hrow as [Hr _]. rewrite Hout.
    rewrite (csv_field_to_csv _ _ _ _ _ Hr Hnames).
    now rewrite cell_of_defaulted_sp.
  - destruct Hrow as (x & Hx & _ & Hr). exists x.
    split; [assumption|]. split; [|apply Hunit].
    rewrite Hout, (csv_field_to_csv _ _ _ _ _ Hr Hnames).
    rewrite merged_swing_probability; [reflexivity| |].
    + rewrite Hc2. apply has_key_set.
    + apply F64Facts.in_unit_not_nan. apply Hunit.
Qed.

Lemma sample_proba_in_unit : proba_in_unit sample_library.
Proof.
  intros m x. simpl. destruct x as [|[s|s] t]; try reflexivity.
  destruct (PrimFloat.ltb 90 s); reflexivity.
Qed.

Lemma scoring_output_rows_witness :
  exists ns,
    sample_run = Ok ns
    /\ length (records (validation_csv ns)) = 6
    /\ map (fun k => csv_field (validation_csv ns) k "SwingProbability")
           [0; 1; 2; 3; 4; 5]
       = [Some (Num 0.75); Some (Num 0.5); Some (Num 0.25); Some (Num 0.25);
          Some (Num 0.5); Some (Num 0.75)].
Proof.
  eexists. split; [vm_compute; reflexivity|].
  split; [|vm_compute; reflexivity].
  refine (proj1 (scoring_output_rows sample_library
                   sample_year1 sample_year2 sample_year3
                   (0 : rng_state sample_library) (Some sample_vif) _
                   sample_proba_in_unit _ _ _)).
  - vm_compute. reflexivity.
  - vm_compute. reflexivity.
  - vm_compute. reflexivity.
Defined.

Lemma output_header_columns year3 c :
  In c (map fst (assoc_set "SwingProbability" Float64 (columns year3))) ->
  In c (names year3) \/ c = "SwingProbability"%string.
Proof.
  rewrite assoc_set_keys. fold (names year3).
  destruct (has_key "SwingProbability" (columns year3)); [auto|].
  intros H. apply in_app_or in H as [H|[H|[]]]; auto.
Qed.

(** C9.  For a season-3 file that has no column named
    [relative_pitch_height]: the file written has the raw columns in their
    order, plus [SwingProbability] last when the raw file lacks it, and no
    other column (so neither the derived feature nor any indicator column);
    it has the rows of the file read; and in every row every raw column
    other than [SwingProbability] holds the raw value. *)
Theorem merge_changes_only_swing_probability (L : Library)
  (year1 year2 year3 : DataFrame) (g : rng_state L)
  (vif : option vif_function) (ns : Namespace L) :
  is_csv_frame year3 = true ->
  has_column year3 "relative_pitch_height" = false ->
  notebook L year1 year2 year3 g vif = Ok ns ->
  header (validation_csv ns)
  = (if has_column year3 "SwingProbability" then names year3
     else names year3 ++ ["SwingProbability"%string])
  /\ (forall c, In c (header (validation_csv ns)) ->
        In c (names year3) \/ c = "SwingProbability"%string)
  /\ ~ In "relative_pitch_height"%string (header (validation_csv ns))
  /\ length (records (validation_csv ns)) = length (rows year3)
  /\ forall k i r c,
       nth_error (rows year3) k = Some (i, r) ->
       In c (names year3) ->
       c <> "SwingProbability"%string ->
       csv_field (validation_csv ns) k c = Some (cell_of r c).
Proof.
  intros Hcsv Hrph Hrun.
  destruct (notebook_output _ _ _ _ _ _ _ Hrun Hcsv)
    as (Hout & Hc3 & [d3 Hc2] & Hidx & Hicl & Hi3 & Hrows).
  assert (Hhead : header (validation_csv ns)
                  = map fst (assoc_set "SwingProbability" Float64
                                       (columns year3))).
  { rewrite Hout. unfold to_csv, names. cbn [header]. now rewrite Hc3. }
  assert (Hno : ~ In "relative_pitch_height"%string (names year3)).
  { intros Hin. apply has_key_In in Hin. unfold has_column in Hrph.
    congruence. }
  split.
  { rewrite Hhead, assoc_set_keys. reflexivity. }
  split.
  { intros c Hc. rewrite Hhead in Hc. now apply output_header_columns. }
  split.
  { rewrite Hhead. intros Hin. apply output_header_columns in Hin as [Hin|E].
    - contradiction.
    - discriminate. }
  split.
  { rewrite Hout. unfold to_csv, values. cbn [records]. rewrite length_map.
    rewrite <- (length_map fst (rows (data_season3 ns))).
    fold (index (data_season3 ns)). rewrite Hi3. unfold index.
    apply length_map. }
  intros k i r c Hk Hc Hsp.
  assert (Hcr : c <> "relative_pitch_height"%string) by congruence.
  assert (Hnames : In c (names (data_season3 ns))).
  { unfold names. rewrite Hc3, assoc_set_keys. fold (names year3).
    destruct (has_key _ _); [assumption|]. apply in_or_app. now left. }
  destruct (Hrows k i r Hk) as [_ Hrow].
  destruct (row_has_na (defaulted r)).
  - destruct Hrow as [Hr _].
    rewrite Hout, (csv_field_to_csv _ _ _ _ _ Hr Hnames).
    unfold defaulted. now rewrite cell_of_set_ne.
  - destruct Hrow as (x & _ & _ & Hr).
    rewrite Hout, (csv_field_to_csv _ _ _ _ _ Hr Hnames).
    now rewrite merged_other_cell.
Qed.

Lemma merge_changes_only_swing_probability_witness :
  exists ns,
    sample_run = Ok ns
    /\ header (validation_csv ns)
       = (names sample_year3 ++ ["SwingProbability"%string])
    /\ map (fun k => csv_field (validation_csv ns) k "pitch_type") [0; 1; 2; 3]
       = [Some (Str "FF"); Some (Str "FF"); Some (Str "KC"); Some (Str "SL")].
Proof.
  eexists. split; [vm_compute; reflexivity|].
  split; [|vm_compute; reflexivity].
  refine (proj1 (merge_changes_only_swing_probability sample_library
                   sample_year1 sample_year2 sample_year3
                   (0 : rng_state sample_library) (Some sample_vif) _ _ _ _)).
  - vm_compute. reflexivity.
  - vm_compute. reflexivity.
  - vm_compute. reflexivity.
Defined.

Lemma find_label_unique {A : Type} i (x : A) l :
  NoDup (map fst l) -> In (i, x) l -> find_label i l = Some x.
Proof.
  intros Hnd Hin. apply In_nth_error in Hin as [k Hk].
  eapply find_label_nth; eauto.
Qed.

(** C10.  With season 3 as [pd.read_csv] returns it and probabilities in
    [0, 1]: the clean copy keeps the labels of the rows it keeps, without
    repeats and all of them labels of the full table; the scoring matrix is
    on the clean copy's index; and every row of the clean copy, labelled
    [i], is the raw row labelled [i] (row number [i] of the file) carrying
    the model's probability for the scoring-matrix row labelled [i], which
    is the probability written in row [i] of the output. *)
Theorem probabilities_attached_by_label (L : Library)
  (year1 year2 year3 : DataFrame) (g : rng_state L)
  (vif : option vif_function) (ns : Namespace L) :
  proba_in_unit L ->
  is_csv_frame year3 = true ->
  notebook L year1 year2 year3 g vif = Ok ns ->
  incl (index (data_season3_clean ns)) (index (data_season3 ns))
  /\ index (data_season3 ns) = index year3
  /\ NoDup (index (data_season3_clean ns))
  /\ index (X_test ns) = index (data_season3_clean ns)
  /\ forall i rc,
       In (i, rc) (rows (data_season3_clean ns)) ->
       exists k r x,
         nth_error (rows year3) k = Some (i, r)
         /\ i = Z.of_nat k
         /\ find_label i (rows (X_test ns)) = Some x
         /\ rc = scored (score_of ns x) r
         /\ csv_field (validation_csv ns) k "SwingProbability"
            = Some (Num (score_of ns x)).
Proof.
  intros Hunit Hcsv Hrun.
  destruct (notebook_output _ _ _ _ _ _ _ Hrun Hcsv)
    as (Hout & Hc3 & [d3 Hc2] & Hidx & Hicl & Hi3 & Hrows).
  pose proof (is_csv_frame_spec _ Hcsv) as (_ & Hnd & _).
  assert (Hndc : NoDup (index (data_season3_clean ns))).
  { rewrite Hicl. now apply filter_labels_NoDup. }
  split.
  { rewrite Hicl, Hi3. intros i Hi. eapply filter_labels_incl; eauto. }
  split; [assumption|]. split; [assumption|]. split; [assumption|].
  intros i rc Hin.
  assert (Hi : In i (index (data_season3_clean ns))).
  { unfold index. apply in_map_iff. now exists (i, rc). }
  rewrite Hicl in Hi. apply in_map_iff in Hi as ([j r] & E & Hf).
  cbn [fst] in E. subst j.
  apply filter_In in Hf as [Hr Hna]. cbn [snd] in Hna.
  apply negb_true_iff in Hna.
  apply In_nth_error in Hr as [k Hk].
  destruct (Hrows k i r Hk) as [Hik Hrow]. rewrite Hna in Hrow.
  destruct Hrow as (x & Hx & Hc & Hr).
  exists k, r, x. repeat split; try assumption.
  - rewrite (find_label_unique i rc _ Hndc Hin) in Hc. congruence.
  - assert (Hnames : In "SwingProbability"%string (names (data_season3 ns))).
    { unfold names. rewrite Hc3. apply swing_probability_in_output. }
    rewrite Hout, (csv_field_to_csv _ _ _ _ _ Hr Hnames).
    rewrite merged_swing_probability; [reflexivity| |].
    + rewrite Hc2. apply has_key_set.
    + apply F64Facts.in_unit_not_nan. apply Hunit.
Qed.

Lemma probabilities_attached_by_label_witness :
  exists ns,
    sample_run = Ok ns
    /\ index (data_season3_clean ns) = [0; 2; 3; 5]%Z
    /\ index (data_season3 ns) = [0; 1; 2; 3; 4; 5]%Z
    /\ index (X_test ns) = [0; 2; 3; 5]%Z.
Proof.
  eexists. split; [vm_compute; reflexivity|].
  split; [vm_compute; reflexivity|].
  split; [|vm_compute; reflexivity].
  refine (proj1 (proj2 (probabilities_attached_by_label sample_library
                   sample_year1 sample_year2 sample_year3
                   (0 : rng_state sample_library) (Some sample_vif) _
                   sample_proba_in_unit _ _))).
  - vm_compute. reflexivity.
  - vm_compute. reflexivity.
Defined.

(* ----------------------------------------------------------------- *)
(** *** The multicollinearity check *)

(** C7.  Whatever the variance-inflation computation returns, and whether
    or not its cell is run, a run on the same files and the same generator
    state raises the same exception or leaves the same variables, the same
    two files and the same print-out, the table of inflation factors and its
    print-out apart. *)
Theorem vif_is_diagnostic_only (L : Library) (year1 year2 year3 : DataFrame)
  (g : rng_state L) (vif vif' : option vif_function) :
  result_map without_vif (notebook L year1 year2 year3 g vif)
  = result_map without_vif (notebook L year1 year2 year3 g vif').
Proof.
  unfold notebook, cell_season3, copy.
  destruct (cell_features _ _) as [[dt cl]|e]; [|reflexivity]. cbn [bind].
  destruct (cell_encode L dt cl g) as [enc|e]; [|reflexivity]. cbn [bind].
  destruct (cell_train L _ _ g) as [gs|e]; [|reflexivity]. cbn [bind].
  destruct (predict_proba L _ _ _) as [pp|e]; [|reflexivity]. cbn [bind].
  destruct (predict L _ _) as [yp|e]; [|reflexivity]. cbn [bind].
  destruct (roc_auc_of L _ _) as [auc|e]; [|reflexivity]. cbn [bind].
  destruct (cell_persist L _ _ _ _ _) as [[[cl2 ds3] out]|e]; [|reflexivity].
  cbn [bind result_map]. unfold without_vif. simpl.
  destruct vif, vif'; reflexivity.
Qed.

(** The check does reach its own table: two different computations leave
    different tables behind. *)
Example vif_reaches_its_table :
  result_map vif_data sample_run
  <> result_map vif_data
       (notebook sample_library sample_year1 sample_year2 sample_year3
                 (0 : rng_state sample_library) None).
Proof. vm_compute. discriminate. Qed.

(* ================================================================= *)
(** * Further properties of the cells *)

(* ----------------------------------------------------------------- *)
(** *** Loading: concatenating two seasons of one schema *)

Lemma add_column_keys_known c d acc :
  has_key c acc = true -> map fst (add_column c d acc) = map fst acc.
Proof.
  induction acc as [|[c' d'] t IH]; simpl; [discriminate|].
  destruct (String.eqb c c'); simpl; [reflexivity|].
  intros H. now rewrite IH.
Qed.

Lemma add_column_keys_new c d acc :
  has_key c acc = false -> map fst (add_column c d acc) = map fst acc ++ [c].
Proof.
  induction acc as [|[c' d'] t IH]; simpl; [reflexivity|].
  destruct (String.eqb c c'); simpl; [discriminate|].
  intros H. now rewrite IH.
Qed.

Lemma has_key_false_iff {A : Type} k (l : list (string * A)) :
  has_key k l = false <-> ~ In k (map fst l).
Proof.
  rewrite <- has_key_In. destruct (has_key k l); split; congruence.
Qed.

Lemma fold_add_column_fresh cols : forall acc,
  NoDup (map fst acc ++ map fst cols) ->
  map fst (fold_left (fun acc cd => add_column (fst cd) (snd cd) acc) cols acc)
  = map fst acc ++ map fst cols.
Proof.
  induction cols as [|[c d] t IH]; intros acc H; simpl.
  - now rewrite app_nil_r.
  - simpl in H.
    assert (Hc : has_key c acc = false).
    { apply has_key_false_iff. intros Hin.
      apply NoDup_remove_2 in H. apply H. apply in_or_app. now left. }
    rewrite IH; rewrite (add_column_keys_new _ _ _ Hc).
    + now rewrite <- app_assoc.
    + rewrite <- app_assoc. simpl. exact H.
Qed.

Lemma fold_add_column_known cols : forall acc,
  (forall c, In c (map fst cols) -> In c (map fst acc)) ->
  map fst (fold_left (fun acc cd => add_column (fst cd) (snd cd) acc) cols acc)
  = map fst acc.
Proof.
  induction cols as [|[c d] t IH]; intros acc H; simpl; [reflexivity|].
  assert (Hc : has_key c acc = true).
  { apply has_key_In. apply H. now left. }
  rewrite IH; rewrite (add_column_keys_known _ _ _ Hc); [reflexivity|].
  intros c' Hc'. apply H. now right.
Qed.

Lemma unique_names_NoDup l : unique_names l = true <-> NoDup l.
Proof.
  induction l as [|c t IH]; simpl.
  - split; [constructor|reflexivity].
  - rewrite andb_true_iff, negb_true_iff, IH. split.
    + intros [Hn Hd]. constructor; [|assumption].
      intros Hin. assert (existsb (String.eqb c) t = true); [|congruence].
      apply existsb_exists. exists c. split; [assumption|apply String.eqb_refl].
    + intros H. inversion H as [|? ? Hn Hd]; subst. split; [|assumption].
      destruct (existsb (String.eqb c) t) eqn:E; [|reflexivity].
      apply existsb_exists in E as [j [Hin E]]. apply String.eqb_eq in E.
      subst. contradiction.
Qed.

(** Projecting a row on its own columns gives the row back. *)
Lemma project_own_keys r : NoDup (map fst r) -> project (map fst r) r = r.
Proof.
  unfold project. induction r as [|[k v] t IH]; intros H; simpl;
    [reflexivity|].
  inversion H as [|? ? Hn Hd]; subst.
  unfold cell_of at 1. simpl. rewrite String.eqb_refl. f_equal.
  rewrite <- (IH Hd) at 2. apply map_ext_in. intros c Hc.
  unfold cell_of. simpl. destruct (String.eqb_spec c k) as [->|Hne];
    [contradiction|reflexivity].
Qed.

Lemma csv_frame_facts df :
  is_csv_frame df = true ->
  NoDup (names df)
  /\ forall i r, In (i, r) (rows df) -> map fst r = names df.
Proof.
  intros H. pose proof (is_csv_frame_spec _ H) as (_ & _ & Hk).
  unfold is_csv_frame in H. rewrite !andb_true_iff in H.
  destruct H as [[[_ Hu] _] _]. split; [now apply unique_names_NoDup|].
  intros i r Hin. now apply names_equal_eq, (Hk i).
Qed.

Lemma concat_two_columns a b :
  NoDup (names a) -> names b = names a ->
  map fst (concat_columns [a; b]) = names a.
Proof.
  intros Hnd Hb. unfold concat_columns. rewrite map_map. cbn [fst].
  unfold joined_columns. simpl.
  rewrite fold_add_column_known.
  - now rewrite fold_add_column_fresh.
  - intros c Hc. rewrite fold_add_column_fresh by assumption. simpl.
    fold (names b) in Hc. now rewrite Hb in Hc.
Qed.

(** X1.  For two season files of one schema, as [pd.read_csv] returns them,
    the concatenated table has that schema's columns in order, the rows of
    season 1 followed by the rows of season 2 with every cell as read, and
    the labels 0, 1, 2, ... up to the number of rows of both: the old labels
    are gone. *)
Theorem concat_same_schema (data_season1 data_season2 : DataFrame) :
  is_csv_frame data_season1 = true ->
  is_csv_frame data_season2 = true ->
  names data_season2 = names data_season1 ->
  let data_train := concat [data_season1; data_season2] in
  names data_train = names data_season1
  /\ map snd (rows data_train)
     = map snd (rows data_season1) ++ map snd (rows data_season2)
  /\ index data_train
     = range_index (length (rows data_season1) + length (rows data_season2)).
Proof.
  intros H1 H2 Hn data_train.
  destruct (csv_frame_facts _ H1) as [Hnd1 Hk1].
  destruct (csv_frame_facts _ H2) as [Hnd2 Hk2].
  assert (Hcols : names data_train = names data_season1).
  { unfold data_train, names, concat. cbn [columns].
    now apply concat_two_columns. }
  assert (Hrows : flat_map
            (fun df => map (fun ir => project (map fst (concat_columns
                                       [data_season1; data_season2])) (snd ir))
                           (rows df)) [data_season1; data_season2]
          = map snd (rows data_season1) ++ map snd (rows data_season2)).
  { simpl. rewrite app_nil_r. rewrite (concat_two_columns _ _ Hnd1 Hn).
    f_equal; apply map_ext_in; intros [i r] Hin; cbn [snd].
    - rewrite <- (Hk1 i r Hin). apply project_own_keys.
      rewrite (Hk1 i r Hin). assumption.
    - rewrite <- Hn, <- (Hk2 i r Hin). apply project_own_keys.
      rewrite (Hk2 i r Hin). assumption. }
  split; [assumption|].
  unfold data_train, index, concat. cbn [rows]. rewrite Hrows.
  assert (Hlen : length (range_index
                   (length (map snd (rows data_season1)
                            ++ map snd (rows data_season2))))
                 = length (map snd (rows data_season1)
                           ++ map snd (rows data_season2))).
  { apply range_index_length. }
  split.
  - clear - Hlen. revert Hlen.
    generalize (range_index (length (map snd (rows data_season1)
                                     ++ map snd (rows data_season2)))).
    generalize (map snd (rows data_season1) ++ map snd (rows data_season2)).
    intros l. induction l as [|x l IH]; intros [|i li] H; simpl in *;
      try discriminate; [reflexivity|]. f_equal. apply IH. lia.
  - rewrite combine_index by assumption.
    now rewrite length_app, !length_map.
Qed.

Lemma concat_same_schema_witness :
  names (concat [sample_year1; sample_year2]) = names sample_year1
  /\ map snd (rows (concat [sample_year1; sample_year2]))
     = map snd (rows sample_year1) ++ map snd (rows sample_year2)
  /\ index (concat [sample_year1; sample_year2])
     = range_index (length (rows sample_year1) + length (rows sample_year2)).
Proof.
  apply (concat_same_schema sample_year1 sample_year2);
    vm_compute; reflexivity.
Defined.

(* ----------------------------------------------------------------- *)
(** *** The feature cell: when it returns, what it raises, what it keeps *)

Lemma has_key_set_ne {A : Type} k k' (v : A) l :
  k' <> k -> has_key k' (assoc_set k v l) = has_key k' l.
Proof.
  intros Hne. apply eq_true_iff_eq.
  rewrite !assoc_get_has_key. now rewrite assoc_get_set_ne.
Qed.

Lemma forallb_map_comm {A B : Type} (f : B -> bool) (g : A -> B) l :
  forallb f (map g l) = forallb (fun x => f (g x)) l.
Proof. induction l as [|x t IH]; simpl; [reflexivity|]. now rewrite IH. Qed.

Lemma forallb_ext_in {A : Type} (f g : A -> bool) l :
  (forall x, In x l -> f x = g x) -> forallb f l = forallb g l.
Proof.
  induction l as [|x t IH]; intros H; simpl; [reflexivity|].
  rewrite (H x) by now left. f_equal. apply IH. intros y Hy. apply H. now right.
Qed.

Lemma zone_columns_float_spec df c :
  zone_columns_float df = true -> In c zone_columns ->
  has_column df c = true ->
  dtype_of df c = Float64 /\ numeric_column df c = true.
Proof.
  unfold zone_columns_float. rewrite forallb_forall. intros H Hc Hh.
  specialize (H c Hc). rewrite Hh in H. cbn [negb orb] in H.
  apply andb_true_iff in H as [Hd Hn]. apply dtype_eqb_eq in Hd. auto.
Qed.

(** Assigning a column outside the three changes nothing for them. *)
Lemma zone_columns_float_set df c d (phi : row -> cell) :
  ~ In c zone_columns ->
  zone_columns_float
    {| columns := assoc_set c d (columns df);
       rows := map (fun ir => (fst ir, assoc_set c (phi (snd ir)) (snd ir)))
                   (rows df) |}
  = zone_columns_float df.
Proof.
  intros Hc. unfold zone_columns_float. apply forallb_ext_in.
  intros z Hz. assert (Hne : z <> c) by (intros ->; contradiction).
  rewrite dtype_of_set_ne by assumption.
  unfold has_column, numeric_column. cbn [columns rows].
  rewrite has_key_set_ne by assumption. f_equal. f_equal.
  rewrite forallb_map_comm. apply forallb_ext_in. intros ir _. cbn [snd].
  now rewrite cell_of_set_ne.
Qed.

Lemma first_missing_set df c d rs cs :
  ~ In c cs ->
  first_missing {| columns := assoc_set c d (columns df); rows := rs |} cs
  = first_missing df cs.
Proof.
  induction cs as [|c0 t IH]; intros Hc; [reflexivity|].
  cbn [first_missing]. unfold has_column. cbn [columns].
  rewrite has_key_set_ne by (intros ->; apply Hc; now left).
  rewrite IH by (intros H; apply Hc; now right). reflexivity.
Qed.

(** With float64 zone columns the feature expression raises for the first
    of the three columns that is missing, and for nothing else. *)
Lemma relative_pitch_height_float df :
  zone_columns_float df = true ->
  relative_pitch_height df
  = match first_missing df zone_columns with
    | Some c => Raise (KeyError c)
    | None => Ok (Float64, column_by rph_of_row (rows df))
    end.
Proof.
  intros H. unfold zone_columns. cbn [first_missing].
  unfold relative_pitch_height, series_sub, series_div.
  destruct (has_column df "plate_z") eqn:Hz.
  2:{ now rewrite (getitem_typed_missing _ _ Hz). }
  rewrite (getitem_typed_has _ _ Hz). cbn [bind].
  destruct (has_column df "sz_bot") eqn:Hb.
  2:{ now rewrite (getitem_typed_missing _ _ Hb). }
  rewrite (getitem_typed_has _ _ Hb). cbn [bind].
  destruct (zone_columns_float_spec df "plate_z" H) as [Dz Nz];
    [simpl; auto|assumption|].
  destruct (zone_columns_float_spec df "sz_bot" H) as [Db Nb];
    [simpl; auto|assumption|].
  rewrite Dz, Db.
  rewrite series_arith_float
    by (intros i r Hin; split; eapply numeric_column_In; eauto).
  cbn [bind].
  destruct (has_column df "sz_top") eqn:Ht.
  2:{ now rewrite (getitem_typed_missing _ _ Ht). }
  rewrite (getitem_typed_has _ _ Ht). cbn [bind].
  destruct (zone_columns_float_spec df "sz_top" H) as [Dt Nt];
    [simpl; auto|assumption|].
  rewrite Dt.
  rewrite series_arith_float
    by (intros i r Hin; split; eapply numeric_column_In; eauto).
  cbn [bind].
  rewrite series_arith_float by (intros i r Hin; split; reflexivity).
  reflexivity.
Qed.

Lemma first_missing_Some df cs c :
  first_missing df cs = Some c -> In c cs /\ has_column df c = false.
Proof.
  induction cs as [|c0 t IH]; simpl; [discriminate|].
  destruct (has_column df c0) eqn:E.
  - intros H. destruct (IH H). auto.
  - intros H. inversion H; subst. auto.
Qed.

Lemma first_missing_None df cs :
  first_missing df cs = None <-> forallb (has_column df) cs = true.
Proof.
  induction cs as [|c0 t IH]; simpl; [tauto|].
  destruct (has_column df c0); simpl; [exact IH|].
  split; discriminate.
Qed.

(** X2.  When the column names of the two tables do not repeat and the
    zone columns [plate_z], [sz_bot] and [sz_top] that the tables have are
    float64 columns, the feature cell returns exactly
    when the training table has a [description] column and both tables have
    the three zone columns, and what it raises otherwise is [KeyError] for
    a column that is missing: nothing is raised for the values, be it a
    zone without height, an infinity, NaN or a table without rows. *)
Theorem feature_cell_returns_iff (data_train data_season3_clean : DataFrame) :
  unique_names (names data_train) = true ->
  unique_names (names data_season3_clean) = true ->
  zone_columns_float data_train = true ->
  zone_columns_float data_season3_clean = true ->
  ((exists p, cell_features data_train data_season3_clean = Ok p)
   <-> has_column data_train "description" = true
       /\ forallb (has_column data_train) zone_columns = true
       /\ forallb (has_column data_season3_clean) zone_columns = true)
  /\ forall e,
       cell_features data_train data_season3_clean = Raise e ->
       exists c,
         e = KeyError c
         /\ In c ("description"%string :: zone_columns)
         /\ (has_column data_train c = false
             \/ has_column data_season3_clean c = false).
Proof.
  intros _ _ Hz Hz3. rewrite cell_features_steps.
  destruct (has_column data_train "description") eqn:Hd.
  2:{ split.
      - split; [intros [p H]; discriminate|intros [H _]; discriminate].
      - intros e H. inversion H. exists "description"%string.
        split; [reflexivity|]. split; [now left|now left]. }
  cbv zeta.
  set (dt1 := {| columns := _; rows := _ |}).
  assert (Hz1 : zone_columns_float dt1 = true).
  { unfold dt1.
    rewrite (zone_columns_float_set data_train "swing" _
               (fun r => swing_label (cell_of r "description")));
      [assumption|]. unfold zone_columns. simpl. intuition discriminate. }
  assert (Hm1 : first_missing dt1 zone_columns
                = first_missing data_train zone_columns).
  { unfold dt1. apply first_missing_set.
    unfold zone_columns. simpl. intuition discriminate. }
  rewrite (relative_pitch_height_float dt1 Hz1), Hm1.
  destruct (first_missing data_train zone_columns) as [c|] eqn:E1.
  { cbn [bind]. pose proof (first_missing_Some _ _ _ E1) as [Hc Hh]. split.
    - split; [intros [p H]; discriminate|].
      intros (_ & H & _). apply first_missing_None in H. congruence.
    - intros e H. inversion H. exists c. split; [reflexivity|].
      split; [now right|now left]. }
  apply first_missing_None in E1. cbn [bind].
  rewrite setitem_series_column_by. cbn [bind].
  rewrite (relative_pitch_height_float _ Hz3).
  destruct (first_missing data_season3_clean zone_columns) as [c|] eqn:E3.
  { cbn [bind]. pose proof (first_missing_Some _ _ _ E3) as [Hc Hh]. split.
    - split; [intros [p H]; discriminate|].
      intros (_ & _ & H). apply first_missing_None in H. congruence.
    - intros e H. inversion H. exists c. split; [reflexivity|].
      split; [now right|now right]. }
  apply first_missing_None in E3. cbn [bind].
  rewrite setitem_series_column_by. cbn [bind].
  split.
  - split; [auto|]. intros _. eauto.
  - intros e H. discriminate.
Qed.

Lemma feature_cell_returns_iff_witness :
  exists p,
    cell_features (cell_load sample_year1 sample_year2) sample_flat_zone
    = Ok p.
Proof.
  apply (proj2 (proj1 (feature_cell_returns_iff
                         (cell_load sample_year1 sample_year2)
                         sample_flat_zone eq_refl eq_refl eq_refl
                         eq_refl))).
  repeat split; vm_compute; reflexivity.
Defined.

Lemma Forall2_map_right {A B : Type} (R : A -> B -> Prop) (f : A -> B) l :
  (forall x, In x l -> R x (f x)) -> Forall2 R l (map f l).
Proof.
  induction l as [|x t IH]; intros H; simpl; constructor.
  - apply H. now left.
  - apply IH. intros y Hy. apply H. now right.
Qed.

Lemma assoc_set_keys_extend {A : Type} k (v : A) l :
  exists extra,
    map fst (assoc_set k v l) = map fst l ++ extra /\ incl extra [k].
Proof.
  rewrite assoc_set_keys. destruct (has_key k l).
  - exists []. rewrite app_nil_r. split; [reflexivity|]. intros x [].
  - exists [k]. split; [reflexivity|]. apply incl_refl.
Qed.

(** X3.  When the feature cell returns, both tables keep their rows, in
    order and under their labels; in the training table every cell outside
    [swing] and [relative_pitch_height] is as it was, in the clean season-3
    table every cell outside [relative_pitch_height] (so the default
    probability too); and the columns are the old ones in their order, with
    the new columns appended if they were not there. *)
Theorem feature_cell_keeps_other_cells
  (data_train data_season3_clean data_train' data_season3_clean' : DataFrame) :
  cell_features data_train data_season3_clean
  = Ok (data_train', data_season3_clean') ->
  Forall2 (same_row_except ["swing"; "relative_pitch_height"]%string)
          (rows data_train) (rows data_train')
  /\ Forall2 (same_row_except ["relative_pitch_height"]%string)
             (rows data_season3_clean) (rows data_season3_clean')
  /\ (exists extra,
        names data_train' = names data_train ++ extra
        /\ incl extra ["swing"; "relative_pitch_height"]%string)
  /\ (exists extra,
        names data_season3_clean' = names data_season3_clean ++ extra
        /\ incl extra ["relative_pitch_height"]%string).
Proof.
  intros H. apply cell_features_Ok in H as (Hr & Hr3 & (d0 & d1 & Hc) & (d3 & Hc3) & _).
  split.
  { rewrite Hr. apply Forall2_map_right. intros [i r] _.
    split; [reflexivity|]. cbn [snd]. intros c Hc'.
    rewrite feature_row_other by (intros ->; apply Hc'; simpl; auto).
    apply label_row_other. intros ->. apply Hc'. simpl. auto. }
  split.
  { rewrite Hr3. apply Forall2_map_right. intros [i r] _.
    split; [reflexivity|]. cbn [snd]. intros c Hc'.
    apply feature_row_other. intros ->. apply Hc'. simpl. auto. }
  split.
  { unfold names. rewrite Hc.
    destruct (assoc_set_keys_extend "relative_pitch_height" d1
                (assoc_set "swing" d0 (columns data_train)))
      as (e2 & -> & H2).
    destruct (assoc_set_keys_extend "swing" d0 (columns data_train))
      as (e1 & -> & H1).
    exists (e1 ++ e2). rewrite app_assoc. split; [reflexivity|].
    intros x Hx. apply in_app_or in Hx as [Hx|Hx].
    - apply H1 in Hx. destruct Hx as [<-|[]]. simpl. auto.
    - apply H2 in Hx. destruct Hx as [<-|[]]. simpl. auto. }
  unfold names. rewrite Hc3.
  apply assoc_set_keys_extend.
Qed.

Lemma feature_cell_keeps_other_cells_witness :
  Forall2 (same_row_except ["swing"; "relative_pitch_height"]%string)
          (rows (cell_load sample_year1 sample_year2))
          (rows (fst sample_tables))
  /\ names (snd sample_tables)
     = names (snd (cell_season3 sample_year3))
       ++ ["relative_pitch_height"%string].
Proof.
  split; [|vm_compute; reflexivity].
  refine (proj1 (feature_cell_keeps_other_cells
                   (cell_load sample_year1 sample_year2)
                   (snd (cell_season3 sample_year3))
                   (fst sample_tables) (snd sample_tables) _)).
  vm_compute. reflexivity.
Defined.

(* ----------------------------------------------------------------- *)
(** *** The validation split: alignment and separation *)

Lemma map_iloc {A B : Type} (f : A -> B) l idx :
  map f (iloc l idx) = iloc (map f l) idx.
Proof.
  unfold iloc. induction idx as [|k t IH]; simpl; [reflexivity|].
  rewrite map_app, IH, nth_error_map.
  now destruct (nth_error l k).
Qed.

Lemma iloc_In {A : Type} (x : A) l idx : In x (iloc l idx) -> In x l.
Proof.
  unfold iloc. intros H. apply in_flat_map in H as (k & _ & Hk).
  destruct (nth_error l k) as [y|] eqn:E; [|contradiction].
  destruct Hk as [<-|[]]. eapply nth_error_In; eauto.
Qed.

Lemma getitems_index df cs X : getitems df cs = Ok X -> index X = index df.
Proof.
  unfold getitems. destruct (first_missing df cs); [discriminate|].
  intros H. inversion H. unfold index. simpl. now rewrite map_map.
Qed.

Lemma get_dummies_index df : index (get_dummies df) = index df.
Proof. unfold index, get_dummies. simpl. now rewrite map_map. Qed.

(** The encoding cell's split, by positions: both parts of the features and
    of the target are taken at the same positions, and with a generator
    whose [permutation] is one, the positions of the two parts together are
    all positions, each once. *)
Lemma cell_encode_split L dt cl g enc :
  cell_encode L dt cl g = Ok enc ->
  exists tf idx_train idx_val,
    getitems dt features = Ok tf
    /\ rows (enc_X_train enc) = iloc (rows (get_dummies tf)) idx_train
    /\ rows (enc_X_val enc) = iloc (rows (get_dummies tf)) idx_val
    /\ enc_y_train enc
       = iloc (column_by (fun r => cell_of r "swing") (rows dt)) idx_train
    /\ enc_y_val enc
       = iloc (column_by (fun r => cell_of r "swing") (rows dt)) idx_val
    /\ (permutation_ok L ->
        Permutation (idx_val ++ idx_train) (seq 0 (length (rows dt)))).
Proof.
  intros H. apply cell_encode_Ok in H
    as (tf & sf & ytr & n_train & n_test & Htf & _ & _ & Hy & Hs & Hv & _).
  apply getitem_Ok in Hy as [_ ->].
  apply train_test_split_Ok in Hs as (n1 & n2 & Hv' & HXt & HXv & Hyt & Hyv).
  rewrite Hv in Hv'. inversion Hv'; subst n1 n2; clear Hv'.
  cbv zeta in HXt, HXv, Hyt, Hyv.
  set (n := length (rows (get_dummies tf))) in *.
  set (perm := permutation L (check_random_state L (Some 21%Z) g) n) in *.
  exists tf, (firstn n_train (skipn n_test perm)), (firstn n_test perm).
  rewrite HXt, HXv. cbn [rows].
  repeat split; try assumption.
  intros Hperm.
  assert (Hn : n = length (rows dt)).
  { unfold n. rewrite get_dummies_rows_length.
    now apply (getitems_rows_length dt features). }
  apply validate_shuffle_split_Ok in Hv as (t & _ & -> & -> & _).
  rewrite (split_positions perm n (n - Z.to_nat t) (Z.to_nat t)).
  - rewrite <- Hn. apply Hperm.
  - unfold perm. rewrite (Permutation_length (Hperm _ n)). apply length_seq.
  - reflexivity.
Qed.

(** What the evaluation cells and the first cells bind. *)
Lemma notebook_bindings L year1 year2 year3 g vif ns :
  notebook L year1 year2 year3 g vif = Ok ns ->
  nan_rows ns = isna_any year3
  /\ y_pred_proba ns
     = map (predict_proba1 L (best_model ns)) (values (X_val ns))
  /\ y_pred ns = map (predict1 L (best_model ns)) (values (X_val ns))
  /\ roc_auc ns = roc_auc_score L (map snd (y_val ns)) (y_pred_proba ns)
  /\ accuracy ns = accuracy_score L (map snd (y_val ns)) (y_pred ns)
  /\ conf_matrix ns = confusion_matrix L (map snd (y_val ns)) (y_pred ns).
Proof.
  intros H. unfold notebook, cell_season3, copy in H.
  apply bind_Ok in H as ([dt cl] & _ & H).
  apply bind_Ok in H as (enc & _ & H).
  apply bind_Ok in H as (gs & _ & H).
  apply bind_Ok in H as (pp & Hpp & H).
  apply bind_Ok in H as (yp & Hyp & H).
  apply bind_Ok in H as (auc & Hauc & H).
  apply bind_Ok in H as ([[cl2 ds3] out] & _ & H).
  apply predict_proba_Ok in Hpp as (_ & _ & Hpp).
  apply predict_Ok in Hyp as (_ & Hyp).
  apply roc_auc_of_Ok in Hauc as (_ & Hauc).
  inversion H; subst ns; clear H. simpl. repeat split; assumption.
Qed.


Lemma swing_label_binary x : swing_label x = Num 0 \/ swing_label x = Num 1.
Proof. unfold swing_label. destruct (py_in x swing_events); auto. Qed.

(** X4.  In a run that goes through, the target stays on the features'
    rows through the split: [y_train] carries the labels of [X_train]'s
    rows in the same order, [y_val] those of [X_val]'s; each target value is
    the [swing] of the training row under that label, and is 0 or 1; and the
    validation predictions are as many as the validation targets. *)
Theorem split_keeps_target_aligned (L : Library)
  (year1 year2 year3 : DataFrame) (g : rng_state L)
  (vif : option vif_function) (ns : Namespace L) :
  notebook L year1 year2 year3 g vif = Ok ns ->
  map fst (y_train ns) = index (X_train ns)
  /\ map fst (y_val ns) = index (X_val ns)
  /\ length (y_pred_proba ns) = length (y_val ns)
  /\ length (y_pred ns) = length (y_val ns)
  /\ forall i v,
       In (i, v) (y_train ns ++ y_val ns) ->
       (v = Num 0 \/ v = Num 1)
       /\ exists r, In (i, r) (rows (data_train ns))
                    /\ cell_of r "swing" = v.
Proof.
  intros Hrun.
  pose proof (notebook_bindings _ _ _ _ _ _ _ Hrun)
    as (_ & Hpp & Hp & _).
  pose proof (notebook_Ok _ _ _ _ _ _ _ Hrun) as H. cbv zeta in H.
  destruct H as (dt & cl & enc & gs & cl2 & ds3 & out & Hf & He & _ & _
                 & Hdt & _ & _ & HXtr & HXva & Hytr & Hyva & _).
  apply cell_features_Ok in Hf as (Hrows & _).
  apply cell_encode_split in He
    as (tf & it & iv & Htf & Hrt & Hrv & Hyt & Hyv & _).
  assert (Hidx : map fst (rows (get_dummies tf)) = map fst (rows dt)).
  { fold (index (get_dummies tf)). rewrite get_dummies_index.
    now apply (getitems_index dt features). }
  assert (Hit : map fst (y_train ns) = index (X_train ns)).
  { rewrite Hytr, HXtr, Hyt. unfold index. rewrite Hrt, !map_iloc.
    now rewrite column_by_index, Hidx. }
  assert (Hiv : map fst (y_val ns) = index (X_val ns)).
  { rewrite Hyva, HXva, Hyv. unfold index. rewrite Hrv, !map_iloc.
    now rewrite column_by_index, Hidx. }
  assert (Hlen : length (rows (X_val ns)) = length (y_val ns)).
  { rewrite <- (length_map fst (y_val ns)), Hiv. unfold index.
    now rewrite length_map. }
  split; [assumption|]. split; [assumption|].
  split.
  { rewrite Hpp. unfold values. now rewrite !length_map. }
  split.
  { rewrite Hp. unfold predict, values. now rewrite !length_map. }
  intros i v Hin. rewrite Hytr, Hyva, Hyt, Hyv, <- iloc_app in Hin.
  apply iloc_In in Hin. unfold column_by in Hin.
  apply in_map_iff in Hin as ([j r] & E & Hr). cbn [fst snd] in E.
  inversion E; subst i v; clear E. split.
  - rewrite Hrows in Hr. apply in_map_iff in Hr as ([j0 r0] & E & _).
    cbn [fst snd] in E. inversion E; subst j r; clear E.
    rewrite (feature_row_other _ "swing") by neq_string.
    rewrite label_row_swing.
    destruct (swing_label_binary (cell_of r0 "description")); auto.
  - exists r. rewrite Hdt. split; [assumption|reflexivity].
Qed.

Lemma split_keeps_target_aligned_witness :
  exists ns,
    sample_run = Ok ns
    /\ map fst (y_train ns) = index (X_train ns)
    /\ y_val ns = [(14, Num 0); (13, Num 1); (12, Num 0)]%Z.
Proof.
  eexists. split; [vm_compute; reflexivity|].
  split; [|vm_compute; reflexivity].
  refine (proj1 (split_keeps_target_aligned sample_library
                   sample_year1 sample_year2 sample_year3
                   (0 : rng_state sample_library) (Some sample_vif) _ _)).
  vm_compute. reflexivity.
Defined.

Lemma cell_load_index_NoDup year1 year2 :
  NoDup (index (cell_load year1 year2)).
Proof.
  unfold cell_load, index, dropna. cbn [rows].
  apply filter_labels_NoDup.
  fold (index (concat [year1; year2])). rewrite concat_index.
  apply range_index_NoDup.
Qed.

(** X5.  In a run that goes through, with a generator whose [permutation]
    is one: no training row is a validation row.  The labels of [X_val]
    followed by those of [X_train] are the labels of the training table,
    each exactly once. *)
Theorem split_parts_are_disjoint (L : Library)
  (year1 year2 year3 : DataFrame) (g : rng_state L)
  (vif : option vif_function) (ns : Namespace L) :
  permutation_ok L ->
  notebook L year1 year2 year3 g vif = Ok ns ->
  Permutation (index (X_val ns) ++ index (X_train ns))
              (index (data_train ns))
  /\ NoDup (index (X_val ns) ++ index (X_train ns))
  /\ forall i, In i (index (X_val ns)) -> ~ In i (index (X_train ns)).
Proof.
  intros Hperm Hrun.
  pose proof (notebook_Ok _ _ _ _ _ _ _ Hrun) as H. cbv zeta in H.
  destruct H as (dt & cl & enc & gs & cl2 & ds3 & out & Hf & He & _ & _
                 & Hdt & _ & _ & HXtr & HXva & _).
  apply cell_features_Ok in Hf as (Hrows & _).
  apply cell_encode_split in He
    as (tf & it & iv & Htf & Hrt & Hrv & _ & _ & Hp).
  specialize (Hp Hperm).
  assert (Hidx : map fst (rows (get_dummies tf)) = map fst (rows dt)).
  { fold (index (get_dummies tf)). rewrite get_dummies_index.
    now apply (getitems_index dt features). }
  assert (HP : Permutation (index (X_val ns) ++ index (X_train ns))
                           (index (data_train ns))).
  { rewrite HXva, HXtr, Hdt. unfold index. rewrite Hrv, Hrt, !map_iloc.
    rewrite <- iloc_app, Hidx. apply iloc_permutation.
    now rewrite length_map. }
  assert (Hnd : NoDup (index (X_val ns) ++ index (X_train ns))).
  { apply (Permutation_NoDup (Permutation_sym HP)).
    rewrite Hdt. unfold index. rewrite Hrows, map_map. cbn [fst].
    apply cell_load_index_NoDup. }
  split; [assumption|]. split; [assumption|].
  intros i Hv Ht. revert Hnd Hv. clear - Ht.
  induction (index (X_val ns)) as [|j t IH]; simpl; [intros _ []|].
  intros Hnd [->|Hv].
  - inversion Hnd as [|? ? Hn _]; subst. apply Hn. apply in_or_app. now right.
  - inversion Hnd; subst. auto.
Qed.

Lemma split_parts_are_disjoint_witness :
  exists ns,
    sample_run = Ok ns
    /\ index (X_val ns) = [14; 13; 12]%Z
    /\ index (X_train ns) = [11; 10; 9; 8; 7; 6; 5; 4; 2; 1; 0]%Z
    /\ NoDup (index (X_val ns) ++ index (X_train ns)).
Proof.
  eexists. split; [vm_compute; reflexivity|].
  split; [vm_compute; reflexivity|].
  split; [vm_compute; reflexivity|].
  refine (proj1 (proj2 (split_parts_are_disjoint sample_library
                   sample_year1 sample_year2 sample_year3
                   (0 : rng_state sample_library) (Some sample_vif) _
                   sample_permutation_ok _))).
  vm_compute. reflexivity.
Defined.

(* ----------------------------------------------------------------- *)
(** *** Which cells can stop a run *)

Lemma clean_copy_index_unique year3 dt0 dt' cl :
  is_csv_frame year3 = true ->
  cell_features dt0
    (dropna (setitem_scalar year3 "SwingProbability" (Float64, Num 0.5)))
  = Ok (dt', cl) ->
  unique_labels (index cl) = true.
Proof.
  intros Hcsv Hf.
  apply cell_features_Ok in Hf as (_ & Hr & _).
  apply is_csv_frame_spec in Hcsv as (_ & Hnd & _).
  apply unique_labels_NoDup. unfold index. rewrite Hr, map_map. cbn [fst].
  unfold dropna. cbn [rows]. apply filter_labels_NoDup.
  unfold setitem_scalar. cbn [rows]. rewrite map_map. exact Hnd.
Qed.

(** X6.  For three season files as [pd.read_csv] returns them, once the
    feature cell and the encoding cell have returned, the last cell raises
    only
    what [predict_proba] raises on the scoring matrix, whatever the model:
    the scores are as many as the clean table's rows and the clean table's
    labels do not repeat, so the assignment of the scores and the merge go
    through.  The two files are modelled by their content. *)
Theorem last_cell_raises_only_in_predict_proba (L : Library)
  (year1 year2 year3 : DataFrame) (g : rng_state L)
  (dt cl : DataFrame) (enc : Encoded)
  (m : estimator L) (cls : list cell) :
  is_csv_frame year1 = true ->
  is_csv_frame year2 = true ->
  is_csv_frame year3 = true ->
  let season3 :=
    setitem_scalar year3 "SwingProbability" (Float64, Num 0.5) in
  cell_features (cell_load year1 year2) (dropna season3) = Ok (dt, cl) ->
  cell_encode L dt cl g = Ok enc ->
  (forall pr,
     predict_proba L m cls (enc_X_test enc) = Ok pr ->
     length pr = length (rows cl)
     /\ exists r, cell_persist L m cls (enc_X_test enc) season3 cl = Ok r)
  /\ (forall e,
        cell_persist L m cls (enc_X_test enc) season3 cl = Raise e ->
        predict_proba L m cls (enc_X_test enc) = Raise e).
Proof.
  intros _ _ Hcsv season3 Hf He.
  assert (Hlen : length (rows (enc_X_test enc)) = length (rows cl)).
  { rewrite <- (length_map fst (rows (enc_X_test enc))).
    fold (index (enc_X_test enc)).
    rewrite (cell_encode_X_test_index _ _ _ _ _ He).
    unfold index. apply length_map. }
  pose proof (clean_copy_index_unique year3 _ dt cl Hcsv Hf) as Hu.
  assert (Hret : forall pr,
            predict_proba L m cls (enc_X_test enc) = Ok pr ->
            length pr = length (rows cl)
            /\ exists r,
                 cell_persist L m cls (enc_X_test enc) season3 cl = Ok r).
  { intros pr Hpr. apply predict_proba_Ok in Hpr as (Hc & Hn & ->).
    split; [now rewrite length_map, values_length|].
    apply cell_persist_Ok_iff. auto. }
  split; [exact Hret|].
  intros e H.
  destruct (predict_proba L m cls (enc_X_test enc)) as [pr|e0] eqn:Epr.
  - destruct (Hret pr eq_refl) as (_ & r & Hr). congruence.
  - unfold cell_persist in H. rewrite Epr in H. cbn [bind] in H.
    inversion H. reflexivity.
Qed.

Lemma last_cell_raises_only_in_predict_proba_witness :
  exists r,
    cell_persist sample_library
      (searched_candidate : estimator sample_library) [Num 1; Num 0]
      (enc_X_test sample_encoded)
      (setitem_scalar sample_year3 "SwingProbability" (Float64, Num 0.5))
      (snd sample_tables)
    = Ok r.
Proof.
  assert (Hf : cell_features (cell_load sample_year1 sample_year2)
                 (dropna (setitem_scalar sample_year3 "SwingProbability"
                            (Float64, Num 0.5)))
               = Ok (fst sample_tables, snd sample_tables))
    by (vm_compute; reflexivity).
  assert (He : cell_encode sample_library (fst sample_tables)
                 (snd sample_tables) (0 : rng_state sample_library)
               = Ok sample_encoded)
    by (vm_compute; reflexivity).
  refine (proj2 (proj1 (last_cell_raises_only_in_predict_proba
                          sample_library sample_year1 sample_year2
                          sample_year3 (0 : rng_state sample_library)
                          (fst sample_tables) (snd sample_tables)
                          sample_encoded
                          (searched_candidate : estimator sample_library)
                          [Num 1; Num 0] eq_refl eq_refl eq_refl Hf He)
                   _ _)).
  vm_compute. reflexivity.
Defined.

(* ----------------------------------------------------------------- *)
(** *** A training table too small to split *)

Lemma getitems_raises df cs e :
  getitems df cs = Raise e -> exists c, e = KeyError c /\ In c cs.
Proof.
  unfold getitems. destruct (first_missing df cs) as [c|] eqn:E;
    [|discriminate].
  intros H. inversion H; subst. exists c. split; [reflexivity|].
  now apply first_missing_Some in E.
Qed.

Lemma getitems_returns df cs :
  forallb (has_column df) cs = true -> exists X, getitems df cs = Ok X.
Proof.
  intros H. apply first_missing_None in H. unfold getitems. rewrite H. eauto.
Qed.

Lemma reindex_columns_raises df target fill e :
  reindex_columns df target fill = Raise e -> e = ValueError.
Proof.
  unfold reindex_columns. destruct (names_equal target (names df));
    [discriminate|].
  destruct (unique_names (names df)); intros H; inversion H; reflexivity.
Qed.

Lemma validate_shuffle_split_small n :
  n <= 1 -> validate_shuffle_split n 0x1.999999999999ap-3 = Raise ValueError.
Proof.
  intros H. destruct n as [|[|n]]; [vm_compute; reflexivity..|lia].
Qed.

(** With at most one training row the encoding cell cannot return: the
    split refuses an empty training part. *)
Lemma cell_encode_small L dt cl g :
  length (rows dt) <= 1 ->
  exists e,
    cell_encode L dt cl g = Raise e
    /\ (has_column dt "swing" = true ->
        forallb (has_column dt) features = true ->
        forallb (has_column cl) features = true ->
        e = ValueError).
Proof.
  intros Hn. unfold cell_encode.
  destruct (getitems dt features) as [tf|e0] eqn:Etf; cbn [bind].
  2:{ exists e0. split; [reflexivity|]. intros _ H _.
      apply getitems_returns in H as [X H]. congruence. }
  destruct (getitems cl features) as [sf|e0] eqn:Esf; cbn [bind].
  2:{ exists e0. split; [reflexivity|]. intros _ _ H.
      apply getitems_returns in H as [X H]. congruence. }
  destruct (reindex_columns _ _ _) as [Xt|e0] eqn:EXt; cbn [bind].
  2:{ exists e0. split; [reflexivity|]. intros _ _ _.
      now apply reindex_columns_raises in EXt. }
  destruct (getitem dt "swing") as [y|e0] eqn:Ey; cbn [bind].
  2:{ exists e0. split; [reflexivity|]. intros H _ _.
      rewrite (getitem_has _ _ H) in Ey. discriminate. }
  unfold train_test_split.
  rewrite validate_shuffle_split_small.
  - exists ValueError. split; [reflexivity|auto].
  - rewrite get_dummies_rows_length.
    now rewrite (getitems_rows_length dt features tf Etf).
Qed.

(** X7.  For three season files as [pd.read_csv] returns them: when at
    most one row of the two training seasons has no missing value, no run
    goes through: it stops in the feature cell, or else in
    the encoding cell.  When it reaches the encoding cell with the feature
    columns in both tables, what it raises there is [ValueError]: the split
    refuses an empty training part. *)
Theorem too_few_training_rows_raise (L : Library)
  (year1 year2 year3 : DataFrame) (g : rng_state L)
  (vif : option vif_function) :
  is_csv_frame year1 = true ->
  is_csv_frame year2 = true ->
  is_csv_frame year3 = true ->
  length (rows (cell_load year1 year2)) <= 1 ->
  let season3_clean :=
    dropna (setitem_scalar year3 "SwingProbability" (Float64, Num 0.5)) in
  exists e,
    notebook L year1 year2 year3 g vif = Raise e
    /\ (cell_features (cell_load year1 year2) season3_clean = Raise e
        \/ exists dt cl,
             cell_features (cell_load year1 year2) season3_clean
             = Ok (dt, cl)
             /\ cell_encode L dt cl g = Raise e
             /\ (forallb (has_column dt) features = true ->
                 forallb (has_column cl) features = true ->
                 e = ValueError)).
Proof.
  intros _ _ _ Hn season3_clean. unfold notebook, cell_season3, copy.
  fold season3_clean.
  destruct (cell_features (cell_load year1 year2) season3_clean)
    as [[dt cl]|e0] eqn:Ef; cbn [bind].
  - assert (Hlen : length (rows dt) <= 1).
    { apply cell_features_Ok in Ef as (-> & _). now rewrite length_map. }
    assert (Hsw : has_column dt "swing" = true).
    { apply cell_features_Ok in Ef as (_ & _ & (d0 & d1 & Hc) & _).
      unfold has_column. rewrite Hc.
      rewrite has_key_set_ne by discriminate. apply has_key_set. }
    destruct (cell_encode_small L dt cl g Hlen) as (e & He & Hv).
    rewrite He. cbn [bind]. exists e. split; [reflexivity|].
    right. exists dt, cl. auto.
  - exists e0. split; [reflexivity|now left].
Qed.

Lemma too_few_training_rows_raise_witness :
  length (rows (cell_load sample_short_year1 sample_short_year2)) = 1
  /\ notebook sample_library sample_short_year1 sample_short_year2
              sample_year3 (0 : rng_state sample_library) None
     = Raise ValueError.
Proof.
  split; [vm_compute; reflexivity|].
  destruct (too_few_training_rows_raise sample_library
              sample_short_year1 sample_short_year2 sample_year3
              (0 : rng_state sample_library) None) as (e & He & _).
  - vm_compute. reflexivity.
  - vm_compute. reflexivity.
  - vm_compute. reflexivity.
  - vm_compute. lia.
  - vm_compute. reflexivity.
Defined.

(* ----------------------------------------------------------------- *)
(** *** The mask computed before the default is put in *)

(** X8.  For a season-3 file as [pd.read_csv] returns it and without a
    [SwingProbability] column, in a run that goes through: [nan_rows], which
    the first season-3 line computes and nothing reads, marks each row by
    whether it has a missing value, and the rows it leaves unmarked are
    exactly the rows of the clean copy, in order. *)
Theorem nan_rows_marks_dropped_rows (L : Library)
  (year1 year2 year3 : DataFrame) (g : rng_state L)
  (vif : option vif_function) (ns : Namespace L) :
  is_csv_frame year3 = true ->
  has_column year3 "SwingProbability" = false ->
  notebook L year1 year2 year3 g vif = Ok ns ->
  nan_rows ns = map (fun ir => (fst ir, row_has_na (snd ir))) (rows year3)
  /\ index (data_season3_clean ns)
     = map fst (filter (fun ib => negb (snd ib)) (nan_rows ns)).
Proof.
  intros Hcsv Hsp Hrun.
  pose proof (notebook_bindings _ _ _ _ _ _ _ Hrun) as (Hnan & _).
  destruct (notebook_output _ _ _ _ _ _ _ Hrun Hcsv)
    as (_ & _ & _ & _ & Hicl & _).
  split; [exact Hnan|].
  rewrite Hicl, Hnan. unfold isna_any.
  rewrite filter_map_comm, map_map. cbn [fst snd]. f_equal.
  apply filter_ext_in. intros [i r] Hin. cbn [snd].
  now rewrite (row_has_na_defaulted year3 i r).
Qed.

Lemma nan_rows_marks_dropped_rows_witness :
  exists ns,
    sample_run = Ok ns
    /\ nan_rows ns = [(0, false); (1, true); (2, false); (3, false);
                       (4, true); (5, false)]%Z
    /\ index (data_season3_clean ns)
       = map fst (filter (fun ib => negb (snd ib)) (nan_rows ns)).
Proof.
  eexists. split; [vm_compute; reflexivity|].
  split; [vm_compute; reflexivity|].
  refine (proj2 (nan_rows_marks_dropped_rows sample_library
                   sample_year1 sample_year2 sample_year3
                   (0 : rng_state sample_library) (Some sample_vif) _ _ _ _)).
  - vm_compute. reflexivity.
  - vm_compute. reflexivity.
  - vm_compute. reflexivity.
Defined.

(* ----------------------------------------------------------------- *)
(** *** The encoded columns *)

Lemma prefix_append a b : String.prefix a (a ++ b) = true.
Proof.
  induction a as [|c a IH]; simpl; [now destruct b|].
  destruct (ascii_dec c c); [assumption|contradiction].
Qed.

Lemma dummy_name_prefix p l :
  String.prefix (dummy_prefix p) (dummy_name p l) = true.
Proof.
  unfold dummy_prefix, dummy_name.
  replace (p ++ "_" ++ l)%string with ((p ++ "_") ++ l)%string.
  - apply prefix_append.
  - induction p as [|c p IH]; simpl; [reflexivity|]. now rewrite IH.
Qed.

Lemma getitems_names df cs X : getitems df cs = Ok X -> names X = cs.
Proof.
  unfold getitems. destruct (first_missing df cs); [discriminate|].
  intros H. inversion H. unfold names. simpl. rewrite map_map. simpl.
  apply map_id.
Qed.

(** A column of the encoded frame is a column of the frame or an indicator
    of one of its columns. *)
Lemma get_dummies_names df c :
  In c (names (get_dummies df)) ->
  In c (names df) \/ exists p l, In p (names df) /\ c = dummy_name p l.
Proof.
  unfold names, get_dummies. cbn [columns]. rewrite map_app.
  intros H. apply in_app_or in H as [H|H].
  - left. apply in_map_iff in H as (cd & <- & Hcd).
    apply filter_In in Hcd as [Hcd _]. apply in_map_iff. eauto.
  - right. apply in_map_iff in H as ([c' d] & E & H). cbn [fst] in E. subst c'.
    apply in_flat_map in H as ([p lv] & Hp & Hl). cbn [fst snd] in Hl.
    apply in_map_iff in Hl as (l & El & _). inversion El; subst c d.
    apply in_map_iff in Hp as (cd & Ep & Hcd). inversion Ep; subst p lv.
    apply filter_In in Hcd as [Hcd _].
    exists (fst cd), l. split; [|reflexivity]. apply in_map_iff. eauto.
Qed.

Lemma never_features_checked :
  forallb (fun c =>
             negb (existsb (String.eqb c) features)
             && forallb (fun p => negb (String.prefix (dummy_prefix p) c))
                        features)
          never_features = true.
Proof. vm_compute. reflexivity. Qed.

(** X9.  In a run that goes through, every column of the training matrix
    (and so of the validation and the scoring matrix) is one of the ten
    features or an indicator [p_level] of one of them; the target [swing],
    the [description] it is read from, [SwingProbability] and the raw zone
    columns [plate_z], [sz_top], [sz_bot] are not among them. *)
Theorem target_never_among_features (L : Library)
  (year1 year2 year3 : DataFrame) (g : rng_state L)
  (vif : option vif_function) (ns : Namespace L) :
  notebook L year1 year2 year3 g vif = Ok ns ->
  names (X_val ns) = names (X_train ns)
  /\ names (X_test ns) = names (X_train ns)
  /\ (forall c, In c (names (X_train ns)) ->
        In c features
        \/ exists p l, In p features /\ c = dummy_name p l)
  /\ forall c, In c never_features -> ~ In c (names (X_train ns)).
Proof.
  intros Hrun.
  pose proof (notebook_Ok _ _ _ _ _ _ _ Hrun) as H. cbv zeta in H.
  destruct H as (dt & cl & enc & gs & cl2 & ds3 & out & _ & He & _ & _
                 & _ & _ & _ & HXtr & HXva & _ & _ & HXt & _).
  apply cell_encode_Ok in He
    as (tf & sf & ytr & n1 & n2 & Htf & _ & Hre & _ & _ & _ & Hct & Hcv).
  apply reindex_columns_Ok in Hre as (Hnt & _).
  assert (Hn : names (X_train ns) = names (get_dummies tf)).
  { rewrite HXtr. unfold names. now rewrite Hct. }
  assert (Hall : forall c, In c (names (X_train ns)) ->
            In c features
            \/ exists p l, In p features /\ c = dummy_name p l).
  { intros c Hc. rewrite Hn in Hc. apply get_dummies_names in Hc.
    now rewrite (getitems_names _ _ _ Htf) in Hc. }
  split.
  { rewrite HXva, Hn. unfold names. now rewrite Hcv. }
  split.
  { rewrite HXt, Hn. exact Hnt. }
  split; [assumption|].
  intros c Hc Hin.
  pose proof never_features_checked as Hchk.
  rewrite forallb_forall in Hchk. specialize (Hchk c Hc).
  apply andb_true_iff in Hchk as [Hnf Hnp].
  apply negb_true_iff in Hnf.
  destruct (Hall c Hin) as [Hf|(p & l & Hp & ->)].
  - assert (existsb (String.eqb c) features = true); [|congruence].
    apply existsb_exists. exists c. split; [assumption|apply String.eqb_refl].
  - rewrite forallb_forall in Hnp. specialize (Hnp p Hp).
    rewrite dummy_name_prefix in Hnp. discriminate.
Qed.

Lemma target_never_among_features_witness :
  exists ns,
    sample_run = Ok ns
    /\ names (X_test ns) = names (X_train ns)
    /\ length (names (X_train ns)) = 13.
Proof.
  eexists. split; [vm_compute; reflexivity|].
  split; [|vm_compute; reflexivity].
  refine (proj1 (proj2 (target_never_among_features sample_library
                   sample_year1 sample_year2 sample_year3
                   (0 : rng_state sample_library) (Some sample_vif) _ _))).
  vm_compute. reflexivity.
Defined.

(* ----------------------------------------------------------------- *)
(** *** Categories and indicator names *)

Lemma slt_trans a b c : slt a b -> slt b c -> slt a c.
Proof.
  unfold slt, String.ltb. intros H1 H2.
  destruct (String.compare a b) eqn:E1; try discriminate.
  destruct (String.compare b c) eqn:E2; try discriminate.
  apply OrderedTypeEx.String_as_OT.cmp_lt in E1, E2.
  pose proof (OrderedTypeEx.String_as_OT.lt_trans _ _ _ E1 E2) as H.
  apply OrderedTypeEx.String_as_OT.cmp_lt in H.
  unfold OrderedTypeEx.String_as_OT.cmp in H. now rewrite H.
Qed.

Lemma slt_irrefl a : ~ slt a a.
Proof.
  unfold slt, String.ltb.
  assert (H : String.compare a a = Eq)
    by (apply OrderedTypeEx.String_as_OT.cmp_eq; reflexivity).
  rewrite H. discriminate.
Qed.

Lemma slt_of_not s h :
  String.eqb s h = false -> String.ltb s h = false -> slt h s.
Proof.
  unfold slt, String.ltb. intros He Hl.
  rewrite String.compare_antisym.
  destruct (String.compare s h) eqn:E; try discriminate; [|reflexivity].
  apply String.compare_eq_iff in E. subst.
  rewrite String.eqb_refl in He. discriminate.
Qed.

Lemma insert_level_In s l x : In x (insert_level s l) <-> x = s \/ In x l.
Proof.
  induction l as [|h t IH]; simpl.
  - intuition.
  - destruct (String.eqb s h) eqn:E.
    + apply String.eqb_eq in E. subst. simpl. intuition.
    + destruct (String.ltb s h); simpl; rewrite ?IH; intuition.
Qed.

Lemma insert_level_sorted s l :
  Sorted.StronglySorted slt l -> Sorted.StronglySorted slt (insert_level s l).
Proof.
  induction 1 as [|h t Ht IH Hall]; simpl.
  - constructor; constructor.
  - destruct (String.eqb s h) eqn:E; [now constructor|].
    destruct (String.ltb s h) eqn:El.
    + constructor; [now constructor|].
      constructor; [exact El|].
      rewrite Forall_forall in *. intros x Hx.
      apply slt_trans with h; [exact El|auto].
    + constructor; [assumption|].
      rewrite Forall_forall in *. intros x Hx.
      apply insert_level_In in Hx as [->|Hx]; [|auto].
      now apply slt_of_not.
Qed.

Lemma levels_of_sorted c rs : Sorted.StronglySorted slt (levels_of c rs).
Proof.
  induction rs as [|ir t IH]; simpl; [constructor|].
  destruct (cell_of (snd ir) c); [assumption|].
  now apply insert_level_sorted.
Qed.


Lemma sorted_NoDup l : Sorted.StronglySorted slt l -> NoDup l.
Proof.
  induction 1 as [|h t Ht IH Hall]; constructor; [|assumption].
  intros Hin. rewrite Forall_forall in Hall.
  exact (slt_irrefl h (Hall h Hin)).
Qed.

Lemma NoDup_tl {A : Type} (l : list A) : NoDup l -> NoDup (tl l).
Proof. destruct l; simpl; [auto|]. now inversion 1. Qed.

Lemma append_inj_l a b c : (a ++ b)%string = (a ++ c)%string -> b = c.
Proof.
  induction a as [|x a IH]; simpl; [auto|]. intros H. inversion H. auto.
Qed.

Lemma dummy_name_inj p l1 l2 : dummy_name p l1 = dummy_name p l2 -> l1 = l2.
Proof.
  unfold dummy_name. intros H. apply append_inj_l in H.
  now inversion H.
Qed.

Lemma prefix_comparable s : forall a b,
  String.prefix a s = true -> String.prefix b s = true ->
  String.prefix a b = true \/ String.prefix b a = true.
Proof.
  induction s as [|x s IH]; intros [|y a] [|z b]; simpl; auto;
    try discriminate.
  destruct (ascii_dec y x); [|discriminate].
  destruct (ascii_dec z x); [|discriminate].
  subst. intros Ha Hb.
  destruct (ascii_dec x x); [|contradiction]. auto.
Qed.

Lemma prefix_free_spec cols p k :
  prefix_free cols = true -> In p cols -> In k cols ->
  String.prefix (dummy_prefix p) k = false
  /\ (p <> k -> String.prefix (dummy_prefix p) (dummy_prefix k) = false).
Proof.
  unfold prefix_free. intros H Hp Hk.
  rewrite forallb_forall in H. specialize (H p Hp).
  rewrite forallb_forall in H. specialize (H k Hk).
  apply andb_true_iff in H as [H1 H2].
  apply negb_true_iff in H1. split; [assumption|].
  intros Hne. apply orb_true_iff in H2 as [H2|H2].
  - apply String.eqb_eq in H2. contradiction.
  - now apply negb_true_iff in H2.
Qed.

(** Indicator names of two columns of a prefix-free list coincide only for
    the same column and the same category. *)
Lemma dummy_name_clash cols p q l1 l2 :
  prefix_free cols = true -> In p cols -> In q cols ->
  dummy_name p l1 = dummy_name q l2 -> p = q /\ l1 = l2.
Proof.
  intros Hpf Hp Hq E.
  assert (Hpq : p = q).
  { destruct (string_dec p q) as [|Hne]; [assumption|exfalso].
    pose proof (dummy_name_prefix p l1) as H1.
    pose proof (dummy_name_prefix q l2) as H2. rewrite <- E in H2.
    destruct (prefix_comparable _ _ _ H1 H2) as [H|H].
    - destruct (prefix_free_spec cols p q Hpf Hp Hq) as [_ Hb].
      rewrite (Hb Hne) in H. discriminate.
    - destruct (prefix_free_spec cols q p Hpf Hq Hp) as [_ Hb].
      rewrite (Hb (not_eq_sym Hne)) in H. discriminate. }
  subst q. split; [reflexivity|]. now apply dummy_name_inj in E.
Qed.

Lemma dummy_name_not_column cols p k l :
  prefix_free cols = true -> In p cols -> In k cols -> dummy_name p l <> k.
Proof.
  intros Hpf Hp Hk E.
  destruct (prefix_free_spec cols p k Hpf Hp Hk) as [Ha _].
  rewrite <- E, dummy_name_prefix in Ha. discriminate.
Qed.

Lemma NoDup_append {A : Type} (l l' : list A) :
  NoDup l -> NoDup l' -> (forall a, In a l -> ~ In a l') -> NoDup (l ++ l').
Proof.
  induction l as [|x l IH]; simpl; [auto|].
  intros Hl Hl' Hd. inversion Hl; subst. constructor.
  - intros Hin. apply in_app_or in Hin as [Hin|Hin]; [contradiction|].
    exact (Hd x (or_introl eq_refl) Hin).
  - apply IH; auto.
Qed.

Lemma NoDup_map_fst_filter {K A : Type} (P : K * A -> bool) l :
  NoDup (map fst l) -> NoDup (map fst (filter P l)).
Proof.
  induction l as [|x l IH]; simpl; [auto|].
  intros H. inversion H; subst.
  destruct (P x); simpl; [|auto]. constructor; [|auto].
  intros Hin. apply in_map_iff in Hin as (y & E & Hy).
  apply filter_In in Hy as [Hy _]. apply H2. apply in_map_iff. eauto.
Qed.

Lemma map_fst_flat_map {A B C : Type} (f : A -> list (B * C)) l :
  map fst (flat_map f l) = flat_map (fun x => map fst (f x)) l.
Proof.
  induction l as [|x l IH]; simpl; [reflexivity|].
  now rewrite map_app, IH.
Qed.

Lemma dummy_blocks_NoDup cols (enc : list (string * list string)) :
  prefix_free cols = true ->
  NoDup (map fst enc) ->
  (forall cl, In cl enc -> In (fst cl) cols /\ NoDup (snd cl)) ->
  NoDup (flat_map (fun cl => map (dummy_name (fst cl)) (snd cl)) enc).
Proof.
  intros Hpf. induction enc as [|[p lv] enc IH]; simpl; [constructor|].
  intros Hk Hall. inversion Hk as [|? ? Hnin Hk']; subst.
  destruct (Hall (p, lv) (or_introl eq_refl)) as [Hp Hlv]. simpl in Hp, Hlv.
  apply NoDup_append.
  - apply Finite.Injective_map_NoDup; [|assumption].
    intros l1 l2. apply dummy_name_inj.
  - apply IH; auto.
  - intros a Ha Hin. apply in_map_iff in Ha as (l1 & <- & _).
    apply in_flat_map in Hin as ([q lq] & Hq & Hin). simpl in Hin.
    apply in_map_iff in Hin as (l2 & E & _).
    destruct (Hall (q, lq) (or_intror Hq)) as [Hqc _]. simpl in Hqc.
    destruct (dummy_name_clash cols q p l2 l1 Hpf Hqc Hp E) as [-> _].
    apply Hnin. apply in_map_iff. exists (p, lq). auto.
Qed.

(** The columns of an encoded frame are distinct when those of the frame are
    and no indicator name can clash. *)
Lemma get_dummies_names_NoDup df :
  NoDup (names df) -> prefix_free (names df) = true ->
  NoDup (names (get_dummies df)).
Proof.
  intros Hnd Hpf. unfold names, get_dummies. cbn [columns].
  rewrite map_app, map_fst_flat_map.
  apply NoDup_append.
  - now apply NoDup_map_fst_filter.
  - erewrite flat_map_ext
      with (g := fun cl => map (dummy_name (fst cl)) (snd cl)).
    2:{ intros cl. rewrite map_map. reflexivity. }
    apply dummy_blocks_NoDup with (cols := names df); [assumption| |].
    + rewrite map_map. simpl. now apply NoDup_map_fst_filter.
    + intros cl Hcl. apply in_map_iff in Hcl as (cd & <- & Hcd). simpl.
      apply filter_In in Hcd as [Hcd _]. split.
      * apply in_map_iff. eauto.
      * apply NoDup_tl, sorted_NoDup, levels_of_sorted.
  - intros a Ha Hin.
    apply in_map_iff in Ha as (cd & <- & Hcd).
    apply filter_In in Hcd as [Hcd _].
    apply in_flat_map in Hin as (cl & Hcl & Hin).
    rewrite map_map in Hin. simpl in Hin.
    apply in_map_iff in Hin as (l & E & _).
    apply in_map_iff in Hcl as (cd' & <- & Hcd'). simpl in E.
    apply filter_In in Hcd' as [Hcd' _].
    apply (dummy_name_not_column (names df) (fst cd') (fst cd) l Hpf);
      [apply in_map_iff; eauto|apply in_map_iff; eauto|exact E].
Qed.

Lemma features_NoDup : NoDup features.
Proof. apply unique_names_NoDup. vm_compute. reflexivity. Qed.

Lemma features_prefix_free : prefix_free features = true.
Proof. vm_compute. reflexivity. Qed.

Lemma getitems_features_encoded_NoDup df tf :
  getitems df features = Ok tf -> NoDup (names (get_dummies tf)).
Proof.
  intros H. apply getitems_names in H.
  apply get_dummies_names_NoDup; rewrite H.
  - exact features_NoDup.
  - exact features_prefix_free.
Qed.

Lemma validate_shuffle_split_raises n test_size e :
  validate_shuffle_split n test_size = Raise e -> e = ValueError.
Proof.
  unfold validate_shuffle_split.
  destruct (negb _); [intros H; now inversion H|].
  destruct (F64.ceil _); [|intros H; now inversion H].
  destruct (Nat.eqb _ 0); intros H; now inversion H.
Qed.

Lemma train_test_split_result L X y test_size random_state g :
  match validate_shuffle_split (length (rows X)) test_size with
  | Ok _ => exists r, train_test_split L X y test_size random_state g = Ok r
  | Raise e => train_test_split L X y test_size random_state g = Raise e
  end.
Proof.
  unfold train_test_split.
  destruct (validate_shuffle_split _ _) as [[n1 n2]|e]; cbn [bind]; eauto.
Qed.

(** X10.  The encoding cell returns exactly when the training table has
    [swing] and every feature column, the season-3 table has every feature
    column, and the split accepts the number of training rows.  It raises
    [KeyError] for the first such column that is missing and [ValueError]
    only where the split refuses: the alignment of the scoring columns
    cannot refuse, because the names of the encoded columns of the feature
    list never repeat. *)
Theorem encoding_cell_returns_iff (L : Library) (dt cl : DataFrame)
  (g : rng_state L) :
  ((exists enc, cell_encode L dt cl g = Ok enc) <->
     forallb (has_column dt) ("swing"%string :: features) = true
     /\ forallb (has_column cl) features = true
     /\ exists n,
          validate_shuffle_split (length (rows dt)) 0x1.999999999999ap-3
          = Ok n)
  /\ (forall e, cell_encode L dt cl g = Raise e ->
        (exists c, e = KeyError c
                   /\ ((In c ("swing"%string :: features)
                        /\ has_column dt c = false)
                       \/ (In c features /\ has_column cl c = false)))
        \/ (e = ValueError
            /\ validate_shuffle_split (length (rows dt)) 0x1.999999999999ap-3
               = Raise ValueError))
  /\ forall df tf,
       getitems df features = Ok tf ->
       NoDup (names (get_dummies tf))
       /\ forall target fill,
            exists X, reindex_columns (get_dummies tf) target fill = Ok X.
Proof.
  assert (Hre : forall df tf,
            getitems df features = Ok tf ->
            NoDup (names (get_dummies tf))
            /\ forall target fill,
                 exists X, reindex_columns (get_dummies tf) target fill = Ok X).
  { intros df tf H. pose proof (getitems_features_encoded_NoDup _ _ H) as Hnd.
    split; [assumption|]. intros target fill. unfold reindex_columns.
    apply unique_names_NoDup in Hnd. rewrite Hnd.
    destruct (names_equal target (names (get_dummies tf))); eauto. }
  assert (Hcases :
    match cell_encode L dt cl g with
    | Ok _ =>
        forallb (has_column dt) ("swing"%string :: features) = true
        /\ forallb (has_column cl) features = true
        /\ exists n,
             validate_shuffle_split (length (rows dt)) 0x1.999999999999ap-3
             = Ok n
    | Raise e =>
        (exists c, e = KeyError c
                   /\ ((In c ("swing"%string :: features)
                        /\ has_column dt c = false)
                       \/ (In c features /\ has_column cl c = false)))
        \/ (e = ValueError
            /\ validate_shuffle_split (length (rows dt)) 0x1.999999999999ap-3
               = Raise ValueError)
    end).
  { unfold cell_encode.
    destruct (getitems dt features) as [tf|e0] eqn:Etf; cbn [bind].
    2:{ left. unfold getitems in Etf.
        destruct (first_missing dt features) as [c|] eqn:Em; [|discriminate].
        inversion Etf; subst. apply first_missing_Some in Em as [Hin Hc].
        exists c. split; [reflexivity|]. left. split; [now right|assumption]. }
    destruct (getitems cl features) as [sf|e0] eqn:Esf; cbn [bind].
    2:{ left. unfold getitems in Esf.
        destruct (first_missing cl features) as [c|] eqn:Em; [|discriminate].
        inversion Esf; subst. apply first_missing_Some in Em as [Hin Hc].
        exists c. split; [reflexivity|]. right. split; assumption. }
    destruct (proj2 (Hre _ _ Esf) (names (get_dummies tf)) (Int64, Num 0))
      as [Xt ->]. cbn [bind].
    unfold getitem. destruct (has_column dt "swing") eqn:Esw; cbn [bind].
    2:{ left. exists "swing"%string. split; [reflexivity|].
        left. split; [now left|assumption]. }
    pose proof (train_test_split_result L (get_dummies tf)
                  (column_by (fun r => cell_of r "swing") (rows dt))
                  0x1.999999999999ap-3 (Some 21%Z) g) as Hs.
    rewrite get_dummies_rows_length, (getitems_rows_length _ _ _ Etf) in Hs.
    destruct (validate_shuffle_split (length (rows dt)) 0x1.999999999999ap-3)
      as [n|e0] eqn:Ev.
    - destruct Hs as [[[[Xtr Xva] ytr] yva] ->]. cbn [bind].
      split.
      { change (forallb (has_column dt) ("swing"%string :: features))
          with (has_column dt "swing" && forallb (has_column dt) features).
        rewrite Esw. cbn [andb].
        apply first_missing_None. unfold getitems in Etf.
        destruct (first_missing dt features); [discriminate|reflexivity]. }
      split; [|eauto].
      apply first_missing_None. unfold getitems in Esf.
      destruct (first_missing cl features); [discriminate|reflexivity].
    - rewrite Hs. cbn [bind]. right.
      pose proof (validate_shuffle_split_raises _ _ _ Ev). subst e0. auto. }
  split; [|split; [|exact Hre]].
  - split.
    + intros [enc He]. now rewrite He in Hcases.
    + intros (Hdt & Hcl & n & Hn).
      destruct (cell_encode L dt cl g) as [enc|e]; [eauto|exfalso].
      destruct Hcases as [(c & _ & [[Hin Hc]|[Hin Hc]])|[_ Hv]];
        [| |congruence].
      * rewrite forallb_forall in Hdt. rewrite (Hdt c Hin) in Hc.
        discriminate.
      * rewrite forallb_forall in Hcl. rewrite (Hcl c Hin) in Hc.
        discriminate.
  - intros e He. now rewrite He in Hcases.
Qed.

(* ----------------------------------------------------------------- *)
(** *** The encoded cells *)









